(** * pycraft: the node model, the scoped builder and the code generator

    A shallow embedding of [pycraft.nodes], [pycraft.core.builder],
    [pycraft.builder] and [pycraft.generator.base], followed by the
    properties of the builder's reattachment rules and of the renderer.

    Conventions of the embedding.
    - Every node class is a constructor of one type [node]: the dataclasses
      are all subclasses of [BaseNode] and their fields are typed
      [T | None] or [list[T]] for an arbitrary [T: BaseNode], so any node may
      sit in any field.  Field values outside the annotations (a [str] where
      a node is declared, a [dict] among call keywords) are not modelled.
    - [T | None] is [option node], [list[T]] is [list node] in Python order
      ([append] adds at the end), [str] is [string], [int] is [Z].
    - Python exceptions are the [Raised] outcome of the result type; the
      renderer threads its [indent_level] counter as explicit state. *)

From Stdlib Require Import List String Ascii ZArith Lia Bool.
From Stdlib Require Import DecimalString.
Import ListNotations.

Local Open Scope list_scope.
Local Open Scope string_scope.

(** [++] is string concatenation throughout; lists are appended with
    [+++]. *)
Infix "+++" := app (right associativity, at level 60) : list_scope.

(** ** Node model ([pycraft.nodes]) *)

(** The operator classes of [nodes/operators.py]: dataclasses without
    fields, one tag each. *)
Inductive operator : Type :=
| And | Or | Not
| Eq | NotEq | Lt | LtE | Gt | GtE | Is | IsNot | In | NotIn
| Add | Sub | Mult | Div | FloorDiv | Mod | Pow | MatMult
| LShift | RShift | BitOr | BitXor | BitAnd
| UAdd | USub | Invert.

(** [Constant.value : int | str | float | bool | None].  A float is carried
    as the text [str()] gives for it; its arithmetic is never used. *)
Inductive constant_value : Type :=
| VInt (i : Z)
| VStr (s : string)
| VFloat (text : string)
| VBool (b : bool)
| VNone.

Scheme All for list.
Scheme All for option.

Inductive node : Type :=
(* imports.py *)
| Import (names : list node)
| ImportFrom (module : string) (names : list node) (level : option Z)
| Alias (name : string) (asname : option string)
| ImportGroup (imports : list node)
(* literals.py *)
| Constant (value : constant_value) (kind : option string)
| Name (id : string)
| Attribute (value : option node) (attr : string)
| Subscript (value : option node) (slice : option node)
| Dict (keys : list node) (values : list node)
| List_ (elts : list node)
| Set_ (elts : list node)
| Tuple (elts : list node)
(* statements.py *)
| Pass
| Return (value : option node)
| Yield (value : option node)
| Await (value : option node)
| Break
| Continue
| Delete (targets : list node)
| Global (names : list string)
| Nonlocal (names : list string)
| Comment (text : string)
| Expr (value : option node)
(* assignments.py *)
| Assign (targets : list node) (value : option node) (comment : option string)
| AugAssign (target : option node) (op : option node) (value : option node)
            (comment : option string)
| AnnAssign (target : string) (annotation : option node) (simple : Z)
            (comment : option string) (value : option node)
(* expressions.py *)
| Call (func : option node) (args : list node) (keywords : list node)
| Keyword (arg : option string) (value : option node)
| BoolOp (op : option node) (values : list node)
| UnaryOp (op : option node) (operand : option node)
| BinOp (left : option node) (op : option node) (right : option node)
| Compare (left : option node) (ops : list node) (comparators : list node)
| Lambda (args : option node) (body : option node)
| IfExp (test : option node) (body : option node) (orelse : option node)
| Starred (value : option node)
(* functions.py *)
| Arg (arg : string) (annotation : option node) (default : option node)
| Arguments (args : list node) (vararg : option node) (kwonlyargs : list node)
            (kw_defaults : list (option node)) (kwarg : option node)
            (defaults : list node) (posonlyargs : list node)
| FunctionDef (name : string) (args : option node) (body : list node)
              (returns : option node) (decorator_list : list node)
              (type_params : list node)
| AsyncFunctionDef (name : string) (args : option node) (body : list node)
                   (returns : option node) (decorator_list : list node)
                   (type_params : list node)
| ClassDef (name : string) (bases : list node) (keywords : list node)
           (body : list node) (decorators : list node)
| TypeParam (name : string) (bound : option node)
(* control_flow.py *)
| If (test : option node) (body : list node) (or_else : list node)
| Elif (test : option node) (body : list node)
| Else (body : list node)
| Match (subject : option node) (cases : list node)
| MatchCase (pattern : option node) (guard : option node) (body : list node)
(* loops.py *)
| For (target : option node) (iter : option node) (body : list node)
      (or_else : list node)
| AsyncFor (target : option node) (iter : option node) (body : list node)
           (or_else : list node)
| While (test : option node) (body : list node) (or_else : list node)
(* exceptions.py *)
| Try (body : list node) (handlers : list node) (or_else : list node)
      (finalbody : list node)
| ExceptHandler (type : option node) (name : option string) (body : list node)
| Finally (body : list node)
| Raise (exc : option node) (cause : option node)
| Assert (test : option node) (msg : option node)
(* context_managers.py *)
| With (items : list node) (body : list node)
| WithItem (context_expr : option node) (optional_vars : option node)
(* comprehensions.py *)
| Comprehension (target : option node) (iter : option node) (ifs : list node)
                (is_async : Z)
| ListComp (elt : option node) (generators : list node)
| SetComp (elt : option node) (generators : list node)
| DictComp (key : option node) (value : option node) (generators : list node)
| GeneratorExp (elt : option node) (generators : list node)
(* operators.py *)
| Operator (o : operator)
(* module.py *)
| Module (body : list node).

(** [type(node).__name__]. *)
Definition operator_name (o : operator) : string :=
  match o with
  | And => "And" | Or => "Or" | Not => "Not"
  | Eq => "Eq" | NotEq => "NotEq" | Lt => "Lt" | LtE => "LtE"
  | Gt => "Gt" | GtE => "GtE" | Is => "Is" | IsNot => "IsNot"
  | In => "In" | NotIn => "NotIn"
  | Add => "Add" | Sub => "Sub" | Mult => "Mult" | Div => "Div"
  | FloorDiv => "FloorDiv" | Mod => "Mod" | Pow => "Pow"
  | MatMult => "MatMult" | LShift => "LShift" | RShift => "RShift"
  | BitOr => "BitOr" | BitXor => "BitXor" | BitAnd => "BitAnd"
  | UAdd => "UAdd" | USub => "USub" | Invert => "Invert"
  end.

Definition type_name (n : node) : string :=
  match n with
  | Import _ => "Import" | ImportFrom _ _ _ => "ImportFrom"
  | Alias _ _ => "Alias" | ImportGroup _ => "ImportGroup"
  | Constant _ _ => "Constant" | Name _ => "Name"
  | Attribute _ _ => "Attribute" | Subscript _ _ => "Subscript"
  | Dict _ _ => "Dict" | List_ _ => "List" | Set_ _ => "Set"
  | Tuple _ => "Tuple"
  | Pass => "Pass" | Return _ => "Return" | Yield _ => "Yield"
  | Await _ => "Await" | Break => "Break" | Continue => "Continue"
  | Delete _ => "Delete" | Global _ => "Global" | Nonlocal _ => "Nonlocal"
  | Comment _ => "Comment" | Expr _ => "Expr"
  | Assign _ _ _ => "Assign" | AugAssign _ _ _ _ => "AugAssign"
  | AnnAssign _ _ _ _ _ => "AnnAssign"
  | Call _ _ _ => "Call" | Keyword _ _ => "Keyword" | BoolOp _ _ => "BoolOp"
  | UnaryOp _ _ => "UnaryOp" | BinOp _ _ _ => "BinOp"
  | Compare _ _ _ => "Compare" | Lambda _ _ => "Lambda"
  | IfExp _ _ _ => "IfExp" | Starred _ => "Starred"
  | Arg _ _ _ => "Arg" | Arguments _ _ _ _ _ _ _ => "Arguments"
  | FunctionDef _ _ _ _ _ _ => "FunctionDef"
  | AsyncFunctionDef _ _ _ _ _ _ => "AsyncFunctionDef"
  | ClassDef _ _ _ _ _ => "ClassDef" | TypeParam _ _ => "TypeParam"
  | If _ _ _ => "If" | Elif _ _ => "Elif" | Else _ => "Else"
  | Match _ _ => "Match" | MatchCase _ _ _ => "MatchCase"
  | For _ _ _ _ => "For" | AsyncFor _ _ _ _ => "AsyncFor"
  | While _ _ _ => "While"
  | Try _ _ _ _ => "Try" | ExceptHandler _ _ _ => "ExceptHandler"
  | Finally _ => "Finally" | Raise _ _ => "Raise" | Assert _ _ => "Assert"
  | With _ _ => "With" | WithItem _ _ => "WithItem"
  | Comprehension _ _ _ _ => "Comprehension" | ListComp _ _ => "ListComp"
  | SetComp _ _ => "SetComp" | DictComp _ _ _ => "DictComp"
  | GeneratorExp _ _ => "GeneratorExp"
  | Operator o => operator_name o
  | Module _ => "Module"
  end.

(** The class attribute [__kw__]: [None] on [BaseNode], overridden by the
    classes that name a keyword. *)
Definition kw (n : node) : option string :=
  match n with
  | With _ _ => Some "with"
  | If _ _ _ => Some "if" | Elif _ _ => Some "elif" | Else _ => Some "else"
  | Match _ _ => Some "match" | MatchCase _ _ _ => Some "case"
  | Try _ _ _ _ => Some "try" | ExceptHandler _ _ _ => Some "except"
  | Finally _ => Some "finally" | Raise _ _ => Some "raise"
  | Assert _ _ => Some "assert"
  | Lambda _ _ => Some "lambda"
  | FunctionDef _ _ _ _ _ _ => Some "def"
  | AsyncFunctionDef _ _ _ _ _ _ => Some "async def"
  | ClassDef _ _ _ _ _ => Some "class"
  | Import _ => Some "import" | ImportFrom _ _ _ => Some "from"
  | For _ _ _ _ => Some "for" | AsyncFor _ _ _ _ => Some "async for"
  | While _ _ _ => Some "while"
  | Operator Is => Some "is" | Operator IsNot => Some "is not"
  | Operator In => Some "in" | Operator NotIn => Some "not in"
  | Pass => Some "pass" | Return _ => Some "return" | Yield _ => Some "yield"
  | Await _ => Some "await" | Break => Some "break"
  | Continue => Some "continue" | Delete _ => Some "del"
  | Global _ => Some "global" | Nonlocal _ => Some "nonlocal"
  | _ => None
  end.

(** ** Python values and exceptions *)

(** The exceptions the package raises or provokes: [IndexError] from
    [pop] on the empty stack, [AttributeError] from a missing attribute,
    [TypeError] from [join] or [extend] on a value of the wrong type,
    [ValueError] raised by the package itself, [NameError] from a name that
    is unbound at run time. *)
Inductive exn : Type :=
| IndexError | AttributeError | TypeError | ValueError | NameError.

Inductive result (A : Type) : Type :=
| Ok (a : A)
| Raised (e : exn).
Arguments Ok {A} a.
Arguments Raised {A} e.

Definition result_bind {A B} (r : result A) (k : A -> result B) : result B :=
  match r with
  | Ok a => k a
  | Raised e => Raised e
  end.

Notation "'let?' x ':=' r 'in' k" := (result_bind r (fun x => k))
  (at level 10, x name, r at level 100, k at level 200).

(** [[f(x) for x in xs]]: the calls run in list order and the first
    exception ends the loop. *)
Fixpoint map_result {A B} (f : A -> result B) (xs : list A) : result (list B) :=
  match xs with
  | [] => Ok []
  | x :: rest =>
      let? y := f x in
      let? ys := map_result f rest in
      Ok (y :: ys)
  end.

(** A rendering function returns a [str] or, on two paths of the source,
    [None]. *)
Definition str_or_none : Type := option string.

(** An f-string field [{v}]: [None] prints as the text None. *)
Definition fmt (v : str_or_none) : string :=
  match v with
  | Some s => s
  | None => "None"
  end.

Fixpoint all_str (parts : list str_or_none) : option (list string) :=
  match parts with
  | [] => Some []
  | Some s :: rest => option_map (cons s) (all_str rest)
  | None :: _ => None
  end.

(** [sep.join(parts)]: a [TypeError] when an item is not a [str]. *)
Definition str_join (sep : string) (parts : list str_or_none) : result string :=
  match all_str parts with
  | Some strs => Ok (String.concat sep strs)
  | None => Raised TypeError
  end.

(** [s * n] on a [str]: the empty string when [n <= 0]. *)
Fixpoint repeat_string (s : string) (n : nat) : string :=
  match n with
  | O => ""
  | S n' => s ++ repeat_string s n'
  end.

Definition str_mul (s : string) (n : Z) : string := repeat_string s (Z.to_nat n).

(** Truth value of a [str] and of a [str | None]. *)
Definition str_truthy (s : string) : bool :=
  match s with
  | EmptyString => false
  | String _ _ => true
  end.

Definition opt_str_truthy (s : option string) : bool :=
  match s with
  | Some s' => str_truthy s'
  | None => false
  end.

(** Truth value of a list and of a [T | None] holding a node (a dataclass
    instance defines neither [__bool__] nor [__len__], so it is true). *)
Definition list_truthy {A} (l : list A) : bool :=
  match l with
  | [] => false
  | _ :: _ => true
  end.

Definition node_truthy (n : option node) : bool :=
  match n with
  | Some _ => true
  | None => false
  end.

(** [str(i)] on an [int]. *)
Definition str_of_int (i : Z) : string := NilZero.string_of_int (Z.to_int i).

Definition str_of_bool (b : bool) : string := if b then "True" else "False".

(** ** Builder ([pycraft.core.builder]) *)

(** [isinstance(node, BodyNode)]: [BodyNode] is a runtime-checkable protocol
    with the one member [body], so the test is the presence of a [body]
    attribute.  Most classes that have one hold a list there; [Lambda] and
    [IfExp] hold an expression. *)
Inductive body_attr : Type :=
| BodyList (stmts : list node)
| BodyOther (e : option node).

Definition get_body (nd : node) : option body_attr :=
  match nd with
  | FunctionDef _ _ body _ _ _ | AsyncFunctionDef _ _ body _ _ _
  | ClassDef _ _ _ body _
  | If _ body _ | Elif _ body | Else body | MatchCase _ _ body
  | For _ _ body _ | AsyncFor _ _ body _ | While _ body _
  | Try body _ _ _ | ExceptHandler _ _ body | Finally body
  | With _ body | Module body => Some (BodyList body)
  | Lambda _ body | IfExp _ body _ => Some (BodyOther body)
  | _ => None
  end.

(** The node after its [body] list has been mutated into [stmts]. *)
Definition set_body (nd : node) (stmts : list node) : node :=
  match nd with
  | FunctionDef name args _ returns decorator_list type_params =>
      FunctionDef name args stmts returns decorator_list type_params
  | AsyncFunctionDef name args _ returns decorator_list type_params =>
      AsyncFunctionDef name args stmts returns decorator_list type_params
  | ClassDef name bases keywords _ decorators =>
      ClassDef name bases keywords stmts decorators
  | If test _ or_else => If test stmts or_else
  | Elif test _ => Elif test stmts
  | Else _ => Else stmts
  | MatchCase pattern guard _ => MatchCase pattern guard stmts
  | For target iter _ or_else => For target iter stmts or_else
  | AsyncFor target iter _ or_else => AsyncFor target iter stmts or_else
  | While test _ or_else => While test stmts or_else
  | Try _ handlers or_else finalbody => Try stmts handlers or_else finalbody
  | ExceptHandler type name _ => ExceptHandler type name stmts
  | Finally _ => Finally stmts
  | With items _ => With items stmts
  | Module _ => Module stmts
  | _ => nd
  end.

(** What the stack holds: a node pushed by [_push_node], or a
    [FinallyBuilder], which pushes itself and exposes its [temp_body] as
    [body]. *)
Inductive frame : Type :=
| FNode (nd : node)
| FFinally (temp_body : list node).

(** The builder object.  [_stack] is kept with its top (the last element of
    the Python list) at the head. *)
Record Builder : Type := {
  root_nodes : list node;
  _stack : list frame
}.

(** [Builder.__init__] *)
Definition Builder_init : Builder := {| root_nodes := []; _stack := [] |}.

(** Outcomes of a builder operation.  [OutOfModel] marks the two situations
    in which an exit handler pops an entry of the other sort than the one
    its own builder pushed (a node builder popping a [FinallyBuilder], which
    would then sit in a node list, or the reverse); the scoped use of the
    builders never reaches them. *)
Inductive outcome (A : Type) : Type :=
| Done (a : A)
| Throws (e : exn)
| OutOfModel.
Arguments Done {A} a.
Arguments Throws {A} e.
Arguments OutOfModel {A}.

Definition outcome_bind {A B} (o : outcome A) (k : A -> outcome B) : outcome B :=
  match o with
  | Done a => k a
  | Throws e => Throws e
  | OutOfModel => OutOfModel
  end.

Notation "'let!' x ':=' o 'in' k" := (outcome_bind o (fun x => k))
  (at level 10, x name, o at level 100, k at level 200).

(** [self._get_current_body().append(nd)], the one use the package makes
    of [_get_current_body]: the list is the [body] of the stack top when the
    top has that attribute, [root_nodes] otherwise; a [body] that is not a
    list has no [append]. *)
Definition current_body_append (nd : node) (b : Builder) : outcome Builder :=
  match _stack b with
  | FNode parent :: rest =>
      match get_body parent with
      | Some (BodyList stmts) =>
          Done {| root_nodes := root_nodes b;
                  _stack := FNode (set_body parent (stmts +++ [nd])) :: rest |}
      | Some (BodyOther _) => Throws AttributeError
      | None =>
          Done {| root_nodes := root_nodes b +++ [nd]; _stack := _stack b |}
      end
  | FFinally temp_body :: rest =>
      Done {| root_nodes := root_nodes b;
              _stack := FFinally (temp_body +++ [nd]) :: rest |}
  | [] => Done {| root_nodes := root_nodes b +++ [nd]; _stack := [] |}
  end.

(** [self.root_nodes.append(nd)] *)
Definition root_append (nd : node) (b : Builder) : Builder :=
  {| root_nodes := root_nodes b +++ [nd]; _stack := _stack b |}.

(** [add_node] *)
Definition add_node (nd : node) (b : Builder) : outcome Builder :=
  current_body_append nd b.

(** [_push_node] *)
Definition _push_node (nd : node) (b : Builder) : Builder :=
  {| root_nodes := root_nodes b; _stack := FNode nd :: _stack b |}.

(** [self._stack.pop()]: an [IndexError] on the empty stack. *)
Definition stack_pop (b : Builder) : outcome (frame * Builder) :=
  match _stack b with
  | [] => Throws IndexError
  | top :: rest => Done (top, {| root_nodes := root_nodes b; _stack := rest |})
  end.

(** The placeholder step of [_pop_node]:
    [isinstance(node, BodyNode) and isinstance(node.body, list)], then
    [if not node.body: node.body.append(Pass())]. *)
Definition fill_list_body (nd : node) : node :=
  match get_body nd with
  | Some (BodyList []) => set_body nd [Pass]
  | _ => nd
  end.

(** The placeholder step of the clause builders:
    [if isinstance(node, BodyNode) and not node.body:
       node.body.append(Pass())], without the list test. *)
Definition fill_body (nd : node) : outcome node :=
  match get_body nd with
  | Some (BodyList []) => Done (set_body nd [Pass])
  | Some (BodyOther None) => Throws AttributeError
  | _ => Done nd
  end.

(** [_pop_node] *)
Definition _pop_node (b : Builder) : outcome Builder :=
  let! popped := stack_pop b in
  match popped with
  | (FNode nd, b') => current_body_append (fill_list_body nd) b'
  | (FFinally _, _) => OutOfModel
  end.

(** [_ensure_pass_in_empty_bodies] and [Builder.__exit__] *)
Definition _ensure_pass_in_empty_bodies (b : Builder) : Builder :=
  {| root_nodes := map fill_list_body (root_nodes b); _stack := _stack b |}.

Definition Builder_exit (b : Builder) : Builder :=
  _ensure_pass_in_empty_bodies b.

(** The convenience helpers. *)
Definition import_from (module : string) (names : list string) (level : Z)
  (b : Builder) : outcome Builder :=
  add_node (ImportFrom module (map (fun nm => Alias nm None) names) (Some level)) b.

Definition add_import (modules : list string) (b : Builder) : outcome Builder :=
  add_node (Import (map (fun m => Alias m None) modules)) b.

Definition add_comment (text : string) (b : Builder) : outcome Builder :=
  add_node (Comment text) b.

(** ** The scoped builders ([pycraft.builder]) *)

(** [FunctionDefBuilder] takes [returns] as a [str] or as a node, and
    [decorators_list] as [None], a list, or anything else. *)
Inductive returns_arg : Type :=
| ReturnsStr (s : string)
| ReturnsNode (nd : node).

Inductive decorators_arg : Type :=
| DecoratorsNone
| DecoratorsList (l : list node)
| DecoratorsNotAList.

(** One constructor per context-manager class, with the arguments of its
    [__init__]. *)
Inductive scoped : Type :=
| IfBuilder (test : node)
| ElifBuilder (test : node)
| ElseBuilder
| MatchBuilder (subject : node)
| CaseBuilder (pattern : node) (guard : option node)
| ForBuilder (target : node) (iter : node) (is_async : bool)
| WhileBuilder (test : node)
| TryBuilder
| ExceptBuilder (exc_type : option node) (name : option string)
| FinallyBuilder
| WithBuilder (context_expr : node) (optional_vars : option node)
| ClassDefBuilder (name : string) (bases : option (list node))
| FunctionDefBuilder (name : string) (args : option node)
                     (returns : option returns_arg)
                     (decorators_list : decorators_arg) (is_async : bool)
                     (type_params : list node).

(** The convenience functions that fix an argument. *)
Definition for_ (target iter : node) : scoped := ForBuilder target iter false.
Definition async_for (target iter : node) : scoped := ForBuilder target iter true.
Definition func (name : string) (args : option node) (returns : option returns_arg)
  (decorators_list : decorators_arg) (type_params : list node) : scoped :=
  FunctionDefBuilder name args returns decorators_list false type_params.
Definition async_func (name : string) (args : option node)
  (returns : option returns_arg) (type_params : list node) : scoped :=
  FunctionDefBuilder name args returns DecoratorsNone true type_params.

(** [__init__]: the entry each builder will push.  Only
    [FunctionDefBuilder] can fail, on a [decorators_list] that is not a
    list. *)
Definition scoped_init (c : scoped) : outcome frame :=
  match c with
  | IfBuilder test => Done (FNode (If (Some test) [] []))
  | ElifBuilder test => Done (FNode (Elif (Some test) []))
  | ElseBuilder => Done (FNode (Else []))
  | MatchBuilder subject => Done (FNode (Match (Some subject) []))
  | CaseBuilder pattern guard => Done (FNode (MatchCase (Some pattern) guard []))
  | ForBuilder target iter is_async =>
      Done (FNode (if is_async
                   then AsyncFor (Some target) (Some iter) [] []
                   else For (Some target) (Some iter) [] []))
  | WhileBuilder test => Done (FNode (While (Some test) [] []))
  | TryBuilder => Done (FNode (Try [] [] [] []))
  | ExceptBuilder exc_type name => Done (FNode (ExceptHandler exc_type name []))
  | FinallyBuilder => Done (FFinally [])
  | WithBuilder context_expr optional_vars =>
      Done (FNode (With [WithItem (Some context_expr) optional_vars] []))
  | ClassDefBuilder name bases =>
      Done (FNode (ClassDef name (match bases with Some l => l | None => [] end)
                     [] [] []))
  | FunctionDefBuilder name args returns decorators_list is_async type_params =>
      let args :=
        match args with
        | Some a => a
        | None => Arguments [] None [] [] None [] []
        end in
      let returns_node :=
        match returns with
        | Some (ReturnsStr s) => if str_truthy s then Some (Name s) else None
        | Some (ReturnsNode nd) => Some nd
        | None => None
        end in
      match decorators_list with
      | DecoratorsNotAList => Throws ValueError
      | _ =>
          let decorators :=
            match decorators_list with
            | DecoratorsList l => l
            | _ => []
            end in
          Done (FNode ((if is_async then AsyncFunctionDef else FunctionDef)
                         name (Some args) [] returns_node decorators type_params))
      end
  end.

(** [__enter__]: [self.builder._push_node(self.node)], and for the cleanup
    block [self.builder._stack.append(self)]. *)
Definition scoped_enter (c : scoped) (b : Builder) : outcome Builder :=
  let! f := scoped_init c in
  match f with
  | FNode nd => Done (_push_node nd b)
  | FFinally _ =>
      Done {| root_nodes := root_nodes b; _stack := f :: _stack b |}
  end.

(** [isinstance(parent, (If, While, Try))], giving the node back. *)
Definition as_If_While_Try (f : frame) : option node :=
  match f with
  | FNode (If _ _ _ as p) | FNode (While _ _ _ as p)
  | FNode (Try _ _ _ _ as p) => Some p
  | _ => None
  end.

(** [parent.or_else.append(nd)] and [parent.or_else.extend(nds)] on a
    parent that is an [If], a [While] or a [Try]. *)
Definition or_else_extend (parent : node) (nds : list node) : node :=
  match parent with
  | If test body or_else => If test body (or_else +++ nds)
  | While test body or_else => While test body (or_else +++ nds)
  | Try body handlers or_else finalbody =>
      Try body handlers (or_else +++ nds) finalbody
  | _ => parent
  end.

(** Replace the stack top, the object that the handler has just mutated. *)
Definition set_top (f : frame) (b : Builder) : Builder :=
  {| root_nodes := root_nodes b; _stack := f :: tl (_stack b) |}.

(** [ElifBuilder.__exit__] *)
Definition ElifBuilder_exit (b : Builder) : outcome Builder :=
  let! popped := stack_pop b in
  match popped with
  | (FFinally _, _) => OutOfModel
  | (FNode nd, b') =>
      let! nd := fill_body nd in
      match _stack b' with
      | parent :: _ =>
          match as_If_While_Try parent with
          | Some p => Done (set_top (FNode (or_else_extend p [nd])) b')
          | None => current_body_append nd b'
          end
      | [] => Done (root_append nd b')
      end
  end.

(** [ElseBuilder.__exit__]: the parent receives the statements of the
    popped node's [body], not the node; [extend] raises on a [body] that is
    not a list. *)
Definition ElseBuilder_exit (b : Builder) : outcome Builder :=
  let! popped := stack_pop b in
  match popped with
  | (FFinally _, _) => OutOfModel
  | (FNode nd, b') =>
      let! nd := fill_body nd in
      match _stack b' with
      | parent :: _ =>
          match as_If_While_Try parent, get_body nd with
          | Some p, Some (BodyList stmts) =>
              Done (set_top (FNode (or_else_extend p stmts)) b')
          | Some p, Some (BodyOther _) => Throws TypeError
          | _, _ => current_body_append nd b'
          end
      | [] => Done (root_append nd b')
      end
  end.

(** [CaseBuilder.__exit__] *)
Definition CaseBuilder_exit (b : Builder) : outcome Builder :=
  let! popped := stack_pop b in
  match popped with
  | (FFinally _, _) => OutOfModel
  | (FNode nd, b') =>
      let! nd := fill_body nd in
      match _stack b' with
      | FNode (Match subject cases) :: _ =>
          Done (set_top (FNode (Match subject (cases +++ [nd]))) b')
      | _ => Done b'
      end
  end.

(** [ExceptBuilder.__exit__] *)
Definition ExceptBuilder_exit (b : Builder) : outcome Builder :=
  let! popped := stack_pop b in
  match popped with
  | (FFinally _, _) => OutOfModel
  | (FNode nd, b') =>
      let! nd := fill_body nd in
      match _stack b' with
      | FNode (Try body handlers or_else finalbody) :: _ =>
          Done (set_top (FNode (Try body (handlers +++ [nd]) or_else finalbody)) b')
      | _ :: _ => current_body_append nd b'
      | [] => Done b'
      end
  end.

(** [FinallyBuilder.__exit__] *)
Definition FinallyBuilder_exit (b : Builder) : outcome Builder :=
  let! popped := stack_pop b in
  match popped with
  | (FNode _, _) => OutOfModel
  | (FFinally temp_body, b') =>
      let temp_body :=
        if list_truthy temp_body then temp_body else [Pass] in
      match _stack b' with
      | FNode (Try body handlers or_else finalbody) :: _ =>
          Done (set_top (FNode (Try body handlers or_else
                                  (finalbody +++ temp_body))) b')
      | _ => Done b'
      end
  end.

(** [__exit__] of each class; the builders not listed above call
    [_pop_node]. *)
Definition scoped_exit (c : scoped) (b : Builder) : outcome Builder :=
  match c with
  | ElifBuilder _ => ElifBuilder_exit b
  | ElseBuilder => ElseBuilder_exit b
  | CaseBuilder _ _ => CaseBuilder_exit b
  | ExceptBuilder _ _ => ExceptBuilder_exit b
  | FinallyBuilder => FinallyBuilder_exit b
  | _ => _pop_node b
  end.

(** A use of the builder: a sequence of calls, each [with] statement
    contributing its [Enter] and, after its block, its [Exit].  [run] stops
    at the first call that does not return normally. *)
Inductive op : Type :=
| AddNode (nd : node)
| Enter (c : scoped)
| Exit (c : scoped).

Definition step (o : op) (b : Builder) : outcome Builder :=
  match o with
  | AddNode nd => add_node nd b
  | Enter c => scoped_enter c b
  | Exit c => scoped_exit c b
  end.

Fixpoint run (ops : list op) (b : Builder) : outcome Builder :=
  match ops with
  | [] => Done b
  | o :: rest =>
      let! b' := step o b in
      run rest b'
  end.

(** [with c: block] *)
Definition with_ (c : scoped) (block : list op) : list op :=
  Enter c :: block +++ [Exit c].

(** ** Renderer ([pycraft.generator.base]): the generator object *)

(** Two functions of the Python runtime stay abstract: [repr()] of a [str]
    (quoting and escaping of a textual constant) and [str()] of a node, the
    [__repr__] that [@dataclass] generates for every node class. *)
Class PyRuntime : Type := {
  str_repr : string -> string;
  node_str : node -> string
}.

(** The generator object: [indent_char] is set once, [indent_level] is the
    counter that [_generate_node] increments around a body. *)
Record CodeGenerator : Type := {
  indent_char : string;
  indent_level : Z
}.

Definition tab : string := String (ascii_of_nat 9) "".
Definition nl : string := String (ascii_of_nat 10) "".

(** [CodeGenerator.__init__]; the default [indent_char] is [tab]. *)
Definition CodeGenerator_init (indent_char : string) : CodeGenerator :=
  {| indent_char := indent_char; indent_level := 0 |}.

(** Computations of the renderer: they read and update the generator and
    may raise; the generator keeps the value it had when the exception
    left. *)
Definition M (A : Type) : Type := CodeGenerator -> result A * CodeGenerator.

Definition ret {A} (a : A) : M A := fun g => (Ok a, g).

Definition bind {A B} (m : M A) (k : A -> M B) : M B :=
  fun g =>
    match m g with
    | (Ok a, g') => k a g'
    | (Raised e, g') => (Raised e, g')
    end.

Definition lift {A} (r : result A) : M A := fun g => (r, g).

Notation "'let*' x ':=' m 'in' k" := (bind m (fun x => k))
  (at level 10, x name, m at level 100, k at level 200).

(** [self.indent_char * self.indent_level] *)
Definition current_indent : M string :=
  fun g => (Ok (str_mul (indent_char g) (indent_level g)), g).

(** [self.indent_level += 1] and [self.indent_level -= 1] *)
Definition indent_incr : M unit :=
  fun g => (Ok tt, {| indent_char := indent_char g;
                      indent_level := indent_level g + 1 |}).

Definition indent_decr : M unit :=
  fun g => (Ok tt, {| indent_char := indent_char g;
                      indent_level := indent_level g - 1 |}).

(** ** Renderer ([pycraft.generator.base]): expressions *)

Section Renderer.

Context {py : PyRuntime}.

(** [_generate_comparison_op]; its last line is
    [getattr(op, "__kw__", str(op))], which finds the class attribute on
    every node and so yields [None] for a class that names no keyword. *)
Definition _generate_comparison_op (op : node) : str_or_none :=
  match op with
  | Operator In => Some "in"
  | Operator NotIn => Some "not in"
  | Operator Is => Some "is"
  | Operator IsNot => Some "is not"
  | Name id => Some id
  | _ => kw op
  end.

(** [getattr(expr.op, "__kw__", str(expr.op))] on a [T | None] field:
    [None] has no such attribute and gives the default, [str(None)]. *)
Definition getattr_kw (op : option node) : str_or_none :=
  match op with
  | Some o => kw o
  | None => Some "None"
  end.

Section OpenRecursion.

(** The helpers of [_generate_expr] call it back; they are written over the
    callee [gen] and closed by the fixpoint below. *)
Variable gen : node -> result str_or_none.

Definition safe_with (expr : option node) : result str_or_none :=
  match expr with
  | None => Ok (Some "")
  | Some e => gen e
  end.

(** [_generate_arguments] *)
Definition arguments_with (args : node) : result string :=
  match args with
  | Arguments args _ kwonlyargs _ _ _ _ =>
      let? parts := map_result gen args in
      let? parts :=
        if list_truthy kwonlyargs then
          let star := if list_truthy parts then [] else [Some "*"] in
          let? kwonly := map_result gen kwonlyargs in
          Ok (parts +++ star +++ kwonly)
        else Ok parts in
      str_join ", " parts
  | _ => Ok ""
  end.

(** [_generate_comprehension].  It reads [comp.target], [comp.iter],
    [comp.is_async] and [comp.ifs] in this order without a type test: on a
    node of another class the first missing attribute raises, after the
    attributes before it have been rendered. *)
Definition comprehension_with (comp : node) : result string :=
  match comp with
  | Comprehension target iter ifs is_async =>
      let? target_str := safe_with target in
      let? iter_str := safe_with iter in
      let prefix := if (is_async =? 0)%Z then "for" else "async for" in
      let? if_parts :=
        map_result (fun if_clause =>
                      let? if_str := gen if_clause in
                      Ok ("if " ++ fmt if_str)) ifs in
      Ok (String.concat " "
            ((prefix ++ " " ++ fmt target_str ++ " in " ++ fmt iter_str)
               :: if_parts))
  | For target iter _ _ | AsyncFor target iter _ _ =>
      let? _ := safe_with target in
      let? _ := safe_with iter in
      Raised AttributeError
  | AugAssign target _ _ _ =>
      let? _ := safe_with target in
      Raised AttributeError
  | _ => Raised AttributeError
  end.

(** The loop of the [Compare] rule over [zip(ops, comparators)]. *)
Fixpoint compare_parts_with (comparators ops : list node)
  : result (list str_or_none) :=
  match comparators, ops with
  | comparator :: comparators', op :: ops' =>
      let op_str := _generate_comparison_op op in
      let? comp_str := gen comparator in
      let? parts := compare_parts_with comparators' ops' in
      Ok (Some (fmt op_str ++ " " ++ fmt comp_str) :: parts)
  | _, _ => Ok []
  end.

(** The loop of the [Call] rule over [expr.keywords]: only [Keyword] nodes
    contribute. *)
Fixpoint call_keywords_with (keywords : list node) : result (list str_or_none) :=
  match keywords with
  | [] => Ok []
  | Keyword arg value :: rest =>
      let? value_str := safe_with value in
      let? strs := call_keywords_with rest in
      Ok (Some (fmt arg ++ "=" ++ fmt value_str) :: strs)
  | _ :: rest => call_keywords_with rest
  end.

End OpenRecursion.

(** [_generate_expr] *)
Fixpoint _generate_expr (expr : node) : result str_or_none :=
  match expr with
  | Name id => Ok (Some id)
  | Constant value kind =>
      match value with
      | VStr s =>
          let prefix := if opt_str_truthy kind then fmt kind else "" in
          Ok (Some (prefix ++ str_repr s))
      | VBool b => Ok (Some (str_of_bool b))
      | VNone => Ok (Some "None")
      | VInt i => Ok (Some (str_of_int i))
      | VFloat text => Ok (Some text)
      end
  | Alias name asname =>
      if opt_str_truthy asname
      then Ok (Some (name ++ " as " ++ fmt asname))
      else Ok (Some name)
  | Call func args keywords =>
      let? func_str := safe_with _generate_expr func in
      let? args_list := map_result _generate_expr args in
      let? kw_strs := call_keywords_with _generate_expr keywords in
      let? joined := str_join ", " (args_list +++ kw_strs) in
      Ok (Some (fmt func_str ++ "(" ++ joined ++ ")"))
  | Attribute value attr =>
      let? value_str := safe_with _generate_expr value in
      Ok (Some (fmt value_str ++ "." ++ attr))
  | Subscript value slice =>
      let? value_str := safe_with _generate_expr value in
      let? slice_str := safe_with _generate_expr slice in
      Ok (Some (fmt value_str ++ "[" ++ fmt slice_str ++ "]"))
  | Compare left_ ops comparators =>
      let? left_str := safe_with _generate_expr left_ in
      let? parts := compare_parts_with _generate_expr comparators ops in
      let? joined := str_join " " (left_str :: parts) in
      Ok (Some joined)
  | Lambda _ _ =>
      (* [if isinstance(expr.args, Arguments)]: the module imports
         [Arguments] under [TYPE_CHECKING] only and the function does not
         import it, so the name is unbound when the test is evaluated,
         before any field of the node is rendered *)
      Raised NameError
  | Await value =>
      let? value_str := safe_with _generate_expr value in
      Ok (Some ("await " ++ fmt value_str))
  | UnaryOp op operand =>
      let op_str := getattr_kw op in
      let? operand_str := safe_with _generate_expr operand in
      Ok (Some (fmt op_str ++ " " ++ fmt operand_str))
  | Operator And | Operator Or | Operator Not => Ok (kw expr)
  | Arg arg annotation _ =>
      match annotation with
      | Some _ =>
          let? annotation_str := safe_with _generate_expr annotation in
          Ok (Some (arg ++ ": " ++ fmt annotation_str))
      | None => Ok (Some arg)
      end
  | Starred value =>
      let? value_str := safe_with _generate_expr value in
      Ok (Some ("*" ++ fmt value_str))
  | ListComp elt generators =>
      let? elt_str := safe_with _generate_expr elt in
      let? gens := map_result (comprehension_with _generate_expr) generators in
      Ok (Some ("[" ++ fmt elt_str ++ " " ++ String.concat " " gens ++ "]"))
  | SetComp elt generators =>
      let? elt_str := safe_with _generate_expr elt in
      let? gens := map_result (comprehension_with _generate_expr) generators in
      Ok (Some ("{" ++ fmt elt_str ++ " " ++ String.concat " " gens ++ "}"))
  | DictComp key value generators =>
      let? key_str := safe_with _generate_expr key in
      let? value_str := safe_with _generate_expr value in
      let? gens := map_result (comprehension_with _generate_expr) generators in
      Ok (Some ("{" ++ fmt key_str ++ ": " ++ fmt value_str ++ " "
                  ++ String.concat " " gens ++ "}"))
  | GeneratorExp elt generators =>
      let? elt_str := safe_with _generate_expr elt in
      let? gens := map_result (comprehension_with _generate_expr) generators in
      Ok (Some ("(" ++ fmt elt_str ++ " " ++ String.concat " " gens ++ ")"))
  | TypeParam name bound =>
      match bound with
      | Some _ =>
          let? bound_str := safe_with _generate_expr bound in
          Ok (Some (name ++ ": " ++ fmt bound_str))
      | None => Ok (Some name)
      end
  | _ => Ok (Some (node_str expr))
  end.

Definition _safe_generate_expr : option node -> result str_or_none :=
  safe_with _generate_expr.

Definition _generate_arguments : node -> result string :=
  arguments_with _generate_expr.

Definition _generate_comprehension : node -> result string :=
  comprehension_with _generate_expr.

(** [_safe_generate_with_item], with [_generate_with_item] in its first
    branch; without an [as] clause the rendered context goes back as it
    is. *)
Definition _safe_generate_with_item (item : node) : result str_or_none :=
  match item with
  | WithItem context_expr optional_vars =>
      let? context_str := _safe_generate_expr context_expr in
      match optional_vars with
      | Some v =>
          let? vars_str := _generate_expr v in
          Ok (Some (fmt context_str ++ " as " ++ fmt vars_str))
      | None => Ok context_str
      end
  | _ => Ok (Some (node_str item))
  end.

(** [", ".join(self._generate_expr(x) for x in xs)] *)
Definition join_exprs (sep : string) (xs : list node) : result string :=
  let? strs := map_result _generate_expr xs in
  str_join sep strs.

(** ** Renderer: statements *)

Section StatementLoops.

Variable gen : node -> M string.

(** [for x in xs: lines.append(self._generate_node(x))] *)
Fixpoint map_M (xs : list node) : M (list string) :=
  match xs with
  | [] => ret []
  | x :: rest =>
      let* code := gen x in
      let* codes := map_M rest in
      ret (code :: codes)
  end.

(** The loop of [_generate_nodes]: every element of the model is a
    [BaseNode]; an empty rendering is not appended. *)
Fixpoint nodes_lines_with (nodes : list node) : M (list string) :=
  match nodes with
  | [] => ret []
  | nd :: rest =>
      let* code := gen nd in
      let* lines := nodes_lines_with rest in
      ret (if str_truthy code then code :: lines else lines)
  end.

Definition generate_nodes_with (nodes : list node) : M string :=
  let* lines := nodes_lines_with nodes in
  ret (String.concat nl lines).

(** [self.indent_level += 1; code = self._generate_nodes(body);
     self.indent_level -= 1] *)
Definition block_with (body : list node) : M string :=
  let* _ := indent_incr in
  let* code := generate_nodes_with body in
  let* _ := indent_decr in
  ret code.

(** The [else:] clause of a loop or of [try], and the [finally:] clause:
    rendered only when the list is not empty. *)
Definition clause_with (indent keyword : string) (stmts : list node)
  : M (list string) :=
  if list_truthy stmts then
    let* code := block_with stmts in
    ret [indent ++ keyword; code]
  else ret [].

End StatementLoops.

(** The decorator lines of a class or function definition. *)
Definition decorator_lines (indent : string) (decorators : list node)
  : result (list string) :=
  map_result (fun decorator =>
                let? decorator_str := _generate_expr decorator in
                Ok (indent ++ "@" ++ fmt decorator_str)) decorators.

(** The header line of [FunctionDef] and [AsyncFunctionDef]. *)
Definition def_line (indent prefix name : string) (args returns : option node)
  (type_params : list node) : result string :=
  let? args_str :=
    match args with
    | Some a => _generate_arguments a
    | None => Ok ""
    end in
  let? returns_str :=
    if node_truthy returns then
      let? r := _safe_generate_expr returns in Ok (" -> " ++ fmt r)
    else Ok "" in
  let? type_params_str :=
    if list_truthy type_params then
      let? joined := join_exprs ", " type_params in
      Ok ("[" ++ joined ++ "]")
    else Ok "" in
  Ok (indent ++ prefix ++ " " ++ name ++ type_params_str
        ++ "(" ++ args_str ++ ")" ++ returns_str ++ ":").

(** The header line of [For] and [AsyncFor]. *)
Definition for_line (indent keyword : string) (target iter : option node)
  : result string :=
  let? target_str := _safe_generate_expr target in
  let? iter_str := _safe_generate_expr iter in
  Ok (indent ++ keyword ++ " " ++ fmt target_str ++ " in " ++ fmt iter_str
        ++ ":").

(** The header line of [ExceptHandler]. *)
Definition except_line (indent : string) (type : option node)
  (name : option string) : result string :=
  let? type_str :=
    match type with
    | Some _ =>
        let? t := _safe_generate_expr type in
        Ok (if opt_str_truthy name then fmt t ++ " as " ++ fmt name
            else fmt t)
    | None =>
        Ok (if opt_str_truthy name then " " ++ fmt name else "")
    end in
  Ok (indent ++ "except"
        ++ (if str_truthy type_str then " " ++ type_str else "") ++ ":").

(** [_generate_node] *)
Fixpoint _generate_node (nd : node) : M string :=
  let* indent := current_indent in
  match nd with
  | Import names =>
      let* names_str := lift (join_exprs ", " names) in
      ret (indent ++ "import " ++ names_str)
  | ImportFrom module names level =>
      let level_str := str_mul "." (match level with Some l => l | None => 0%Z end) in
      let* names_str := lift (join_exprs ", " names) in
      ret (indent ++ "from " ++ level_str ++ module ++ " import " ++ names_str)
  | ImportGroup imports => generate_nodes_with _generate_node imports
  | ClassDef name bases _ body decorators =>
      let* decos := lift (decorator_lines indent decorators) in
      let* bases_str :=
        lift (if list_truthy bases then
                let? joined := join_exprs ", " bases in
                Ok ("(" ++ joined ++ ")")
              else Ok "") in
      let lines := decos +++ [indent ++ "class " ++ name ++ bases_str ++ ":"] in
      let* body_code := block_with _generate_node body in
      ret (String.concat nl (lines +++ [body_code]))
  | FunctionDef name args body returns decorator_list type_params =>
      let* decos := lift (decorator_lines indent decorator_list) in
      let* header := lift (def_line indent "def" name args returns type_params) in
      let* body_code := block_with _generate_node body in
      ret (String.concat nl (decos +++ [header; body_code]))
  | AsyncFunctionDef name args body returns decorator_list type_params =>
      let* decos := lift (decorator_lines indent decorator_list) in
      let* header :=
        lift (def_line indent "async def" name args returns type_params) in
      let* body_code := block_with _generate_node body in
      ret (String.concat nl (decos +++ [header; body_code]))
  | If test body or_else =>
      let* test_str := lift (_safe_generate_expr test) in
      let lines := [indent ++ "if " ++ fmt test_str ++ ":"] in
      let* body_code := block_with _generate_node body in
      let* chain := map_M _generate_node or_else in
      ret (String.concat nl (lines +++ [body_code] +++ chain))
  | Elif test body =>
      let* test_str := lift (_safe_generate_expr test) in
      let lines := [indent ++ "elif " ++ fmt test_str ++ ":"] in
      let* body_code := block_with _generate_node body in
      ret (String.concat nl (lines +++ [body_code]))
  | Else body =>
      let lines := [indent ++ "else:"] in
      let* body_code := block_with _generate_node body in
      ret (String.concat nl (lines +++ [body_code]))
  | For target iter body or_else =>
      let* header := lift (for_line indent "for" target iter) in
      let* body_code := block_with _generate_node body in
      let* else_lines := clause_with _generate_node indent "else:" or_else in
      ret (String.concat nl ([header; body_code] +++ else_lines))
  | AsyncFor target iter body or_else =>
      let* header := lift (for_line indent "async for" target iter) in
      let* body_code := block_with _generate_node body in
      let* else_lines := clause_with _generate_node indent "else:" or_else in
      ret (String.concat nl ([header; body_code] +++ else_lines))
  | While test body or_else =>
      let* test_str := lift (_safe_generate_expr test) in
      let lines := [indent ++ "while " ++ fmt test_str ++ ":"] in
      let* body_code := block_with _generate_node body in
      let* else_lines := clause_with _generate_node indent "else:" or_else in
      ret (String.concat nl (lines +++ [body_code] +++ else_lines))
  | With items body =>
      let* items_str :=
        lift (let? strs := map_result _safe_generate_with_item items in
              str_join ", " strs) in
      let lines := [indent ++ "with " ++ items_str ++ ":"] in
      let* body_code := block_with _generate_node body in
      ret (String.concat nl (lines +++ [body_code]))
  | Try body handlers or_else finalbody =>
      let lines := [indent ++ "try:"] in
      let* body_code := block_with _generate_node body in
      let* handler_codes := map_M _generate_node handlers in
      let* else_lines := clause_with _generate_node indent "else:" or_else in
      let* finally_lines :=
        clause_with _generate_node indent "finally:" finalbody in
      ret (String.concat nl
             (lines +++ [body_code] +++ handler_codes +++ else_lines
                +++ finally_lines))
  | Match subject cases =>
      let* subject_str := lift (_safe_generate_expr subject) in
      let lines := [indent ++ "match " ++ fmt subject_str ++ ":"] in
      let* _ := indent_incr in
      let* case_codes := map_M _generate_node cases in
      let* _ := indent_decr in
      ret (String.concat nl (lines +++ case_codes))
  | MatchCase pattern guard body =>
      let* pattern_str := lift (_safe_generate_expr pattern) in
      let* guard_str :=
        lift (if node_truthy guard then
                let? g := _safe_generate_expr guard in Ok (" if " ++ fmt g)
              else Ok "") in
      let lines := [indent ++ "case " ++ fmt pattern_str ++ guard_str ++ ":"] in
      let* body_code := block_with _generate_node body in
      ret (String.concat nl (lines +++ [body_code]))
  | Expr value =>
      let* value_str := lift (_safe_generate_expr value) in
      ret (indent ++ fmt value_str)
  | Assign targets value _ =>
      let* targets_str := lift (join_exprs " = " targets) in
      let* value_str := lift (_safe_generate_expr value) in
      ret (indent ++ targets_str ++ " = " ++ fmt value_str)
  | AugAssign target op value _ =>
      let* target_str := lift (_safe_generate_expr target) in
      let op_str :=
        match op with
        | Some o => _generate_comparison_op o
        | None => Some ""
        end in
      let* value_str := lift (_safe_generate_expr value) in
      ret (indent ++ fmt target_str ++ " " ++ fmt op_str ++ "= "
             ++ fmt value_str)
  | AnnAssign target annotation _ _ value =>
      let* annotation_str := lift (_safe_generate_expr annotation) in
      let* value_str :=
        lift (if node_truthy value then
                let? v := _safe_generate_expr value in Ok (" = " ++ fmt v)
              else Ok "") in
      ret (indent ++ target ++ ": " ++ fmt annotation_str ++ value_str)
  | Return value =>
      if node_truthy value then
        let* value_str := lift (_safe_generate_expr value) in
        ret (indent ++ "return " ++ fmt value_str)
      else ret (indent ++ "return")
  | Yield value =>
      if node_truthy value then
        let* value_str := lift (_safe_generate_expr value) in
        ret (indent ++ "yield " ++ fmt value_str)
      else ret (indent ++ "yield")
  | Await value =>
      let* value_str := lift (_safe_generate_expr value) in
      ret (indent ++ "await " ++ fmt value_str)
  | Delete targets =>
      let* targets_str := lift (join_exprs ", " targets) in
      ret (indent ++ "del " ++ targets_str)
  | Global names => ret (indent ++ "global " ++ String.concat ", " names)
  | Nonlocal names => ret (indent ++ "nonlocal " ++ String.concat ", " names)
  | Assert test msg =>
      let* test_str := lift (_safe_generate_expr test) in
      if node_truthy msg then
        let* msg_str := lift (_safe_generate_expr msg) in
        ret (indent ++ "assert " ++ fmt test_str ++ ", " ++ fmt msg_str)
      else ret (indent ++ "assert " ++ fmt test_str)
  | Raise exc cause =>
      if node_truthy exc then
        let* exc_str := lift (_safe_generate_expr exc) in
        if node_truthy cause then
          let* cause_str := lift (_safe_generate_expr cause) in
          ret (indent ++ "raise " ++ fmt exc_str ++ " from " ++ fmt cause_str)
        else ret (indent ++ "raise " ++ fmt exc_str)
      else ret (indent ++ "raise")
  | Pass => ret (indent ++ "pass")
  | Break => ret (indent ++ "break")
  | Continue => ret (indent ++ "continue")
  | Comment text =>
      if str_truthy text then ret (indent ++ "# " ++ text) else ret ""
  | ExceptHandler type name body =>
      let* header := lift (except_line indent type name) in
      let* body_code := block_with _generate_node body in
      ret (String.concat nl [header; body_code])
  | _ => ret (indent ++ "# Unknown node: " ++ type_name nd)
  end.

(** [_generate_nodes] *)
Definition _generate_nodes : list node -> M string :=
  generate_nodes_with _generate_node.

(** What [generate] does to the outside: [print(code)], and
    [(Path(path) / file_name).write_text(code)], recorded with the directory
    and the file name it was given. *)
Inductive effect : Type :=
| Print (text : string)
| WriteText (path file_name text : string).

(** [generate]; the defaults are [mode = "console"], [file_name = None]
    and [path = "."]. *)
Definition generate (builder : Builder) (mode : string)
  (file_name : option string) (path : string) (g : CodeGenerator)
  : result string * CodeGenerator * list effect :=
  match _generate_nodes (root_nodes builder) g with
  | (Raised e, g') => (Raised e, g', [])
  | (Ok code, g') =>
      if (mode =? "console")%string then (Ok code, g', [Print code])
      else if (mode =? "file")%string then
        match file_name with
        | Some f =>
            if str_truthy f
            then (Ok code, g', [WriteText path f code])
            else (Raised ValueError, g', [])
        | None => (Raised ValueError, g', [])
        end
      else (Ok code, g', [])
  end.

End Renderer.

(** * Vocabulary of the properties *)

(** The body that a builder leaves after the placeholder step. *)
Definition auto_filled (stmts : list node) : list node :=
  if list_truthy stmts then stmts else [Pass].

(** A computation keeps the generator when every normal return leaves it
    as it found it. *)
Definition keeps {A} (m : M A) : Prop :=
  forall g a g', m g = (Ok a, g') -> g' = g.

(** The classes that [_generate_node] has a rule for: those of its
    [isinstance] chain, and [ExceptHandler] in the last branch. *)
Definition has_rule (nd : node) : bool :=
  match nd with
  | Import _ | ImportFrom _ _ _ | ImportGroup _
  | ClassDef _ _ _ _ _ | FunctionDef _ _ _ _ _ _ | AsyncFunctionDef _ _ _ _ _ _
  | If _ _ _ | Elif _ _ | Else _
  | For _ _ _ _ | AsyncFor _ _ _ _ | While _ _ _ | With _ _
  | Try _ _ _ _ | Match _ _ | MatchCase _ _ _
  | Expr _ | Assign _ _ _ | AugAssign _ _ _ _ | AnnAssign _ _ _ _ _
  | Return _ | Yield _ | Await _ | Delete _ | Global _ | Nonlocal _
  | Assert _ _ | Raise _ _ | Pass | Break | Continue | Comment _
  | ExceptHandler _ _ _ => true
  | _ => false
  end.

(** No line break in the text. *)
Fixpoint single_line (s : string) : bool :=
  match s with
  | EmptyString => true
  | String c rest => negb (Ascii.eqb c (ascii_of_nat 10)) && single_line rest
  end.

(** A line at depth [d] under the unit [u]: [d] repetitions of the unit,
    then a text that is not empty; and no line break inside, as long as the
    unit itself has none. *)
Definition line_at (u : string) (d : nat) (line : string) : Prop :=
  (single_line u = true -> single_line line = true)
  /\ exists text, line = repeat_string u d ++ text /\ str_truthy text = true.

(** A header line is visible: it stands on one line and is not empty. *)
Definition visible (h : string) : Prop :=
  single_line h = true /\ str_truthy h = true.

Fixpoint All {A} (P : A -> Prop) (l : list A) : Prop :=
  match l with
  | [] => True
  | x :: rest => P x /\ All P rest
  end.

(** [chunks] and [lines] join to the same text, and one is empty exactly
    when the other is. *)
Definition same_text (chunks lines : list string) : Prop :=
  String.concat nl chunks = String.concat nl lines
  /\ (chunks = [] <-> lines = []).

(** The generator with unit [u] at depth [d]. *)
Definition at_depth (u : string) (d : nat) : CodeGenerator :=
  {| indent_char := u; indent_level := Z.of_nat d |}.

(** Stand-ins for the two runtime functions, for the closed examples
    below: [repr] on a text without quotes or escapes, and a [str] that
    shows the class name only. *)
Definition plain_repr (s : string) : string := "'" ++ s ++ "'".
Definition class_str (nd : node) : string := type_name nd ++ "()".
Definition sample_runtime : PyRuntime :=
  {| str_repr := plain_repr; node_str := class_str |}.

(** The first concrete scenario of the specification: a function [greet]
    with one parameter [name] that returns the parameter. *)
Definition greet : node :=
  FunctionDef "greet"
    (Some (Arguments [Arg "name" None None] None [] [] None [] []))
    [Return (Some (Name "name"))] None [] [].

Section Vocabulary.

Context {py : PyRuntime}.

(** The header of a statement, without indentation: the lines its rule
    builds before it descends into a body (decorator lines and the
    definition line, the keyword line of a compound statement), or the one
    line of a simple statement.  An import group has no line of its own. *)
Definition header_text (nd : node) : result (list string) :=
  match nd with
  | Import names =>
      let? names_str := join_exprs ", " names in
      Ok ["import " ++ names_str]
  | ImportFrom module names level =>
      let level_str := str_mul "." (match level with Some l => l | None => 0%Z end) in
      let? names_str := join_exprs ", " names in
      Ok ["from " ++ level_str ++ module ++ " import " ++ names_str]
  | ImportGroup _ => Ok []
  | ClassDef name bases _ _ decorators =>
      let? decos := decorator_lines "" decorators in
      let? bases_str :=
        if list_truthy bases then
          let? joined := join_exprs ", " bases in
          Ok ("(" ++ joined ++ ")")
        else Ok "" in
      Ok (decos +++ ["class " ++ name ++ bases_str ++ ":"])
  | FunctionDef name args _ returns decorator_list type_params =>
      let? decos := decorator_lines "" decorator_list in
      let? header := def_line "" "def" name args returns type_params in
      Ok (decos +++ [header])
  | AsyncFunctionDef name args _ returns decorator_list type_params =>
      let? decos := decorator_lines "" decorator_list in
      let? header :=
        def_line "" "async def" name args returns type_params in
      Ok (decos +++ [header])
  | If test _ _ =>
      let? test_str := _safe_generate_expr test in
      Ok ["if " ++ fmt test_str ++ ":"]
  | Elif test _ =>
      let? test_str := _safe_generate_expr test in
      Ok ["elif " ++ fmt test_str ++ ":"]
  | Else _ => Ok ["else:"]
  | For target iter _ _ =>
      let? header := for_line "" "for" target iter in Ok [header]
  | AsyncFor target iter _ _ =>
      let? header := for_line "" "async for" target iter in
      Ok [header]
  | While test _ _ =>
      let? test_str := _safe_generate_expr test in
      Ok ["while " ++ fmt test_str ++ ":"]
  | With items _ =>
      let? items_str :=
        (let? strs := map_result (_safe_generate_with_item) items in
         str_join ", " strs) in
      Ok ["with " ++ items_str ++ ":"]
  | Try _ _ _ _ => Ok ["try:"]
  | Match subject _ =>
      let? subject_str := _safe_generate_expr subject in
      Ok ["match " ++ fmt subject_str ++ ":"]
  | MatchCase pattern guard _ =>
      let? pattern_str := _safe_generate_expr pattern in
      let? guard_str :=
        if node_truthy guard then
          let? g := _safe_generate_expr guard in
          Ok (" if " ++ fmt g)
        else Ok "" in
      Ok ["case " ++ fmt pattern_str ++ guard_str ++ ":"]
  | Expr value =>
      let? value_str := _safe_generate_expr value in
      Ok [fmt value_str]
  | Assign targets value _ =>
      let? targets_str := join_exprs " = " targets in
      let? value_str := _safe_generate_expr value in
      Ok [targets_str ++ " = " ++ fmt value_str]
  | AugAssign target op value _ =>
      let? target_str := _safe_generate_expr target in
      let op_str :=
        match op with
        | Some o => _generate_comparison_op o
        | None => Some ""
        end in
      let? value_str := _safe_generate_expr value in
      Ok [fmt target_str ++ " " ++ fmt op_str ++ "= " ++ fmt value_str]
  | AnnAssign target annotation _ _ value =>
      let? annotation_str := _safe_generate_expr annotation in
      let? value_str :=
        if node_truthy value then
          let? v := _safe_generate_expr value in
          Ok (" = " ++ fmt v)
        else Ok "" in
      Ok [target ++ ": " ++ fmt annotation_str ++ value_str]
  | Return value =>
      if node_truthy value then
        let? value_str := _safe_generate_expr value in
        Ok ["return " ++ fmt value_str]
      else Ok ["return"]
  | Yield value =>
      if node_truthy value then
        let? value_str := _safe_generate_expr value in
        Ok ["yield " ++ fmt value_str]
      else Ok ["yield"]
  | Await value =>
      let? value_str := _safe_generate_expr value in
      Ok ["await " ++ fmt value_str]
  | Delete targets =>
      let? targets_str := join_exprs ", " targets in
      Ok ["del " ++ targets_str]
  | Global names => Ok ["global " ++ String.concat ", " names]
  | Nonlocal names => Ok ["nonlocal " ++ String.concat ", " names]
  | Assert test msg =>
      let? test_str := _safe_generate_expr test in
      if node_truthy msg then
        let? msg_str := _safe_generate_expr msg in
        Ok ["assert " ++ fmt test_str ++ ", " ++ fmt msg_str]
      else Ok ["assert " ++ fmt test_str]
  | Raise exc cause =>
      if node_truthy exc then
        let? exc_str := _safe_generate_expr exc in
        if node_truthy cause then
          let? cause_str := _safe_generate_expr cause in
          Ok ["raise " ++ fmt exc_str ++ " from " ++ fmt cause_str]
        else Ok ["raise " ++ fmt exc_str]
      else Ok ["raise"]
  | Pass => Ok ["pass"]
  | Break => Ok ["break"]
  | Continue => Ok ["continue"]
  | Comment text => Ok (if str_truthy text then ["# " ++ text] else [])
  | ExceptHandler type name _ =>
      let? header := except_line "" type name in Ok [header]
  | _ => Ok ["# Unknown node: " ++ type_name nd]
  end.

(** What a rule does once its header lines are built: the body one level
    deeper, then the continuation clauses at the level of the header. *)
Definition render_below (nd : node) (indent : string) (header : list string)
  : M string :=
  match nd with
  | ImportGroup imports => generate_nodes_with _generate_node imports
  | ClassDef _ _ _ body _ | FunctionDef _ _ body _ _ _
  | AsyncFunctionDef _ _ body _ _ _ | Elif _ body | Else body | With _ body
  | MatchCase _ _ body | ExceptHandler _ _ body =>
      let* body_code := block_with _generate_node body in
      ret (String.concat nl (header +++ [body_code]))
  | If _ body or_else =>
      let* body_code := block_with _generate_node body in
      let* chain := map_M _generate_node or_else in
      ret (String.concat nl (header +++ [body_code] +++ chain))
  | For _ _ body or_else | AsyncFor _ _ body or_else | While _ body or_else =>
      let* body_code := block_with _generate_node body in
      let* else_lines := clause_with _generate_node indent "else:" or_else in
      ret (String.concat nl (header +++ [body_code] +++ else_lines))
  | Try body handlers or_else finalbody =>
      let* body_code := block_with _generate_node body in
      let* handler_codes := map_M _generate_node handlers in
      let* else_lines := clause_with _generate_node indent "else:" or_else in
      let* finally_lines := clause_with _generate_node indent "finally:" finalbody in
      ret (String.concat nl
             (header +++ [body_code] +++ handler_codes +++ else_lines
                +++ finally_lines))
  | Match _ cases =>
      let* _ := indent_incr in
      let* case_codes := map_M _generate_node cases in
      let* _ := indent_decr in
      ret (String.concat nl (header +++ case_codes))
  | _ => ret (String.concat nl header)
  end.

(** A well-formed tree: every header renders, to visible lines; every body
    has a statement; an import group has an import; a comment has a text;
    and so for the statements below. *)
Fixpoint well_formed (nd : node) : Prop :=
  match header_text nd with
  | Ok hs => All visible hs
  | Raised _ => False
  end
  /\ match nd with
     | ImportGroup imports => imports <> [] /\ All well_formed imports
     | ClassDef _ _ _ body _ | FunctionDef _ _ body _ _ _
     | AsyncFunctionDef _ _ body _ _ _ | Elif _ body | Else body
     | With _ body | MatchCase _ _ body | ExceptHandler _ _ body =>
         body <> [] /\ All well_formed body
     | If _ body or_else | For _ _ body or_else | AsyncFor _ _ body or_else
     | While _ body or_else =>
         body <> [] /\ All well_formed body /\ All well_formed or_else
     | Try body handlers or_else finalbody =>
         body <> [] /\ All well_formed body /\ All well_formed handlers
         /\ All well_formed or_else /\ All well_formed finalbody
     | Match _ cases => All well_formed cases
     | Comment text => str_truthy text = true
     | _ => True
     end.

(** A statement renders flat when, at every depth, it returns a text that
    is a sequence of lines at that depth, and keeps the generator. *)
Definition flat (u : string) (nd : node) : Prop :=
  forall d, exists lines,
    lines <> [] /\ Forall (line_at u d) lines
    /\ _generate_node nd (at_depth u d) = (Ok (String.concat nl lines), at_depth u d).

Definition lines_at (u : string) (d : nat) (lines : list string) : Prop :=
  lines <> [] /\ Forall (line_at u d) lines.

(** The statement of the indentation invariant for one node at depth [d]:
    its text is its header lines, each the indentation of depth [d]
    followed by the header text, then the lines of its body (for a match,
    of its cases), all at depth [d + 1], then the lines of its continuation
    clauses, at depth [d] or deeper; and the body lines are the rendering of
    the body at depth [d + 1]. *)
Definition indented_at (u : string) (d : nat) (nd : node) : Prop :=
  exists hs body_lines tail_lines,
    header_text nd = Ok hs
    /\ All visible hs
    /\ _generate_node nd (at_depth u d)
       = (Ok (String.concat nl
                (map (append (repeat_string u d)) hs
                   +++ body_lines +++ tail_lines)),
          at_depth u d)
    /\ Forall (line_at u (S d)) body_lines
    /\ Forall (line_at u d) tail_lines
    /\ (hs +++ body_lines +++ tail_lines <> [])
    /\ (forall body,
          has_rule nd = true -> get_body nd = Some (BodyList body) ->
          _generate_nodes body (at_depth u (S d))
          = (Ok (String.concat nl body_lines), at_depth u (S d))).

End Vocabulary.

(** ** Vocabulary of the further properties *)

(** Entries and exits among the calls. *)
Fixpoint count_enter (ops : list op) : nat :=
  match ops with
  | [] => 0
  | Enter _ :: rest => S (count_enter rest)
  | _ :: rest => count_enter rest
  end.

Fixpoint count_exit (ops : list op) : nat :=
  match ops with
  | [] => 0
  | Exit _ :: rest => S (count_exit rest)
  | _ :: rest => count_exit rest
  end.

(** A nest of [with] statements as a program: a block is a sequence of
    plain statements and of scoped blocks. *)
Inductive block_item : Type :=
| Stmt (nd : node)
| Scoped (c : scoped) (block : list block_item).

(** The calls a block makes. *)
Fixpoint item_ops (i : block_item) : list op :=
  match i with
  | Stmt nd => [AddNode nd]
  | Scoped c block => with_ c (flat_map item_ops block)
  end.

Definition block_ops (block : list block_item) : list op :=
  flat_map item_ops block.

(** Every builder of the block can be constructed. *)
Fixpoint constructible (i : block_item) : Prop :=
  match i with
  | Stmt _ => True
  | Scoped c block =>
      (exists f, scoped_init c = Done f) /\ All constructible block
  end.

(** The sort of a stack entry, by what [_get_current_body] finds on it. *)
Inductive frame_sort : Type :=
| SortFinally | SortListBody | SortNoBody | SortOtherBody.

Definition sort_of (f : frame) : frame_sort :=
  match f with
  | FFinally _ => SortFinally
  | FNode nd =>
      match get_body nd with
      | Some (BodyList _) => SortListBody
      | Some (BodyOther _) => SortOtherBody
      | None => SortNoBody
      end
  end.

(** An entry as the builders push them: its [body], if it has one, is a
    list. *)
Definition pushed_by_builder (f : frame) : Prop := sort_of f <> SortOtherBody.

(** [s'] is [s] with its top entry possibly mutated, its sort kept. *)
Definition top_grown (s s' : list frame) : Prop :=
  match s, s' with
  | [], [] => True
  | f :: rest, f' :: rest' => rest' = rest /\ sort_of f' = sort_of f
  | _, _ => False
  end.

(** The builders whose [__exit__] is [self.builder._pop_node()] and whose
    node has a [body] list: their block is the body of the node. *)
Definition pops_own_body (c : scoped) : bool :=
  match c with
  | IfBuilder _ | ForBuilder _ _ _ | WhileBuilder _ | TryBuilder
  | WithBuilder _ _ | ClassDefBuilder _ _ => true
  | FunctionDefBuilder _ _ _ decorators_list _ _ =>
      match decorators_list with
      | DecoratorsNotAList => false
      | _ => true
      end
  | _ => false
  end.

(** The node a builder creates in [__init__] ([Pass] where it creates
    none). *)
Definition initial_node (c : scoped) : node :=
  match scoped_init c with
  | Done (FNode nd) => nd
  | _ => Pass
  end.

(** A block in which every [with] statement uses such a builder. *)
Fixpoint plain_block (i : block_item) : Prop :=
  match i with
  | Stmt _ => True
  | Scoped c block => pops_own_body c = true /\ All plain_block block
  end.

(** The node such a block stands for: the builder's node with the nodes of
    the block as its body, or the placeholder when the block is empty. *)
Fixpoint built (i : block_item) : node :=
  match i with
  | Stmt nd => nd
  | Scoped c block => set_body (initial_node c) (auto_filled (map built block))
  end.

(** Two blocks for the closed examples: a conditional with an else
    block, followed by a case clause outside any match; and a class with
    two methods, the second left empty. *)
Definition sample_block : list block_item :=
  [Scoped (IfBuilder (Name "x"))
     [Stmt Break; Scoped ElseBuilder [Stmt Continue]];
   Scoped (CaseBuilder (Name "p") None) [Stmt Pass]].

Definition sample_class : block_item :=
  Scoped (ClassDefBuilder "C" None)
    [Scoped (FunctionDefBuilder "f" None None DecoratorsNone false [])
       [Stmt (Return None)];
     Scoped (FunctionDefBuilder "g" None None DecoratorsNone false []) []].

(** The exceptions of the rendering rules: a [TypeError] from [join] on an
    item that is [None], an [AttributeError] from a missing attribute, the
    [NameError] of the [Lambda] rule. *)
Definition render_error (e : exn) : Prop :=
  e = TypeError \/ e = AttributeError \/ e = NameError.

(** A result that raises none but these. *)
Definition mild {A} (r : result A) : Prop :=
  forall e, r = Raised e -> render_error e.

(** A computation of the renderer that, when it raises, raises one of the
    three, leaves [indent_char] alone and leaves [indent_level] at its value
    at the call or above. *)
Definition fails_deeper {A} (m : M A) : Prop :=
  forall g e g',
    m g = (Raised e, g') ->
    render_error e
    /\ indent_char g' = indent_char g
    /\ (indent_level g <= indent_level g')%Z.

Section FailureVocabulary.

Context {py : PyRuntime}.

(** What the induction on an expression carries: every function that
    renders it raises one of the three exceptions only. *)
Definition expr_mild (e : node) : Prop :=
  mild (_generate_expr e)
  /\ mild (_generate_arguments e)
  /\ mild (_generate_comprehension e)
  /\ mild (_safe_generate_with_item e)
  /\ match e with
     | Keyword _ value => mild (_safe_generate_expr value)
     | _ => True
     end.

End FailureVocabulary.

(** The statements whose rule renders one indented region after the
    header and nothing behind it. *)
Definition body_only (nd : node) : bool :=
  match nd with
  | ClassDef _ _ _ _ _ | FunctionDef _ _ _ _ _ _ | AsyncFunctionDef _ _ _ _ _ _
  | Elif _ _ | Else _ | With _ _ | MatchCase _ _ _ | ExceptHandler _ _ _
  | Match _ _ => true
  | _ => false
  end.

(** The three operator classes that [_generate_expr] has a rule for. *)
Definition bare_bool_operator (e : node) : Prop :=
  e = Operator And \/ e = Operator Or \/ e = Operator Not.

(** The text an operator node is rendered with where an operator is
    printed: its [__kw__], the text None for the classes that have none. *)
Definition operator_text (o : operator) : string :=
  match o with
  | Is => "is" | IsNot => "is not" | In => "in" | NotIn => "not in"
  | _ => "None"
  end.

(** The generator one level deeper. *)
Definition deeper (g : CodeGenerator) : CodeGenerator :=
  {| indent_char := indent_char g; indent_level := indent_level g + 1 |}.

(** Two rendered texts put one under the other, an empty one leaving no
    line. *)
Definition stacked (a b : string) : string :=
  if str_truthy a then if str_truthy b then a ++ nl ++ b else a else b.

(** [isinstance(c, Comprehension)] *)
Definition is_comprehension (c : node) : Prop :=
  exists target iter ifs is_async, c = Comprehension target iter ifs is_async.

Section PlainExpressions.

Context {py : PyRuntime}.

(** A fragment of the expressions: names, constants, import names,
    attribute access, subscripts, calls with keyword arguments,
    comparisons, [await], starred and unary expressions and parameters,
    built from texts that hold no line break. *)
Fixpoint plain_expr (e : node) : Prop :=
  match e with
  | Name id => single_line id = true
  | Constant value kind =>
      match value with
      | VStr s =>
          single_line (str_repr s) = true
          /\ (opt_str_truthy kind = true -> single_line (fmt kind) = true)
      | VFloat text => single_line text = true
      | _ => True
      end
  | Alias name asname =>
      single_line name = true /\ single_line (fmt asname) = true
  | Attribute value attr =>
      match value with Some v => plain_expr v | None => True end
      /\ single_line attr = true
  | Subscript value slice =>
      match value with Some v => plain_expr v | None => True end
      /\ match slice with Some v => plain_expr v | None => True end
  | Call func args keywords =>
      match func with Some v => plain_expr v | None => True end
      /\ All plain_expr args
      /\ All (fun k =>
                match k with
                | Keyword arg value =>
                    single_line (fmt arg) = true
                    /\ match value with
                       | Some v => plain_expr v
                       | None => True
                       end
                | _ => True
                end) keywords
  | Compare left_ ops comparators =>
      match left_ with Some v => plain_expr v | None => True end
      /\ All (fun op =>
                match op with
                | Name id => single_line id = true
                | _ => True
                end) ops
      /\ All plain_expr comparators
  | Await value | Starred value | UnaryOp _ value =>
      match value with Some v => plain_expr v | None => True end
  | Arg arg annotation _ =>
      single_line arg = true
      /\ match annotation with Some v => plain_expr v | None => True end
  | _ => False
  end.

(** An expression renders to one line. *)
Definition renders_to_line (e : node) : Prop :=
  exists s, _generate_expr e = Ok (Some s) /\ single_line s = true.

(** What the induction on such an expression carries: the property
    itself, and for a keyword argument the rendering of its value. *)
Definition plain_carried (e : node) : Prop :=
  (plain_expr e -> renders_to_line e)
  /\ match e with
     | Keyword _ (Some v) => plain_expr v -> renders_to_line v
     | _ => True
     end.

End PlainExpressions.

(** * Properties *)

(** ** The builder *)

Lemma run_app (ops1 ops2 : list op) (b : Builder) :
  run (ops1 +++ ops2) b = (let! b' := run ops1 b in run ops2 b').
Proof.
  revert b; induction ops1 as [|o ops1 IH]; intros b; simpl; [reflexivity|].
  destruct (step o b); simpl; auto.
Qed.

(** Statements added one after the other while a node with a list body is
    on top of the stack land in that body, in order. *)
Lemma run_add_nodes (stmts : list node) : forall nd body root rest,
  get_body nd = Some (BodyList body) ->
  run (map AddNode stmts) {| root_nodes := root; _stack := FNode nd :: rest |}
  = Done {| root_nodes := root;
            _stack := FNode (set_body nd (body +++ stmts)) :: rest |}.
Proof.
  induction stmts as [|s stmts IH]; intros nd body root rest Hb; simpl.
  - rewrite app_nil_r. do 3 f_equal.
    destruct nd; simpl in *; try discriminate; inversion Hb; subst; reflexivity.
  - unfold add_node, current_body_append; simpl. rewrite Hb. simpl.
    rewrite (IH _ (body +++ [s])).
    + rewrite <- app_assoc. simpl.
      do 3 f_equal. destruct nd; simpl in *; try discriminate; reflexivity.
    + destruct nd; simpl in *; try discriminate; reflexivity.
Qed.

Lemma run_add_nodes_finally (stmts : list node) : forall temp_body root rest,
  run (map AddNode stmts) {| root_nodes := root; _stack := FFinally temp_body :: rest |}
  = Done {| root_nodes := root; _stack := FFinally (temp_body +++ stmts) :: rest |}.
Proof.
  induction stmts as [|s stmts IH]; intros temp_body root rest; simpl.
  - now rewrite app_nil_r.
  - rewrite IH, <- app_assoc. reflexivity.
Qed.

(** A scoped block that only adds statements: at its exit handler the
    node it pushed holds exactly these statements. *)
Lemma run_with_add_nodes (c : scoped) (nd0 : node) (stmts root : list node)
  (rest : list frame) :
  scoped_init c = Done (FNode nd0) ->
  get_body nd0 = Some (BodyList []) ->
  run (with_ c (map AddNode stmts)) {| root_nodes := root; _stack := rest |}
  = scoped_exit c
      {| root_nodes := root; _stack := FNode (set_body nd0 stmts) :: rest |}.
Proof.
  intros Hinit Hb0. unfold with_. cbn [run step]. unfold scoped_enter.
  rewrite Hinit. cbn [outcome_bind]. unfold _push_node. cbn [root_nodes _stack].
  rewrite run_app, (run_add_nodes stmts nd0 [] root rest) by assumption.
  cbn [outcome_bind app run step]. now destruct (scoped_exit c _).
Qed.

(** The body of a node after [set_body], and the placeholder step on it. *)
Lemma get_body_set_body (nd : node) (stmts stmts' : list node) :
  get_body nd = Some (BodyList stmts) ->
  get_body (set_body nd stmts') = Some (BodyList stmts').
Proof. destruct nd; simpl; intros H; try discriminate; reflexivity. Qed.

Lemma set_body_set_body (nd : node) (stmts stmts' : list node) :
  set_body (set_body nd stmts) stmts' = set_body nd stmts'.
Proof. destruct nd; reflexivity. Qed.

Lemma fill_list_body_set_body (nd : node) (body stmts : list node) :
  get_body nd = Some (BodyList body) ->
  fill_list_body (set_body nd stmts) = set_body nd (auto_filled stmts).
Proof.
  intros H. unfold fill_list_body. rewrite (get_body_set_body nd body stmts H).
  destruct stmts; [|reflexivity]. cbn. apply set_body_set_body.
Qed.

(** One step of [run] on an [Enter], with the projections of the builder
    computed. *)
Ltac run_step :=
  cbn [run step scoped_enter scoped_init outcome_bind app set_body];
  unfold _push_node; cbn [root_nodes _stack outcome_bind].

(** C1.  Opening a conditional, adding a statement, opening and closing an
    else-if continuation with one statement, opening and closing an
    else-continuation with one statement and closing the conditional leaves
    one top-level [If] whose [or_else] has exactly two entries: the [Elif]
    node, whole and with its own body, then the statement of the else body
    itself, the [Else] wrapper being dropped. *)
Theorem C1_if_elif_else_or_else (test test2 s1 s2 s3 : node) (root : list node) :
  run (with_ (IfBuilder test)
         ([AddNode s1]
            +++ with_ (ElifBuilder test2) [AddNode s2]
            +++ with_ ElseBuilder [AddNode s3]))
      {| root_nodes := root; _stack := [] |}
  = Done {| root_nodes :=
              root +++ [If (Some test) [s1] [Elif (Some test2) [s2]; s3]];
            _stack := [] |}.
Proof. reflexivity. Qed.

(** C2, at the level of the exit handler.  With a [While] under the popped
    [Else] the statements are spliced into the loop's [or_else]; with a
    [For] or an [AsyncFor] they are not: the test of [ElseBuilder.__exit__]
    names [If], [While] and [Try] only, the [Else] node itself is appended
    to the loop's body and [or_else] stays as it was. *)
Theorem C2_else_under_loop (stmts body or_else root : list node)
  (target iter test : option node) (rest : list frame) :
  ElseBuilder_exit
    {| root_nodes := root;
       _stack := FNode (Else stmts) :: FNode (While test body or_else) :: rest |}
  = Done {| root_nodes := root;
            _stack := FNode (While test body (or_else +++ auto_filled stmts))
                        :: rest |}
  /\ ElseBuilder_exit
       {| root_nodes := root;
          _stack := FNode (Else stmts) :: FNode (For target iter body or_else)
                      :: rest |}
     = Done {| root_nodes := root;
               _stack := FNode (For target iter
                                  (body +++ [Else (auto_filled stmts)]) or_else)
                           :: rest |}
  /\ ElseBuilder_exit
       {| root_nodes := root;
          _stack := FNode (Else stmts)
                      :: FNode (AsyncFor target iter body or_else) :: rest |}
     = Done {| root_nodes := root;
               _stack := FNode (AsyncFor target iter
                                  (body +++ [Else (auto_filled stmts)]) or_else)
                           :: rest |}.
Proof. repeat split; destruct stmts; reflexivity. Qed.

(** The same on a whole use of the builder: a for-loop with an
    else-continuation holding one statement. *)
Example else_inside_for_loop (target iter s : node) :
  run (with_ (for_ target iter) (with_ ElseBuilder [AddNode s])) Builder_init
  = Done {| root_nodes := [For (Some target) (Some iter) [Else [s]] []];
            _stack := [] |}.
Proof. reflexivity. Qed.

Example else_inside_while_loop (test s : node) :
  run (with_ (WhileBuilder test) (with_ ElseBuilder [AddNode s])) Builder_init
  = Done {| root_nodes := [While (Some test) [Pass] [s]]; _stack := [] |}.
Proof. reflexivity. Qed.

(** C3.  Closing a case clause: when the entry below it is a [Match], the
    clause, with its pattern, its guard and its auto-filled body, is
    appended to the [cases] of that [Match]; in every other situation
    (another entry below, or nothing) the handler returns normally and
    leaves exactly the builder without the clause, which is appended
    nowhere. *)
Theorem C3_case_close (pattern guard : option node) (stmts root : list node)
  (rest : list frame) :
  CaseBuilder_exit
    {| root_nodes := root;
       _stack := FNode (MatchCase pattern guard stmts) :: rest |}
  = match rest with
    | FNode (Match subject cases) :: rest' =>
        Done {| root_nodes := root;
                _stack :=
                  FNode (Match subject
                           (cases +++ [MatchCase pattern guard (auto_filled stmts)]))
                    :: rest' |}
    | _ => Done {| root_nodes := root; _stack := rest |}
    end.
Proof.
  destruct stmts; destruct rest as [|[[]|] rest']; reflexivity.
Qed.

(** C5.  A protected block with any statements in its body, two handler
    clauses opened and closed in sequence and a cleanup block with at least
    one statement: the [Try] that results has exactly the two handlers, in
    the order they were opened, and its [finalbody] is exactly the
    statements added inside the cleanup block, in order, whatever the body
    of the block holds.  Moreover closing a cleanup block extends the
    [finalbody] a [Try] already has. *)
Theorem C5_try_handlers_finally (stmts h1 h2 fs root : list node) (f : node)
  (type1 type2 : option node) (name1 name2 : option string) :
  run (with_ TryBuilder
         (map AddNode stmts
            +++ with_ (ExceptBuilder type1 name1) (map AddNode h1)
            +++ with_ (ExceptBuilder type2 name2) (map AddNode h2)
            +++ with_ FinallyBuilder (map AddNode (f :: fs))))
      {| root_nodes := root; _stack := [] |}
  = Done {| root_nodes :=
              root +++ [Try (auto_filled stmts)
                          [ExceptHandler type1 name1 (auto_filled h1);
                           ExceptHandler type2 name2 (auto_filled h2)]
                          []
                          (f :: fs)];
            _stack := [] |}
  /\ forall temp_body body handlers or_else finalbody rest,
       FinallyBuilder_exit
         {| root_nodes := root;
            _stack := FFinally temp_body
                        :: FNode (Try body handlers or_else finalbody) :: rest |}
       = Done {| root_nodes := root;
                 _stack := FNode (Try body handlers or_else
                                    (finalbody +++ auto_filled temp_body))
                             :: rest |}.
Proof.
  split.
  - unfold with_.
    repeat rewrite <- ?app_assoc, <- ?app_comm_cons.
    run_step.
    rewrite run_app, (run_add_nodes stmts (Try [] [] [] []) []) by reflexivity.
    run_step.
    rewrite run_app, (run_add_nodes h1 (ExceptHandler type1 name1 []) [])
      by reflexivity.
    run_step.
    replace (scoped_exit (ExceptBuilder type1 name1) _)
      with (Done {| root_nodes := root;
                    _stack := [FNode (Try stmts
                                        [ExceptHandler type1 name1 (auto_filled h1)]
                                        [] [])] |})
      by (destruct h1; reflexivity).
    run_step.
    rewrite run_app, (run_add_nodes h2 (ExceptHandler type2 name2 []) [])
      by reflexivity.
    run_step.
    replace (scoped_exit (ExceptBuilder type2 name2) _)
      with (Done {| root_nodes := root;
                    _stack := [FNode (Try stmts
                                        [ExceptHandler type1 name1 (auto_filled h1);
                                         ExceptHandler type2 name2 (auto_filled h2)]
                                        [] [])] |})
      by (destruct h2; reflexivity).
    run_step.
    rewrite run_app, (run_add_nodes_finally (f :: fs) []).
    run_step.
    destruct stmts; reflexivity.
  - intros. destruct temp_body; reflexivity.
Qed.

(** C10.  Closing a cleanup block whose stack has no [Try] directly below
    drops the accumulated statements: the handler returns normally with
    exactly the builder that remains after the pop.  An else-continuation
    without a compatible parent is appended as an ordinary statement, to
    the current body or, on the empty stack, to [root_nodes]; so is a
    handler clause closed over an entry that is not a [Try].  The code
    leaves the claim at one point: [ExceptBuilder.__exit__] has the branch
    for a stack that is not empty and none for the empty stack, so a
    handler clause closed there is appended nowhere, where an
    else-continuation goes to [root_nodes]. *)
Theorem C10_cleanup_close_discards (stmts root : list node)
  (type : option node) (name : option string) (rest : list frame) :
  FinallyBuilder_exit
    {| root_nodes := root; _stack := FFinally stmts :: rest |}
  = match rest with
    | FNode (Try body handlers or_else finalbody) :: rest' =>
        Done {| root_nodes := root;
                _stack := FNode (Try body handlers or_else
                                   (finalbody +++ auto_filled stmts)) :: rest' |}
    | _ => Done {| root_nodes := root; _stack := rest |}
    end
  /\ ElseBuilder_exit {| root_nodes := root; _stack := [FNode (Else stmts)] |}
     = Done {| root_nodes := root +++ [Else (auto_filled stmts)]; _stack := [] |}
  /\ (forall parent rest',
        ElseBuilder_exit
          {| root_nodes := root;
             _stack := FNode (Else stmts) :: parent :: rest' |}
        = match as_If_While_Try parent with
          | Some p =>
              Done {| root_nodes := root;
                      _stack := FNode (or_else_extend p (auto_filled stmts))
                                  :: rest' |}
          | None =>
              current_body_append (Else (auto_filled stmts))
                {| root_nodes := root; _stack := parent :: rest' |}
          end)
  /\ (forall parent rest',
        ExceptBuilder_exit
          {| root_nodes := root;
             _stack := FNode (ExceptHandler type name stmts) :: parent :: rest' |}
        = match parent with
          | FNode (Try body handlers or_else finalbody) =>
              Done {| root_nodes := root;
                      _stack :=
                        FNode (Try body
                                 (handlers
                                    +++ [ExceptHandler type name (auto_filled stmts)])
                                 or_else finalbody) :: rest' |}
          | _ =>
              current_body_append (ExceptHandler type name (auto_filled stmts))
                {| root_nodes := root; _stack := parent :: rest' |}
          end)
  /\ ExceptBuilder_exit
       {| root_nodes := root; _stack := [FNode (ExceptHandler type name stmts)] |}
     = Done {| root_nodes := root; _stack := [] |}.
Proof.
  repeat split.
  - destruct stmts; destruct rest as [|[[]|] rest']; reflexivity.
  - destruct stmts; reflexivity.
  - intros; destruct stmts; destruct parent as [[]|]; reflexivity.
  - intros; destruct stmts; destruct parent as [[]|]; reflexivity.
  - destruct stmts; reflexivity.
Qed.

(** C10 at a handler clause with one statement, closed on a fresh builder:
    the clause is appended nowhere. *)
Lemma C10_handler_dropped_on_empty_stack :
  run (with_ (ExceptBuilder None None) [AddNode Break]) Builder_init
  = Done {| root_nodes := []; _stack := [] |}
  /\ run (with_ (ExceptBuilder None None) [AddNode Break]) Builder_init
     <> Done {| root_nodes := [ExceptHandler None None [Break]]; _stack := [] |}.
Proof. split; [reflexivity|discriminate]. Qed.

(** ** The renderer: the indentation counter *)

Section RendererProperties.

Context {py : PyRuntime}.

Lemma keeps_ret {A} (a : A) : keeps (ret a).
Proof. intros g a' g' H; inversion H; reflexivity. Qed.

Lemma keeps_lift {A} (r : result A) : keeps (lift r).
Proof. intros g a' g' H; inversion H; reflexivity. Qed.

Lemma keeps_current_indent : keeps current_indent.
Proof. intros g a' g' H; inversion H; reflexivity. Qed.

Lemma keeps_bind {A B} (m : M A) (k : A -> M B) :
  keeps m -> (forall a, keeps (k a)) -> keeps (bind m k).
Proof.
  intros Hm Hk g b g' H. unfold bind in H.
  destruct (m g) as [[a|e] g1] eqn:E; [|discriminate].
  apply Hm in E; subst g1. eapply Hk; eauto.
Qed.

Lemma incr_decr (g : CodeGenerator) :
  {| indent_char := indent_char g; indent_level := indent_level g + 1 - 1 |} = g.
Proof. destruct g; simpl; f_equal; lia. Qed.

(** The pattern around every body: increment, run, decrement. *)
Lemma keeps_indented {A B} (m : M A) (k : A -> M B) :
  keeps m -> (forall a, keeps (k a)) ->
  keeps (let* _ := indent_incr in
         let* a := m in
         let* _ := indent_decr in
         k a).
Proof.
  intros Hm Hk g b g' H. unfold bind, indent_incr, indent_decr in H.
  destruct (m _) as [[a1|e] g1] eqn:E; [|discriminate].
  apply Hm in E; subst g1. apply Hk in H. subst g'. simpl. apply incr_decr.
Qed.

Lemma list_all_Forall {A} (P : A -> Prop) (l : list A) :
  list_all A P l -> Forall P l.
Proof. induction 1; constructor; assumption. Qed.

Section Loops.

Variable gen : node -> M string.

Lemma keeps_map_M (xs : list node) :
  Forall (fun x => keeps (gen x)) xs -> keeps (map_M gen xs).
Proof.
  induction 1 as [|x xs Hx _ IH]; simpl.
  - apply keeps_ret.
  - apply keeps_bind; [assumption|intros].
    apply keeps_bind; [assumption|intros]. apply keeps_ret.
Qed.

Lemma keeps_nodes_lines (xs : list node) :
  Forall (fun x => keeps (gen x)) xs -> keeps (nodes_lines_with gen xs).
Proof.
  induction 1 as [|x xs Hx _ IH]; simpl.
  - apply keeps_ret.
  - apply keeps_bind; [assumption|intros].
    apply keeps_bind; [assumption|intros]. apply keeps_ret.
Qed.

Lemma keeps_generate_nodes (xs : list node) :
  Forall (fun x => keeps (gen x)) xs -> keeps (generate_nodes_with gen xs).
Proof.
  intros H. unfold generate_nodes_with.
  apply keeps_bind; [now apply keeps_nodes_lines|intros; apply keeps_ret].
Qed.

Lemma keeps_block (xs : list node) :
  Forall (fun x => keeps (gen x)) xs -> keeps (block_with gen xs).
Proof.
  intros H. unfold block_with. apply keeps_indented.
  - now apply keeps_generate_nodes.
  - intros; apply keeps_ret.
Qed.

Lemma keeps_clause (indent keyword : string) (xs : list node) :
  Forall (fun x => keeps (gen x)) xs ->
  keeps (clause_with gen indent keyword xs).
Proof.
  intros H. unfold clause_with. destruct (list_truthy xs).
  - apply keeps_bind; [now apply keeps_block|intros; apply keeps_ret].
  - apply keeps_ret.
Qed.

End Loops.

Ltac keeps_step :=
  first
    [ apply keeps_ret
    | apply keeps_lift
    | apply keeps_current_indent
    | apply keeps_block; apply list_all_Forall; assumption
    | apply keeps_clause; apply list_all_Forall; assumption
    | apply keeps_map_M; apply list_all_Forall; assumption
    | apply keeps_generate_nodes; apply list_all_Forall; assumption
    | apply keeps_indented; [|intros ?]
    | apply keeps_bind; [|intros ?]
    | match goal with
      | |- keeps (if ?c then _ else _) => destruct c
      end ].

(** Rendering a node that returns leaves [indent_level] where it was:
    every increment is followed by its decrement. *)
Lemma generate_node_keeps (nd : node) : keeps (_generate_node nd).
Proof.
  induction nd; cbn [_generate_node]; repeat keeps_step.
Qed.

Lemma generate_nodes_keeps (nodes : list node) : keeps (_generate_nodes nodes).
Proof.
  apply keeps_generate_nodes, Forall_forall. intros; apply generate_node_keeps.
Qed.

(** C7.  A call of [generate] that returns leaves the generator as it was,
    so a second call on the same builder with the same arguments returns
    the same text (and has the same effects). *)
Theorem C7_generate_twice (builder : Builder) (mode : string)
  (file_name : option string) (path : string) (g g1 : CodeGenerator)
  (text : string) (effects : list effect) :
  generate builder mode file_name path g = (Ok text, g1, effects) ->
  g1 = g /\ generate builder mode file_name path g1 = (Ok text, g1, effects).
Proof.
  intros H.
  assert (g1 = g) as ->; [|split; [reflexivity|assumption]].
  unfold generate in H.
  destruct (_generate_nodes (root_nodes builder) g) as [[code|e] g'] eqn:E;
    [|discriminate].
  apply generate_nodes_keeps in E; subst g'.
  destruct (mode =? "console")%string; [now inversion H|].
  destruct (mode =? "file")%string; [|now inversion H].
  destruct file_name as [f|]; [|discriminate].
  destruct (str_truthy f); [now inversion H|discriminate].
Qed.

(** C8, as the code has it. In file mode, once the tree has rendered (the
    file name is looked at after the rendering): without a file name ([None]
    or the empty string) [generate] raises [ValueError] and has written
    nothing; with a file name it writes the rendered text to that name under
    [path] and returns the same text. *)
Theorem C8_generate_file_mode (builder : Builder) (file_name : option string)
  (path code : string) (g g' : CodeGenerator) :
  _generate_nodes (root_nodes builder) g = (Ok code, g') ->
  (opt_str_truthy file_name = false ->
   generate builder "file" file_name path g = (Raised ValueError, g', []))
  /\ (forall f, file_name = Some f -> str_truthy f = true ->
      generate builder "file" file_name path g
      = (Ok code, g', [WriteText path f code])).
Proof.
  intros E. unfold generate. rewrite E. cbn [String.eqb Ascii.eqb Bool.eqb].
  split.
  - destruct file_name as [f|]; simpl; [intros ->|]; reflexivity.
  - intros f -> ->. reflexivity.
Qed.

Lemma str_truthy_app_r (a b : string) :
  str_truthy b = true -> str_truthy (a ++ b) = true.
Proof. destruct a; simpl; auto. Qed.

(** C9.  A node of a class without a rule never makes [_generate_node]
    raise: the result is one placeholder line, the current indentation
    followed by a text without line break that names the class; the
    generator is unchanged, and in a sequence the nodes after it are
    rendered as they would be without it, the placeholder being one more
    entry in front of theirs. *)
Theorem C9_unknown_node_placeholder (nd : node) (g : CodeGenerator) :
  has_rule nd = false ->
  let placeholder :=
    str_mul (indent_char g) (indent_level g)
      ++ "# Unknown node: " ++ type_name nd in
  _generate_node nd g = (Ok placeholder, g)
  /\ single_line ("# Unknown node: " ++ type_name nd) = true
  /\ forall rest,
       nodes_lines_with _generate_node (nd :: rest) g
       = match nodes_lines_with _generate_node rest g with
         | (Ok lines, g') => (Ok (placeholder :: lines), g')
         | (Raised e, g') => (Raised e, g')
         end.
Proof.
  intros H placeholder.
  assert (E : _generate_node nd g = (Ok placeholder, g))
    by (destruct nd; try discriminate; reflexivity).
  split; [exact E|]. split.
  - destruct nd; try discriminate; try reflexivity.
    destruct o; reflexivity.
  - intros rest. cbn [nodes_lines_with]. unfold bind at 1. rewrite E.
    unfold bind, ret.
    destruct (nodes_lines_with _generate_node rest g) as [[lines|e] g']; [|reflexivity].
    unfold placeholder. rewrite !str_truthy_app_r; reflexivity.
Qed.

(** ** The renderer: headers and bodies *)

Lemma decorator_lines_indent (indent : string) (decorators : list node) :
  decorator_lines indent decorators
  = let? lines := decorator_lines "" decorators in
    Ok (map (append indent) lines).
Proof.
  unfold decorator_lines.
  induction decorators as [|d ds IH]; cbn [map_result]; [reflexivity|].
  destruct (_generate_expr d) as [ds'|e]; cbn [result_bind];
    [|reflexivity].
  rewrite IH; clear IH.
  destruct (map_result _ ds); reflexivity.
Qed.

Lemma def_line_indent (indent prefix name : string) (args returns : option node)
  (type_params : list node) :
  def_line indent prefix name args returns type_params
  = let? line := def_line "" prefix name args returns type_params in
    Ok (indent ++ line).
Proof.
  unfold def_line.
  destruct (match args with Some a => _ | None => _ end); simpl; [|reflexivity].
  destruct (if node_truthy returns then _ else _); simpl; [|reflexivity].
  destruct (if list_truthy type_params then _ else _); reflexivity.
Qed.

Lemma for_line_indent (indent keyword : string) (target iter : option node) :
  for_line indent keyword target iter
  = let? line := for_line "" keyword target iter in
    Ok (indent ++ line).
Proof.
  unfold for_line.
  destruct (_safe_generate_expr target); simpl; [|reflexivity].
  destruct (_safe_generate_expr iter); reflexivity.
Qed.

Lemma except_line_indent (indent : string) (type : option node)
  (name : option string) :
  except_line indent type name
  = let? line := except_line "" type name in
    Ok (indent ++ line).
Proof.
  unfold except_line.
  destruct (match type with Some _ => _ | None => _ end); reflexivity.
Qed.

Ltac split_results :=
  repeat match goal with
         | |- context [node_truthy ?v] => is_var v; destruct v; cbn [node_truthy]
         | |- context [result_bind ?r _] =>
             lazymatch r with
             | Ok _ => fail
             | Raised _ => fail
             | _ => destruct r
             end; cbn [result_bind bind lift ret]
         end.

(** [_generate_node] is its header, indented, followed by [render_below];
    an exception in the header leaves before the counter is touched. *)
Lemma generate_node_factored (nd : node) (g : CodeGenerator) :
  let indent := str_mul (indent_char g) (indent_level g) in
  _generate_node nd g
  = match header_text nd with
    | Ok hs => render_below nd indent (map (append indent) hs) g
    | Raised e => (Raised e, g)
    end.
Proof.
  intros indent.
  destruct nd; cbn [_generate_node header_text render_below];
    unfold bind at 1; unfold current_indent; fold indent;
    rewrite ?(decorator_lines_indent indent), ?(def_line_indent indent),
      ?(for_line_indent indent), ?(except_line_indent indent);
    cbn [result_bind bind lift ret];
    split_results; cbn [result_bind bind lift ret map]; rewrite ?map_app;
    try reflexivity.
  - destruct (str_truthy text); reflexivity.
  - unfold bind, ret. destruct (block_with _ _ _) as [[code|e] g']; [|reflexivity].
    cbn [map]. rewrite <- app_assoc. reflexivity.
  - unfold bind, ret. destruct (block_with _ _ _) as [[code|e] g']; [|reflexivity].
    cbn [map]. rewrite <- app_assoc. reflexivity.
Qed.


(** ** The renderer: indentation *)

Lemma All_Forall {A} (P : A -> Prop) (l : list A) : All P l <-> Forall P l.
Proof.
  induction l as [|x l IH]; simpl.
  - split; [constructor|trivial].
  - split.
    + intros [Hx Hl]. constructor; [assumption|now apply IH].
    + intros H. inversion H; subst. split; [assumption|now apply IH].
Qed.

Lemma string_app_assoc (a b c : string) : (a ++ b) ++ c = a ++ b ++ c.
Proof. induction a; simpl; congruence. Qed.

Lemma string_app_empty_r (a : string) : a ++ "" = a.
Proof. induction a; simpl; congruence. Qed.

Lemma single_line_app (a b : string) :
  single_line (a ++ b) = single_line a && single_line b.
Proof.
  induction a as [|c a IH]; simpl; [reflexivity|].
  rewrite IH. now rewrite andb_assoc.
Qed.

Lemma single_line_repeat (u : string) (d : nat) :
  single_line u = true -> single_line (repeat_string u d) = true.
Proof.
  intros Hu. induction d; simpl; [reflexivity|].
  now rewrite single_line_app, Hu, IHd.
Qed.

Lemma repeat_string_snoc (u : string) (d : nat) :
  repeat_string u (S d) = repeat_string u d ++ u.
Proof.
  induction d; simpl; [now rewrite string_app_empty_r|].
  simpl in IHd. now rewrite IHd at 1; rewrite string_app_assoc.
Qed.

Lemma str_truthy_app_l (a b : string) :
  str_truthy a = true -> str_truthy (a ++ b) = true.
Proof. destruct a; simpl; [discriminate|reflexivity]. Qed.

Lemma line_at_header (u h : string) (d : nat) :
  visible h -> line_at u d (repeat_string u d ++ h).
Proof.
  intros [H1 H2]. split.
  - intros Hu. now rewrite single_line_app, single_line_repeat, H1.
  - eauto.
Qed.

Lemma line_at_shallower (u : string) (d : nat) (line : string) :
  line_at u (S d) line -> line_at u d line.
Proof.
  intros [H1 (text & -> & H2)]. split; [assumption|].
  exists (u ++ text). rewrite repeat_string_snoc, string_app_assoc.
  split; [reflexivity|]. now apply str_truthy_app_r.
Qed.

Lemma line_at_truthy (u : string) (d : nat) (line : string) :
  line_at u d line -> str_truthy line = true.
Proof. intros [_ (text & -> & H)]. now apply str_truthy_app_r. Qed.

(** Joining pieces that are themselves joined lines. *)
Lemma concat_cons_ne (sep x : string) (l : list string) :
  l <> [] -> String.concat sep (x :: l) = x ++ sep ++ String.concat sep l.
Proof. destruct l; [congruence|reflexivity]. Qed.

Lemma concat_app_ne (sep : string) (l1 l2 : list string) :
  l1 <> [] -> l2 <> [] ->
  String.concat sep (l1 +++ l2)
  = String.concat sep l1 ++ sep ++ String.concat sep l2.
Proof.
  intros H1 H2. induction l1 as [|x l1 IH]; [congruence|].
  destruct l1 as [|y l1].
  - simpl app. now rewrite concat_cons_ne.
  - change ((x :: y :: l1) +++ l2) with (x :: ((y :: l1) +++ l2)).
    rewrite concat_cons_ne by discriminate.
    rewrite IH by discriminate.
    rewrite (concat_cons_ne sep x (y :: l1)) by discriminate.
    now rewrite !string_app_assoc.
Qed.

Lemma str_truthy_concat (sep : string) (l : list string) :
  l <> [] -> Forall (fun x => str_truthy x = true) l ->
  str_truthy (String.concat sep l) = true.
Proof.
  intros Hne HF. destruct l as [|x l]; [congruence|].
  inversion HF; subst. destruct l.
  - assumption.
  - rewrite concat_cons_ne by discriminate. now apply str_truthy_app_l.
Qed.

Lemma same_text_refl (l : list string) : same_text l l.
Proof. split; tauto. Qed.

Lemma same_text_single (lines : list string) :
  lines <> [] -> same_text [String.concat nl lines] lines.
Proof. intros H; split; [reflexivity|]. split; [discriminate|congruence]. Qed.

Lemma same_text_app (c1 c2 l1 l2 : list string) :
  same_text c1 l1 -> same_text c2 l2 -> same_text (c1 +++ c2) (l1 +++ l2).
Proof.
  intros [E1 N1] [E2 N2]. split.
  - destruct c1 as [|x c1].
    + destruct N1 as [N1 _]. rewrite (N1 eq_refl). exact E2.
    + assert (l1 <> []) by (intros ->; destruct N1 as [_ N1]; now specialize (N1 eq_refl)).
      destruct c2 as [|y c2].
      * destruct N2 as [N2 _]. rewrite (N2 eq_refl), !app_nil_r. exact E1.
      * assert (l2 <> []) by (intros ->; destruct N2 as [_ N2]; now specialize (N2 eq_refl)).
        rewrite !concat_app_ne by (assumption || discriminate). congruence.
  - split; intros H; apply app_eq_nil in H; destruct H as [H1 H2];
      apply N1 in H1; apply N2 in H2; subst; reflexivity.
Qed.

Lemma indent_at_depth (u : string) (d : nat) :
  str_mul (indent_char (at_depth u d)) (indent_level (at_depth u d))
  = repeat_string u d.
Proof. unfold str_mul; simpl. now rewrite Nat2Z.id. Qed.

Lemma incr_at_depth (u : string) (d : nat) :
  indent_incr (at_depth u d) = (Ok tt, at_depth u (S d)).
Proof.
  unfold indent_incr, at_depth; simpl. do 2 f_equal. lia.
Qed.

Lemma decr_at_depth (u : string) (d : nat) :
  indent_decr (at_depth u (S d)) = (Ok tt, at_depth u d).
Proof.
  unfold indent_decr, at_depth; cbn [indent_char indent_level].
  do 2 f_equal. lia.
Qed.

Section Indentation.

Variable u : string.

Lemma lines_at_truthy (d : nat) (lines : list string) :
  lines_at u d lines -> str_truthy (String.concat nl lines) = true.
Proof.
  intros [Hne HF]. apply str_truthy_concat; [assumption|].
  eapply Forall_impl; [|exact HF]. intros l; apply line_at_truthy.
Qed.

Lemma same_text_chunks (lss : list (list string)) :
  Forall (fun ls => ls <> []) lss ->
  same_text (map (String.concat nl) lss) (List.concat lss).
Proof.
  induction 1 as [|ls lss Hls _ IH]; simpl; [apply same_text_refl|].
  change (String.concat nl ls :: map (String.concat nl) lss)
    with ([String.concat nl ls] +++ map (String.concat nl) lss).
  apply same_text_app; [now apply same_text_single|assumption].
Qed.

Lemma map_M_flat (xs : list node) (d : nat) :
  Forall (flat u) xs ->
  exists lss,
    map_M _generate_node xs (at_depth u d)
    = (Ok (map (String.concat nl) lss), at_depth u d)
    /\ Forall (lines_at u d) lss /\ (lss = [] <-> xs = []).
Proof.
  induction 1 as [|x xs Hx _ IH].
  - exists []. repeat split; constructor.
  - destruct IH as (lss & E & HF & _). destruct (Hx d) as (ls & Hne & Hls & Ex).
    exists (ls :: lss). cbn [map_M]. unfold bind. rewrite Ex, E. unfold ret.
    repeat split; try discriminate.
    constructor; [split|]; assumption.
Qed.

Lemma nodes_lines_flat (xs : list node) (d : nat) :
  Forall (flat u) xs ->
  exists lss,
    nodes_lines_with _generate_node xs (at_depth u d)
    = (Ok (map (String.concat nl) lss), at_depth u d)
    /\ Forall (lines_at u d) lss /\ (lss = [] <-> xs = []).
Proof.
  induction 1 as [|x xs Hx _ IH].
  - exists []. repeat split; constructor.
  - destruct IH as (lss & E & HF & _). destruct (Hx d) as (ls & Hne & Hls & Ex).
    exists (ls :: lss). cbn [nodes_lines_with]. unfold bind. rewrite Ex, E.
    unfold ret. rewrite (lines_at_truthy d ls) by (split; assumption).
    repeat split; try discriminate.
    constructor; [split|]; assumption.
Qed.

Lemma lines_at_concat (d : nat) (lss : list (list string)) :
  Forall (lines_at u d) lss -> Forall (line_at u d) (List.concat lss).
Proof.
  induction 1 as [|ls lss [_ Hls] _ IH]; simpl; [constructor|].
  apply Forall_app; split; assumption.
Qed.

Lemma lines_at_ne (d : nat) (lss : list (list string)) :
  Forall (lines_at u d) lss -> Forall (fun ls => ls <> []) lss.
Proof. apply Forall_impl. now intros ls [H _]. Qed.

Lemma generate_nodes_flat (xs : list node) (d : nat) :
  xs <> [] -> Forall (flat u) xs ->
  exists lines,
    lines_at u d lines
    /\ _generate_nodes xs (at_depth u d) = (Ok (String.concat nl lines), at_depth u d).
Proof.
  intros Hne HF. destruct (nodes_lines_flat xs d HF) as (lss & E & Hlss & Hnil).
  exists (List.concat lss). split; [split|].
  - intros Hc. destruct lss as [|ls lss]; [now apply Hne, Hnil|].
    inversion Hlss as [|? ? [Hls _] _]; subst. simpl in Hc.
    apply app_eq_nil in Hc. now destruct Hc.
  - now apply lines_at_concat.
  - unfold _generate_nodes, generate_nodes_with, bind. rewrite E. unfold ret.
    do 2 f_equal. apply same_text_chunks. now apply lines_at_ne in Hlss.
Qed.

Lemma block_flat (xs : list node) (d : nat) :
  xs <> [] -> Forall (flat u) xs ->
  exists lines,
    lines_at u (S d) lines
    /\ _generate_nodes xs (at_depth u (S d))
       = (Ok (String.concat nl lines), at_depth u (S d))
    /\ block_with _generate_node xs (at_depth u d)
       = (Ok (String.concat nl lines), at_depth u d).
Proof.
  intros Hne HF.
  destruct (generate_nodes_flat xs (S d) Hne HF) as (lines & Hl & E).
  exists lines. repeat split; try apply Hl; [exact E|].
  unfold block_with, bind. rewrite incr_at_depth.
  unfold _generate_nodes in E. rewrite E, decr_at_depth. reflexivity.
Qed.

Lemma clause_flat (keyword : string) (xs : list node) (d : nat) :
  visible keyword -> Forall (flat u) xs ->
  exists chunks lines,
    clause_with _generate_node (repeat_string u d) keyword xs (at_depth u d)
    = (Ok chunks, at_depth u d)
    /\ same_text chunks lines /\ Forall (line_at u d) lines.
Proof.
  intros Hk HF. unfold clause_with. destruct xs as [|x xs].
  - exists [], []. repeat split; constructor.
  - destruct (block_flat (x :: xs) d) as (bl & [Hne Hbl] & _ & E);
      [discriminate|assumption|].
    exists [repeat_string u d ++ keyword; String.concat nl bl],
           ((repeat_string u d ++ keyword) :: bl).
    cbn [list_truthy]. unfold bind. rewrite E. unfold ret.
    split; [reflexivity|]. split.
    + apply (same_text_app [_] [_] [_] bl);
        [apply same_text_refl|now apply same_text_single].
    + constructor; [now apply line_at_header|].
      eapply Forall_impl; [|exact Hbl]. intros l; apply line_at_shallower.
Qed.

Lemma chain_flat (xs : list node) (d : nat) :
  Forall (flat u) xs ->
  exists chunks lines,
    map_M _generate_node xs (at_depth u d) = (Ok chunks, at_depth u d)
    /\ same_text chunks lines /\ Forall (line_at u d) lines.
Proof.
  intros HF. destruct (map_M_flat xs d HF) as (lss & E & Hlss & _).
  exists (map (String.concat nl) lss), (List.concat lss).
  split; [exact E|]. split.
  - apply same_text_chunks. now apply lines_at_ne in Hlss.
  - now apply lines_at_concat.
Qed.

Lemma indented_flat (nd : node) : (forall d, indented_at u d nd) -> flat u nd.
Proof.
  intros H d.
  destruct (H d) as (hs & bl & tl & _ & Hv & E & Hb & Ht & Hne & _).
  exists (map (append (repeat_string u d)) hs +++ bl +++ tl).
  split; [|split; [|exact E]].
  - intros Hnil. apply Hne.
    apply app_eq_nil in Hnil. destruct Hnil as [H1 H2].
    apply map_eq_nil in H1. now rewrite H1, H2.
  - rewrite !Forall_app. repeat split.
    + apply All_Forall in Hv. apply Forall_map.
      eapply Forall_impl; [|exact Hv]. intros h; now apply line_at_header.
    + eapply Forall_impl; [|exact Hb]. intros l; apply line_at_shallower.
    + assumption.
Qed.

Lemma children_flat (xs : list node) :
  list_all node
    (fun nd => well_formed nd -> forall d, indented_at u d nd) xs ->
  All well_formed xs -> Forall (flat u) xs.
Proof.
  induction 1 as [|x Hx xs _ IH]; simpl; intros Hwf; constructor.
  - apply indented_flat. now apply Hx.
  - now apply IH.
Qed.

Ltac now_nonempty :=
  let Hnil := fresh in
  intros Hnil; apply app_eq_nil in Hnil; destruct Hnil as [_ Hnil];
  apply app_eq_nil in Hnil; destruct Hnil; contradiction.

Lemma header_nonempty (nd : node) (hs : list string) :
  header_text nd = Ok hs ->
  match nd with
  | ImportGroup _ => False
  | Comment text => str_truthy text = true
  | _ => True
  end ->
  hs <> [].
Proof.
  destruct nd; cbn [header_text]; intros H Hc;
    try contradiction;
    repeat match type of H with
           | context [node_truthy ?v] => is_var v; destruct v; cbn [node_truthy] in H
           | context [result_bind ?r _] =>
               lazymatch r with
               | Ok _ => fail
               | Raised _ => fail
               | _ => destruct r
               end; cbn [result_bind] in H
           end;
    try discriminate;
    try (inversion H; subst; try discriminate;
         intros Hnil; apply app_eq_nil in Hnil; destruct Hnil; discriminate).
  rewrite Hc in H. inversion H; discriminate.
Qed.

Ltac wf_start Hwf hs Eh Hv Hc :=
  cbn [well_formed] in Hwf; destruct Hwf as [Hv Hc];
  match type of Hv with
  | match ?h with _ => _ end =>
      destruct h as [hs|] eqn:Eh; [|contradiction]
  end.

Ltac loop_case :=
  match goal with
  | |- context [clause_with _ _ _ ?or_else] =>
      match goal with
      | |- context [block_with _ ?body] =>
          match goal with
          | |- context [at_depth _ ?d] =>
              let bl := fresh "bl" in
              let Hbne := fresh in let Hbl := fresh in
              let Eg := fresh in let Eb := fresh in
              let ec := fresh in let el := fresh "el" in
              let Eec := fresh in let Hes := fresh in let Hel := fresh in
              destruct (block_flat body d) as (bl & [Hbne Hbl] & Eg & Eb);
                try assumption;
              destruct (clause_flat "else:" or_else d)
                as (ec & el & Eec & Hes & Hel);
                try assumption; [split; reflexivity|];
              eexists _, bl, el; unfold bind; rewrite Eb, Eec; unfold ret;
              repeat split; try eassumption;
              [ do 2 f_equal; apply same_text_app; [apply same_text_refl|];
                apply same_text_app; [now apply same_text_single|assumption]
              | now_nonempty
              | let body' := fresh in let Hr := fresh in let Hb := fresh in
                intros body' Hr Hb; inversion Hb; subst; exact Eg ]
          end
      end
  end.

(** C6, the core: every statement of a well-formed tree is indented as
    [indented_at] says, at every depth. *)
Lemma well_formed_indented (nd : node) :
  well_formed nd -> forall d, indented_at u d nd.
Proof.
  induction nd; intros Hwf d; wf_start Hwf hs Eh Hv Hc.
  all: unfold indented_at.
  all: try (exists hs, [], []; rewrite generate_node_factored, Eh, indent_at_depth;
            cbn [render_below]; unfold ret; rewrite !app_nil_r;
            repeat split; try constructor; try assumption;
            [ eapply header_nonempty; [exact Eh|exact I || assumption]
            | intros body' Hr Hb; first [discriminate Hr|discriminate Hb] ]).
  all: repeat match goal with
         | H : _ /\ _ |- _ => destruct H
         end.
  all: repeat match goal with
         | X : list_all node _ ?l, H : All well_formed ?l |- _ =>
             pose proof (children_flat l X H); clear X
         end.
  all: rewrite generate_node_factored, Eh, indent_at_depth; cbn [render_below].
  (* import group *)
  1: { destruct (generate_nodes_flat imports d) as (lines & [Hne Hl] & E);
         try assumption.
       inversion Eh; subst hs.
       exists [], [], lines. unfold _generate_nodes in E. rewrite E.
       repeat split; try constructor; try assumption.
       intros body' Hr Hb; discriminate Hb. }
  (* a body and nothing after it *)
  all: try match goal with
         | |- context [bind (block_with _ ?body) (fun _ => ret _)] =>
             destruct (block_flat body d) as (bl & [Hbne Hbl] & Eg & Eb);
               try assumption;
             exists hs, bl, []; unfold bind; rewrite Eb; unfold ret;
             repeat split; try constructor; try assumption;
             [ do 2 f_equal; rewrite app_nil_r;
               apply same_text_app;
                 [apply same_text_refl|now apply same_text_single]
             | intros Hnil; apply app_eq_nil in Hnil; destruct Hnil as [_ Hnil];
               apply app_eq_nil in Hnil; destruct Hnil; contradiction
             | intros body' Hr Hb; inversion Hb; subst; exact Eg ]
         end.
  - (* If *)
    destruct (block_flat body d) as (bl & [Hbne Hbl] & Eg & Eb); try assumption.
    destruct (chain_flat or_else d) as (chunks & cl & Ec & Hs & Hcl);
      try assumption.
    exists hs, bl, cl. unfold bind. rewrite Eb, Ec. unfold ret.
    repeat split; try assumption.
    + do 2 f_equal. apply same_text_app; [apply same_text_refl|].
      apply same_text_app; [now apply same_text_single|assumption].
    + now_nonempty.
    + intros body' Hr Hb; inversion Hb; subst; exact Eg.
  - (* Match: the cases are rendered one level deeper *)
    destruct (chain_flat cases (S d)) as (chunks & cl & Ec & Hs & Hcl);
      try assumption.
    exists hs, cl, []. unfold bind. rewrite incr_at_depth, Ec, decr_at_depth.
    unfold ret. repeat split; try constructor; try assumption.
    + do 2 f_equal. rewrite app_nil_r.
      apply same_text_app; [apply same_text_refl|assumption].
    + intros Hnil. apply app_eq_nil in Hnil. destruct Hnil as [Hnil _].
      revert Hnil. eapply header_nonempty; [exact Eh|exact I].
    + intros body' Hr Hb; discriminate Hb.
  - (* For *) loop_case.
  - (* AsyncFor *) loop_case.
  - (* While *) loop_case.
  - (* Try *)
    destruct (block_flat body d) as (bl & [Hbne Hbl] & Eg & Eb); try assumption.
    destruct (chain_flat handlers d) as (hc & hl & Ehc & Hhs & Hhl);
      try assumption.
    destruct (clause_flat "else:" or_else d) as (ec & el & Eec & Hes & Hel);
      try assumption; [split; reflexivity|].
    destruct (clause_flat "finally:" finalbody d)
      as (fc & fl & Efc & Hfs & Hfl); try assumption; [split; reflexivity|].
    exists hs, bl, (hl +++ el +++ fl). unfold bind.
    rewrite Eb, Ehc, Eec, Efc. unfold ret.
    repeat split; try assumption.
    + do 2 f_equal. apply same_text_app; [apply same_text_refl|].
      apply same_text_app; [now apply same_text_single|].
      apply same_text_app; [assumption|].
      apply same_text_app; assumption.
    + rewrite !Forall_app. repeat split; assumption.
    + now_nonempty.
    + intros body' Hr Hb; inversion Hb; subst; exact Eg.
Qed.

End Indentation.

(** C6.  For every well-formed tree, every indentation unit and every
    depth [d]: a node rendered at depth [d] has each of its header lines
    made of exactly [d] repetitions of the unit followed by the header text,
    and each line of its body starts with [d + 1] repetitions, the body
    being rendered as a sequence at depth [d + 1]. *)
Theorem C6_indentation_invariant (u : string) (d : nat) (nd : node) :
  well_formed nd ->
  indented_at u d nd.
Proof. intros Hwf. now apply well_formed_indented. Qed.

(** ** The renderer: the placeholder *)













End RendererProperties.

(** ** Further properties of the builder *)

Lemma current_body_append_effect (nd : node) (b b' : Builder) :
  current_body_append nd b = Done b' ->
  (exists added, root_nodes b' = root_nodes b +++ added)
  /\ List.length (_stack b') = List.length (_stack b).
Proof.
  unfold current_body_append. intros H.
  destruct (_stack b) as [|[parent|tb] rest] eqn:E;
    [| destruct (get_body parent) as [[stmts|e]|]; try discriminate |];
    inversion H; subst; cbn [root_nodes _stack List.length];
    rewrite ?E; (split; [|reflexivity]);
    first [ now exists [nd] | exists []; now rewrite app_nil_r ].
Qed.

Ltac exit_cases H :=
  unfold scoped_exit, ElifBuilder_exit, ElseBuilder_exit, CaseBuilder_exit,
    ExceptBuilder_exit, FinallyBuilder_exit, _pop_node, stack_pop in H;
  cbn [outcome_bind] in H.

(** What one call does to the two lists of the builder when it returns. *)
Lemma step_effect (o : op) (b b' : Builder) :
  step o b = Done b' ->
  (exists added, root_nodes b' = root_nodes b +++ added)
  /\ List.length (_stack b') + count_exit [o]
     = List.length (_stack b) + count_enter [o].
Proof.
  destruct o as [nd|c|c]; cbn [step count_exit count_enter]; intros H.
  - apply current_body_append_effect in H. destruct H as [H1 H2].
    split; [assumption|lia].
  - unfold scoped_enter in H. destruct (scoped_init c) as [[nd|tb]| |];
      cbn [outcome_bind] in H; inversion H; subst; simpl;
      (split; [exists []; now rewrite app_nil_r|lia]).
  - assert (Hpop : exists f rest, _stack b = f :: rest).
    { destruct (_stack b) as [|f rest] eqn:E; [|eauto].
      destruct c; exit_cases H; rewrite E in H; discriminate. }
    destruct Hpop as (f & rest & E).
    assert (Hgoal :
      (exists added, root_nodes b' = root_nodes b +++ added)
      /\ List.length (_stack b') = List.length rest).
    { destruct c; exit_cases H; rewrite E in H; cbn [outcome_bind] in H;
        destruct f as [nd|tb]; try discriminate;
        unfold root_append, set_top, outcome_bind, fill_body in H;
        cbn [root_nodes _stack tl] in H;
        repeat match type of H with
               | context [match ?x with _ => _ end] => destruct x eqn:?
               end;
        try discriminate;
        try (apply current_body_append_effect in H; exact H);
        inversion H; subst; cbn [root_nodes _stack List.length];
        (split; [|reflexivity]);
        first [ exists []; now rewrite app_nil_r | eexists; reflexivity ]. }
    destruct Hgoal as [H1 H2]. split; [assumption|]. rewrite E, H2. simpl. lia.
Qed.

Lemma top_grown_refl (s : list frame) : top_grown s s.
Proof. destruct s; simpl; auto. Qed.

Lemma top_grown_trans (s1 s2 s3 : list frame) :
  top_grown s1 s2 -> top_grown s2 s3 -> top_grown s1 s3.
Proof.
  destruct s1, s2, s3; simpl; try tauto.
  intros [-> E1] [-> E2]. split; congruence.
Qed.

Lemma top_grown_pushed (s s' : list frame) :
  top_grown s s' -> Forall pushed_by_builder s -> Forall pushed_by_builder s'.
Proof.
  destruct s, s'; simpl; try tauto. intros [-> E] H.
  inversion H; subst. constructor; [|assumption].
  unfold pushed_by_builder in *. congruence.
Qed.

Lemma sort_set_body (nd : node) (stmts stmts' : list node) :
  get_body nd = Some (BodyList stmts) ->
  sort_of (FNode (set_body nd stmts')) = sort_of (FNode nd).
Proof.
  intros H. unfold sort_of.
  now rewrite (get_body_set_body nd stmts stmts' H), H.
Qed.

Lemma sort_fill_list_body (nd : node) :
  sort_of (FNode (fill_list_body nd)) = sort_of (FNode nd).
Proof.
  unfold fill_list_body.
  destruct (get_body nd) as [[[|s l]|e]|] eqn:E; try reflexivity.
  now apply (sort_set_body nd []).
Qed.

(** Appending to the current body returns on a stack of builder entries. *)
Lemma current_body_append_safe (nd : node) (b : Builder) :
  Forall pushed_by_builder (_stack b) ->
  exists b', current_body_append nd b = Done b'
             /\ top_grown (_stack b) (_stack b').
Proof.
  intros H. unfold current_body_append.
  destruct (_stack b) as [|[parent|tb] rest] eqn:E.
  - eexists; split; [reflexivity|]. simpl; auto.
  - inversion H as [|? ? Hp _]; subst. unfold pushed_by_builder, sort_of in Hp.
    destruct (get_body parent) as [[stmts|e]|] eqn:Eb.
    + eexists; split; [reflexivity|]. simpl. split; [reflexivity|].
      unfold sort_of. now rewrite (get_body_set_body parent stmts _ Eb), Eb.
    + congruence.
    + eexists; split; [reflexivity|]. simpl. auto.
  - eexists; split; [reflexivity|]. simpl; auto.
Qed.

Lemma sort_or_else_extend (p : node) (nds : list node) :
  sort_of (FNode (or_else_extend p nds)) = sort_of (FNode p).
Proof. destruct p; reflexivity. Qed.

Lemma fill_body_list (nd : node) (stmts : list node) :
  get_body nd = Some (BodyList stmts) ->
  exists nd', fill_body nd = Done nd'
              /\ get_body nd' = Some (BodyList (auto_filled stmts)).
Proof.
  intros H. unfold fill_body. rewrite H. destruct stmts as [|s l].
  - eexists; split; [reflexivity|]. now apply (get_body_set_body nd []).
  - eexists; split; [reflexivity|]. exact H.
Qed.

Lemma as_If_While_Try_frame (f : frame) (p : node) :
  as_If_While_Try f = Some p -> f = FNode p.
Proof.
  destruct f as [nd|tb]; [|discriminate].
  destruct nd; simpl; intros H; inversion H; reflexivity.
Qed.

(** An exit handler returns when the entry it pops is of the sort its own
    builder pushed and the entries below are builder entries. *)
Lemma scoped_exit_safe (c : scoped) (f f' : frame) (root : list node)
  (rest : list frame) :
  scoped_init c = Done f ->
  sort_of f' = sort_of f ->
  Forall pushed_by_builder rest ->
  exists b', scoped_exit c {| root_nodes := root; _stack := f' :: rest |} = Done b'
             /\ top_grown rest (_stack b').
Proof.
  intros Hinit Hsort Hrest.
  assert (Hcur : forall nd,
             exists b', current_body_append nd
                          {| root_nodes := root; _stack := rest |} = Done b'
                        /\ top_grown rest (_stack b'))
    by (intros nd; now apply current_body_append_safe).
  destruct c; cbn in Hinit;
    try (destruct decorators_list; try discriminate);
    try (destruct is_async);
    inversion Hinit; subst f; cbn in Hsort;
    destruct f' as [nd|tb]; try discriminate;
    unfold scoped_exit, ElifBuilder_exit, ElseBuilder_exit, CaseBuilder_exit,
      ExceptBuilder_exit, FinallyBuilder_exit, _pop_node, stack_pop;
    cbn [outcome_bind _stack root_nodes];
    try apply Hcur.
  all: try (unfold sort_of in Hsort;
            destruct (get_body nd) as [[stmts|e]|] eqn:Eb; try discriminate).
  all: try (destruct (fill_body_list nd stmts Eb) as (nd' & -> & Eb');
            cbn [outcome_bind _stack]).
  - (* ElifBuilder *)
    destruct rest as [|parent rest'];
      [eexists; split; [reflexivity|simpl; auto]|].
    destruct (as_If_While_Try parent) as [p|] eqn:Ea; [|apply Hcur].
    apply as_If_While_Try_frame in Ea; subst parent.
    eexists; split; [reflexivity|]. simpl. split; [reflexivity|].
    apply sort_or_else_extend.
  - (* ElseBuilder *)
    destruct rest as [|parent rest'];
      [eexists; split; [reflexivity|simpl; auto]|].
    destruct (as_If_While_Try parent) as [p|] eqn:Ea; [|apply Hcur].
    apply as_If_While_Try_frame in Ea; subst parent. rewrite Eb'.
    eexists; split; [reflexivity|]. simpl. split; [reflexivity|].
    apply sort_or_else_extend.
  - (* CaseBuilder *)
    destruct rest as [|[[]|] rest']; eexists; (split; [reflexivity|]);
      simpl; auto.
  - (* ExceptBuilder *)
    destruct rest as [|[[]|] rest']; try apply Hcur;
      eexists; (split; [reflexivity|]); simpl; auto.
  - (* FinallyBuilder *)
    destruct rest as [|[[]|] rest']; eexists; (split; [reflexivity|]);
      simpl; auto.
Qed.

Lemma scoped_enter_safe (c : scoped) (f : frame) (b : Builder) :
  scoped_init c = Done f ->
  scoped_enter c b
  = Done {| root_nodes := root_nodes b; _stack := f :: _stack b |}
  /\ pushed_by_builder f.
Proof.
  intros H. unfold scoped_enter. rewrite H. cbn [outcome_bind]. split.
  - destruct f; reflexivity.
  - destruct c; cbn in H;
      try (destruct decorators_list; try discriminate);
      try (destruct is_async);
      inversion H; discriminate.
Qed.

(** A block run on a stack of builder entries returns, and the stack it
    leaves is the one it found, its top entry possibly mutated. *)
Lemma item_safe (i : block_item) :
  constructible i ->
  forall b, Forall pushed_by_builder (_stack b) ->
  exists b', run (item_ops i) b = Done b' /\ top_grown (_stack b) (_stack b').
Proof.
  induction i as [nd|c block IH]; intros Hc b Hb.
  - cbn [item_ops run step]. unfold add_node.
    destruct (current_body_append_safe nd b Hb) as (b' & -> & Hg).
    exists b'. split; [reflexivity|assumption].
  - cbn [constructible] in Hc. destruct Hc as [[f Hf] Hblock].
    cbn [item_ops]. unfold with_. cbn [run step].
    destruct (scoped_enter_safe c f b Hf) as [-> Hpf]. cbn [outcome_bind].
    rewrite run_app.
    assert (Hrun : forall b1, Forall pushed_by_builder (_stack b1) ->
              exists b2, run (flat_map item_ops block) b1 = Done b2
                         /\ top_grown (_stack b1) (_stack b2)).
    { clear - IH Hblock. induction IH as [|i Hi block _ IHb]; intros b1 H1.
      - exists b1. split; [reflexivity|apply top_grown_refl].
      - cbn [flat_map]. rewrite run_app. destruct Hblock as [Hci Hcb].
        destruct (Hi Hci b1 H1) as (b2 & -> & G12). cbn [outcome_bind].
        destruct (IHb Hcb b2 (top_grown_pushed _ _ G12 H1)) as (b3 & E & G23).
        exists b3. split; [assumption|]. eapply top_grown_trans; eassumption. }
    destruct (Hrun {| root_nodes := root_nodes b; _stack := f :: _stack b |})
      as (b2 & -> & G); [constructor; assumption|].
    cbn [outcome_bind run step].
    cbn [_stack] in G. destruct b2 as [root2 stack2]. cbn [_stack] in G.
    destruct stack2 as [|f2 rest2]; [contradiction|]. destruct G as [-> Hs].
    destruct (scoped_exit_safe c f f2 root2 (_stack b) Hf Hs Hb) as (b3 & -> & G3).
    exists b3. split; [reflexivity|assumption].
Qed.

Lemma count_enter_app (ops1 ops2 : list op) :
  count_enter (ops1 +++ ops2) = count_enter ops1 + count_enter ops2.
Proof. induction ops1 as [|[]]; simpl; auto. Qed.

Lemma count_exit_app (ops1 ops2 : list op) :
  count_exit (ops1 +++ ops2) = count_exit ops1 + count_exit ops2.
Proof. induction ops1 as [|[]]; simpl; auto. Qed.

(** What a sequence of calls does to the two lists of the builder when it
    returns. *)
Lemma run_effect (ops : list op) : forall b b',
  run ops b = Done b' ->
  (exists added, root_nodes b' = root_nodes b +++ added)
  /\ List.length (_stack b') + count_exit ops
     = List.length (_stack b) + count_enter ops.
Proof.
  induction ops as [|o ops IH]; intros b b' H.
  - inversion H; subst. split; [exists []; now rewrite app_nil_r|reflexivity].
  - cbn [run] in H. destruct (step o b) as [b1| |] eqn:E; try discriminate.
    cbn [outcome_bind] in H.
    destruct (step_effect o b b1 E) as [[a1 R1] D1].
    destruct (IH b1 b' H) as [[a2 R2] D2]. split.
    + exists (a1 +++ a2). now rewrite R2, R1, app_assoc.
    + change (o :: ops) with ([o] +++ ops).
      rewrite count_exit_app, count_enter_app. lia.
Qed.

(** X1.  The top-level sequence is only ever appended to: whatever calls are
    made, when they return the nodes that were in [root_nodes] are still
    there, in the same order and in front. *)
Theorem root_nodes_append_only (ops : list op) (b b' : Builder) :
  run ops b = Done b' ->
  exists added, root_nodes b' = root_nodes b +++ added.
Proof. intros H. now apply (run_effect ops b b'). Qed.

(** X2.  Every entry pushes one stack entry and every exit pops one; adding
    a statement leaves the depth of the stack alone. *)
Theorem stack_depth_accounting (ops : list op) (b b' : Builder) :
  run ops b = Done b' ->
  List.length (_stack b') + count_exit ops
  = List.length (_stack b) + count_enter ops.
Proof. intros H. now apply (run_effect ops b b'). Qed.

(** X3.  Closing one block too many. After calls that returned and closed as
    many blocks as they opened on an empty stack, one more exit handler, of
    any builder class, raises [IndexError]. *)
Theorem unbalanced_exit_raises (ops : list op) (c : scoped)
  (root : list node) (b' : Builder) :
  run ops {| root_nodes := root; _stack := [] |} = Done b' ->
  count_exit ops = count_enter ops ->
  run (ops +++ [Exit c]) {| root_nodes := root; _stack := [] |}
  = Throws IndexError.
Proof.
  intros H Hc. rewrite run_app, H. cbn [outcome_bind run step].
  apply run_effect in H. destruct H as [_ Hd]. cbn [_stack List.length] in Hd.
  destruct b' as [root' st]. cbn [_stack] in Hd.
  destruct st as [|f st]; [|cbn [List.length] in Hd; lia].
  destruct c; reflexivity.
Qed.

Lemma block_safe (block : list block_item) :
  All constructible block ->
  forall b, Forall pushed_by_builder (_stack b) ->
  exists b', run (block_ops block) b = Done b'
             /\ top_grown (_stack b) (_stack b').
Proof.
  unfold block_ops.
  induction block as [|i block IH]; intros Hc b Hb.
  - exists b. split; [reflexivity|apply top_grown_refl].
  - destruct Hc as [Hi Hblock]. cbn [flat_map]. rewrite run_app.
    destruct (item_safe i Hi b Hb) as (b1 & -> & G1). cbn [outcome_bind].
    destruct (IH Hblock b1 (top_grown_pushed _ _ G1 Hb)) as (b2 & E & G2).
    exists b2. split; [assumption|]. eapply top_grown_trans; eassumption.
Qed.

(** X4.  Scoped use is safe. A block of nested [with] statements and added
    statements, all of whose builders can be constructed, run on a stack
    whose entries the builders pushed: every call returns (no exception,
    nothing outside the model), the stack comes back with the same depth and
    the same entries below its top, and the top-level sequence has only
    grown. *)
Theorem scoped_block_safe (block : list block_item) (b : Builder) :
  All constructible block ->
  Forall pushed_by_builder (_stack b) ->
  exists b',
    run (block_ops block) b = Done b'
    /\ List.length (_stack b') = List.length (_stack b)
    /\ tl (_stack b') = tl (_stack b)
    /\ Forall pushed_by_builder (_stack b')
    /\ exists added, root_nodes b' = root_nodes b +++ added.
Proof.
  intros Hc Hb. destruct (block_safe block Hc b Hb) as (b' & E & G).
  exists b'. split; [assumption|].
  assert (Hp := top_grown_pushed _ _ G Hb).
  assert (Hr := proj1 (run_effect _ _ _ E)).
  destruct (_stack b) as [|f rest], (_stack b') as [|f' rest'];
    simpl in G; try contradiction.
  - repeat split; assumption.
  - destruct G as [-> _]. repeat split; assumption.
Qed.

Lemma run_add_nodes_no_body (stmts : list node) : forall nd root rest,
  get_body nd = None ->
  run (map AddNode stmts) {| root_nodes := root; _stack := FNode nd :: rest |}
  = Done {| root_nodes := root +++ stmts; _stack := FNode nd :: rest |}.
Proof.
  induction stmts as [|s stmts IH]; intros nd root rest Hb; simpl.
  - now rewrite app_nil_r.
  - unfold add_node, current_body_append; simpl. rewrite Hb. simpl.
    rewrite IH by assumption. now rewrite <- app_assoc.
Qed.

(** X5.  Statements added inside a match block but outside any case clause
    do not belong to the match: [Match] has no [body], so they are appended
    to [root_nodes], whatever the stack holds below, and closing the block
    on an empty stack puts the match, still without cases, after them. *)
Theorem statements_inside_match_go_to_root (subject : node)
  (stmts root : list node) (rest : list frame) :
  run (Enter (MatchBuilder subject) :: map AddNode stmts)
    {| root_nodes := root; _stack := rest |}
  = Done {| root_nodes := root +++ stmts;
            _stack := FNode (Match (Some subject) []) :: rest |}
  /\ run (with_ (MatchBuilder subject) (map AddNode stmts))
       {| root_nodes := root; _stack := [] |}
     = Done {| root_nodes := root +++ stmts +++ [Match (Some subject) []];
               _stack := [] |}.
Proof.
  split.
  - cbn [run step scoped_enter scoped_init outcome_bind]. unfold _push_node.
    cbn [root_nodes _stack outcome_bind].
    now rewrite run_add_nodes_no_body.
  - unfold with_. cbn [run step scoped_enter scoped_init outcome_bind].
    unfold _push_node. cbn [root_nodes _stack outcome_bind].
    rewrite run_app, run_add_nodes_no_body by reflexivity.
    cbn. now rewrite <- app_assoc.
Qed.

Lemma fill_list_body_idem (nd : node) :
  fill_list_body (fill_list_body nd) = fill_list_body nd.
Proof.
  assert (H := eq_refl (fill_list_body nd)).
  unfold fill_list_body at 2 in H.
  destruct (get_body nd) as [[[|s l]|e]|] eqn:E; rewrite H;
    unfold fill_list_body;
    rewrite ?(get_body_set_body nd [] [Pass] E), ?E; reflexivity.
Qed.

Lemma fill_list_body_not_empty (nd : node) :
  get_body (fill_list_body nd) <> Some (BodyList []).
Proof.
  unfold fill_list_body.
  destruct (get_body nd) as [[[|s l]|e]|] eqn:E; rewrite ?E; try discriminate.
  now rewrite (get_body_set_body nd [] [Pass] E).
Qed.

(** X6.  Leaving the builder's own [with] block fills the empty bodies of
    the top-level nodes, and only those: afterwards no top-level node has an
    empty body list; each top-level node stays in its place, with the
    placeholder as its body when the body was empty and as it was otherwise,
    also when a body nested inside it is empty; and leaving a second time
    changes nothing. *)
Theorem Builder_exit_fills_root_bodies (b : Builder) :
  Forall (fun nd => get_body nd <> Some (BodyList []))
    (root_nodes (Builder_exit b))
  /\ (forall i nd,
        nth_error (root_nodes b) i = Some nd ->
        nth_error (root_nodes (Builder_exit b)) i
        = Some (if match get_body nd with
                   | Some (BodyList []) => true
                   | _ => false
                   end
                then set_body nd [Pass] else nd))
  /\ List.length (root_nodes (Builder_exit b)) = List.length (root_nodes b)
  /\ Builder_exit (Builder_exit b) = Builder_exit b.
Proof.
  unfold Builder_exit, _ensure_pass_in_empty_bodies. cbn [root_nodes _stack].
  repeat split.
  - apply Forall_map, Forall_forall. intros nd _.
    apply fill_list_body_not_empty.
  - intros i nd H. rewrite nth_error_map, H. cbn. f_equal.
    unfold fill_list_body. destruct (get_body nd) as [[[|s l]|e]|]; reflexivity.
  - apply length_map.
  - f_equal. rewrite map_map. apply map_ext. intros nd.
    apply fill_list_body_idem.
Qed.

Lemma pops_own_body_init (c : scoped) :
  pops_own_body c = true ->
  scoped_init c = Done (FNode (initial_node c))
  /\ get_body (initial_node c) = Some (BodyList [])
  /\ forall b, scoped_exit c b = _pop_node b.
Proof.
  destruct c; try discriminate;
    try (destruct decorators_list; try discriminate);
    intros _; repeat split;
    unfold initial_node; cbn; destruct is_async; reflexivity.
Qed.

Lemma run_block_into_body (block : list block_item) :
  list_all block_item
    (fun i => plain_block i ->
              forall b, run (item_ops i) b = add_node (built i) b) block ->
  All plain_block block ->
  forall nd body root rest,
    get_body nd = Some (BodyList body) ->
    run (flat_map item_ops block)
      {| root_nodes := root; _stack := FNode nd :: rest |}
    = Done {| root_nodes := root;
              _stack := FNode (set_body nd (body +++ map built block)) :: rest |}.
Proof.
  induction 1 as [|i Hi block _ IH]; intros Hp nd body root rest Hb.
  - cbn. rewrite app_nil_r. do 3 f_equal.
    destruct nd; simpl in *; try discriminate; inversion Hb; reflexivity.
  - destruct Hp as [Hpi Hp]. cbn [flat_map map]. rewrite run_app, (Hi Hpi).
    unfold add_node, current_body_append. cbn [_stack root_nodes].
    rewrite Hb. cbn [outcome_bind].
    rewrite (IH Hp _ (body +++ [built i]) root rest
               (get_body_set_body nd body _ Hb)).
    now rewrite set_body_set_body, <- app_assoc.
Qed.

(** X7.  Nested blocks compose. A [with] statement over a builder that pops
    its own node, with a block of statements and further such [with]
    statements, acts on the builder exactly as one [add_node] of the
    finished node: the builder's node with the nodes of the block as its
    body, or with the placeholder when the block is empty. *)
Theorem plain_block_is_add_node (i : block_item) (b : Builder) :
  plain_block i ->
  run (item_ops i) b = add_node (built i) b.
Proof.
  intros Hp. revert b. induction i as [nd|c block IH]; intros b.
  - cbn. now destruct (add_node nd b).
  - destruct Hp as [Hc Hp].
    destruct (pops_own_body_init c Hc) as (Hinit & Hbody & Hexit).
    cbn [item_ops built]. unfold with_. cbn [run step]. unfold scoped_enter.
    rewrite Hinit. cbn [outcome_bind]. unfold _push_node.
    rewrite run_app.
    rewrite (run_block_into_body block) with (body := []);
      [|exact IH|exact Hp|exact Hbody].
    cbn [outcome_bind app run step]. rewrite Hexit.
    unfold _pop_node, stack_pop. cbn [_stack root_nodes outcome_bind].
    rewrite (fill_list_body_set_body _ [] _ Hbody).
    destruct b as [root st]. cbn [_stack root_nodes].
    unfold add_node. now destruct (current_body_append _ _).
Qed.

(** ** Further properties of the renderer *)

Section RendererFailures.

Context {py : PyRuntime}.

Lemma mild_ok {A} (a : A) : mild (Ok a).
Proof. intros e H; discriminate. Qed.

Lemma mild_type_error {A} : mild (@Raised A TypeError).
Proof. intros e H; inversion H; now left. Qed.

Lemma mild_attribute_error {A} : mild (@Raised A AttributeError).
Proof. intros e H; inversion H; right; now left. Qed.

Lemma mild_name_error {A} : mild (@Raised A NameError).
Proof. intros e H; inversion H; right; now right. Qed.

Lemma mild_bind {A B} (r : result A) (k : A -> result B) :
  mild r -> (forall a, mild (k a)) -> mild (result_bind r k).
Proof.
  intros Hr Hk e H. destruct r as [a|e']; simpl in H.
  - now apply (Hk a).
  - inversion H; subst. now apply Hr.
Qed.

Lemma mild_map_result {A B} (f : A -> result B) (xs : list A) :
  Forall (fun x => mild (f x)) xs -> mild (map_result f xs).
Proof.
  induction 1 as [|x xs Hx _ IH]; simpl.
  - apply mild_ok.
  - apply mild_bind; [assumption|intros].
    apply mild_bind; [assumption|intros]. apply mild_ok.
Qed.

Lemma mild_str_join (sep : string) (parts : list str_or_none) :
  mild (str_join sep parts).
Proof.
  unfold str_join. destruct (all_str parts); [apply mild_ok|apply mild_type_error].
Qed.

Lemma mild_safe (o : option node) :
  option_all node expr_mild o -> mild (_safe_generate_expr o).
Proof. destruct 1 as [e He|]; [apply He|apply mild_ok]. Qed.

Lemma mild_exprs (xs : list node) :
  list_all node expr_mild xs -> mild (map_result _generate_expr xs).
Proof.
  intros H. apply mild_map_result. apply list_all_Forall in H.
  eapply Forall_impl; [|exact H]. intros e He; apply He.
Qed.

Lemma mild_comprehensions (xs : list node) :
  list_all node expr_mild xs ->
  mild (map_result (comprehension_with _generate_expr) xs).
Proof.
  intros H. apply mild_map_result. apply list_all_Forall in H.
  eapply Forall_impl; [|exact H]. intros e He; apply He.
Qed.

Lemma mild_with_items (xs : list node) :
  list_all node expr_mild xs ->
  mild (map_result _safe_generate_with_item xs).
Proof.
  intros H. apply mild_map_result. apply list_all_Forall in H.
  eapply Forall_impl; [|exact H]. intros e He; apply He.
Qed.

Lemma mild_if_clauses (xs : list node) :
  list_all node expr_mild xs ->
  mild (map_result (fun if_clause =>
                      let? if_str := _generate_expr if_clause in
                      Ok ("if " ++ fmt if_str)) xs).
Proof.
  intros H. apply mild_map_result. apply list_all_Forall in H.
  eapply Forall_impl; [|exact H]. intros e He.
  apply mild_bind; [apply He|intros; apply mild_ok].
Qed.

Lemma mild_arguments (o : option node) :
  option_all node expr_mild o ->
  mild match o with
       | Some a => _generate_arguments a
       | None => Ok ""
       end.
Proof. destruct 1 as [e He|]; [apply He|apply mild_ok]. Qed.

Lemma mild_compare_parts (comparators : list node) :
  list_all node expr_mild comparators ->
  forall ops, mild (compare_parts_with _generate_expr comparators ops).
Proof.
  induction 1 as [|c Hc cs _ IH]; intros [|o ops]; simpl; try apply mild_ok.
  apply mild_bind; [apply Hc|intros].
  apply mild_bind; [apply IH|intros]. apply mild_ok.
Qed.

Lemma mild_call_keywords (keywords : list node) :
  list_all node expr_mild keywords ->
  mild (call_keywords_with _generate_expr keywords).
Proof.
  induction 1 as [|k Hk ks _ IH]; simpl; [apply mild_ok|].
  destruct k; try assumption.
  apply mild_bind; [apply Hk|intros].
  apply mild_bind; [assumption|intros]. apply mild_ok.
Qed.

Lemma mild_join_exprs (sep : string) (xs : list node) :
  list_all node expr_mild xs -> mild (join_exprs sep xs).
Proof.
  intros H. unfold join_exprs.
  apply mild_bind; [now apply mild_exprs|intros; apply mild_str_join].
Qed.

Ltac mild_step :=
  first
    [ apply mild_ok
    | apply mild_attribute_error
    | apply mild_type_error
    | apply mild_name_error
    | apply mild_str_join
    | apply mild_safe; assumption
    | apply mild_exprs; assumption
    | apply mild_comprehensions; assumption
    | apply mild_with_items; assumption
    | apply mild_if_clauses; assumption
    | apply mild_arguments; assumption
    | apply mild_compare_parts; assumption
    | apply mild_call_keywords; assumption
    | apply mild_join_exprs; assumption
    | apply mild_bind; [|intros ?]
    | match goal with
      | |- mild (if ?c then _ else _) => destruct c
      | |- mild (match ?v with _ => _ end) => is_var v; destruct v
      | H : option_all _ _ (Some _) |- _ => inversion H; subst; clear H
      | |- mild (_generate_expr ?e) =>
          match goal with H : expr_mild e |- _ => apply H end
      end ].

Lemma generate_expr_mild (e : node) : expr_mild e.
Proof.
  induction e; unfold expr_mild, _generate_arguments, _generate_comprehension,
    _safe_generate_with_item;
    cbn [_generate_expr arguments_with comprehension_with];
    fold _safe_generate_expr; fold _generate_arguments;
    repeat split; repeat mild_step.
Qed.

End RendererFailures.

Section RendererCounter.

Context {py : PyRuntime}.

Lemma fails_ret {A} (a : A) : fails_deeper (ret a).
Proof. intros g e g' H; discriminate. Qed.

Lemma fails_current_indent : fails_deeper current_indent.
Proof. intros g e g' H; discriminate. Qed.

Lemma fails_lift {A} (r : result A) : mild r -> fails_deeper (lift r).
Proof.
  intros Hr g e g' H. unfold lift in H. inversion H; subst.
  repeat split; [now apply Hr|lia].
Qed.

Lemma fails_bind {A B} (m : M A) (k : A -> M B) :
  keeps m -> fails_deeper m -> (forall a, fails_deeper (k a)) ->
  fails_deeper (bind m k).
Proof.
  intros Hk Hm Hf g e g' H. unfold bind in H.
  destruct (m g) as [[a|e1] g1] eqn:E.
  - apply Hk in E; subst g1. now apply (Hf a).
  - inversion H; subst. now apply Hm.
Qed.

(** The pattern around every body: an exception inside leaves the counter
    above its start, an exception after the decrement at its start or
    above. *)
Lemma fails_indented {A B} (m : M A) (k : A -> M B) :
  keeps m -> fails_deeper m -> (forall a, fails_deeper (k a)) ->
  fails_deeper (let* _ := indent_incr in
                let* a := m in
                let* _ := indent_decr in
                k a).
Proof.
  intros Hk Hm Hf g e g' H. unfold bind, indent_incr, indent_decr in H.
  destruct (m _) as [[a|e1] g1] eqn:E.
  - apply Hk in E; subst g1. apply Hf in H. cbn in H.
    destruct H as (He & Hc & Hl). repeat split; [assumption..|lia].
  - inversion H; subst. apply Hm in E. cbn in E.
    destruct E as (He & Hc & Hl). repeat split; [assumption..|lia].
Qed.

Section FailureLoops.

Variable gen : node -> M string.
Hypothesis gen_keeps : forall x, keeps (gen x).

Lemma all_keep (xs : list node) : Forall (fun x => keeps (gen x)) xs.
Proof. apply Forall_forall; intros; apply gen_keeps. Qed.

Lemma fails_map_M (xs : list node) :
  Forall (fun x => fails_deeper (gen x)) xs -> fails_deeper (map_M gen xs).
Proof.
  induction 1 as [|x xs Hx _ IH]; simpl.
  - apply fails_ret.
  - apply fails_bind; [apply gen_keeps|assumption|intros].
    apply fails_bind; [apply keeps_map_M, all_keep|assumption|intros].
    apply fails_ret.
Qed.

Lemma fails_nodes_lines (xs : list node) :
  Forall (fun x => fails_deeper (gen x)) xs ->
  fails_deeper (nodes_lines_with gen xs).
Proof.
  induction 1 as [|x xs Hx _ IH]; simpl.
  - apply fails_ret.
  - apply fails_bind; [apply gen_keeps|assumption|intros].
    apply fails_bind; [apply keeps_nodes_lines, all_keep|assumption|intros].
    apply fails_ret.
Qed.

Lemma fails_generate_nodes (xs : list node) :
  Forall (fun x => fails_deeper (gen x)) xs ->
  fails_deeper (generate_nodes_with gen xs).
Proof.
  intros H. unfold generate_nodes_with.
  apply fails_bind;
    [apply keeps_nodes_lines, all_keep|now apply fails_nodes_lines|intros].
  apply fails_ret.
Qed.

Lemma fails_block (xs : list node) :
  Forall (fun x => fails_deeper (gen x)) xs -> fails_deeper (block_with gen xs).
Proof.
  intros H. unfold block_with. apply fails_indented.
  - apply keeps_generate_nodes, all_keep.
  - now apply fails_generate_nodes.
  - intros; apply fails_ret.
Qed.

Lemma fails_clause (indent keyword : string) (xs : list node) :
  Forall (fun x => fails_deeper (gen x)) xs ->
  fails_deeper (clause_with gen indent keyword xs).
Proof.
  intros H. unfold clause_with. destruct (list_truthy xs).
  - apply fails_bind; [apply keeps_block, all_keep|now apply fails_block|].
    intros; apply fails_ret.
  - apply fails_ret.
Qed.

(** An exception inside a body skips the decrement. *)
Lemma block_raises_above (xs : list node) g e g' :
  Forall (fun x => fails_deeper (gen x)) xs ->
  block_with gen xs g = (Raised e, g') ->
  (indent_level g < indent_level g')%Z.
Proof.
  intros H E. unfold block_with, bind, indent_incr, indent_decr in E.
  destruct (generate_nodes_with gen xs _) as [[a|e1] g1] eqn:E1;
    [discriminate|].
  inversion E; subst. apply fails_generate_nodes in E1; [|assumption].
  cbn in E1. lia.
Qed.

End FailureLoops.

Lemma mild_safe_expr (o : option node) : mild (_safe_generate_expr o).
Proof. destruct o; [apply generate_expr_mild|apply mild_ok]. Qed.

Lemma list_all_any (P : node -> Prop) (xs : list node) :
  (forall x, P x) -> list_all node P xs.
Proof. intros H. induction xs; constructor; auto. Qed.

Lemma mild_join (sep : string) (xs : list node) : mild (join_exprs sep xs).
Proof. apply mild_join_exprs, list_all_any, generate_expr_mild. Qed.

Lemma mild_decorator_lines (indent : string) (xs : list node) :
  mild (decorator_lines indent xs).
Proof.
  apply mild_map_result, Forall_forall. intros e _.
  apply mild_bind; [apply generate_expr_mild|intros; apply mild_ok].
Qed.

Lemma mild_def_line (indent prefix name : string) (args returns : option node)
  (type_params : list node) :
  mild (def_line indent prefix name args returns type_params).
Proof.
  unfold def_line.
  apply mild_bind; [destruct args; [apply generate_expr_mild|apply mild_ok]|].
  intros. apply mild_bind.
  - destruct (node_truthy returns); [|apply mild_ok].
    apply mild_bind; [apply mild_safe_expr|intros; apply mild_ok].
  - intros. apply mild_bind; [|intros; apply mild_ok].
    destruct (list_truthy type_params); [|apply mild_ok].
    apply mild_bind; [apply mild_join|intros; apply mild_ok].
Qed.

Lemma mild_for_line (indent keyword : string) (target iter : option node) :
  mild (for_line indent keyword target iter).
Proof.
  unfold for_line.
  apply mild_bind; [apply mild_safe_expr|intros].
  apply mild_bind; [apply mild_safe_expr|intros; apply mild_ok].
Qed.

Lemma mild_except_line (indent : string) (type : option node)
  (name : option string) : mild (except_line indent type name).
Proof.
  unfold except_line. apply mild_bind; [|intros; apply mild_ok].
  destruct type; [|apply mild_ok].
  apply mild_bind; [apply mild_safe_expr|intros; apply mild_ok].
Qed.

Lemma mild_with_item_list (items : list node) :
  mild (let? strs := map_result _safe_generate_with_item items in
        str_join ", " strs).
Proof.
  apply mild_bind; [|intros; apply mild_str_join].
  apply mild_with_items, list_all_any, generate_expr_mild.
Qed.

Ltac mild_leaf :=
  first
    [ apply mild_ok
    | apply mild_safe_expr
    | apply mild_join
    | apply mild_decorator_lines
    | apply mild_def_line
    | apply mild_for_line
    | apply mild_except_line
    | apply mild_with_item_list
    | apply mild_bind; [|intros ?]
    | match goal with
      | |- mild (if ?c then _ else _) => destruct c
      end ].

Ltac keeps_leaf :=
  first
    [ apply keeps_ret
    | apply keeps_lift
    | apply keeps_current_indent
    | apply keeps_block; apply Forall_forall; intros; apply generate_node_keeps
    | apply keeps_clause; apply Forall_forall; intros; apply generate_node_keeps
    | apply keeps_map_M; apply Forall_forall; intros; apply generate_node_keeps
    | apply keeps_generate_nodes; apply Forall_forall; intros;
      apply generate_node_keeps ].

Ltac fails_step :=
  first
    [ apply fails_ret
    | apply fails_current_indent
    | apply fails_lift; repeat mild_leaf
    | apply fails_block;
      [apply generate_node_keeps|apply list_all_Forall; assumption]
    | apply fails_clause;
      [apply generate_node_keeps|apply list_all_Forall; assumption]
    | apply fails_map_M;
      [apply generate_node_keeps|apply list_all_Forall; assumption]
    | apply fails_generate_nodes;
      [apply generate_node_keeps|apply list_all_Forall; assumption]
    | apply fails_indented; [keeps_leaf| |intros ?]
    | apply fails_bind; [keeps_leaf| |intros ?]
    | match goal with
      | |- fails_deeper (if ?c then _ else _) => destruct c
      end ].

Lemma generate_node_fails_deeper (nd : node) : fails_deeper (_generate_node nd).
Proof.
  induction nd; cbn [_generate_node]; repeat fails_step.
Qed.

End RendererCounter.

Section RendererExtras.

Context {py : PyRuntime}.

Lemma generate_nodes_fails_deeper (nodes : list node) :
  fails_deeper (_generate_nodes nodes).
Proof.
  apply fails_generate_nodes; [apply generate_node_keeps|].
  apply Forall_forall. intros; apply generate_node_fails_deeper.
Qed.

(** X8.  What [generate] can raise, what [print] and [write_text] themselves
    may raise put aside. A call that raises has printed and written nothing,
    and the exception is a [TypeError], an [AttributeError] or a [NameError]
    from the rendering, or the [ValueError] of file mode without a file
    name, in which case the tree had rendered and the generator is as
    before. *)
Theorem generate_raises_only (builder : Builder) (mode : string)
  (file_name : option string) (path : string) (g g' : CodeGenerator)
  (e : exn) (effects : list effect) :
  generate builder mode file_name path g = (Raised e, g', effects) ->
  effects = []
  /\ (e = TypeError \/ e = AttributeError \/ e = NameError
      \/ (e = ValueError /\ mode = "file" /\ opt_str_truthy file_name = false
          /\ g' = g
          /\ exists code, _generate_nodes (root_nodes builder) g = (Ok code, g))).
Proof.
  intros H. unfold generate in H.
  destruct (_generate_nodes (root_nodes builder) g) as [[code|e1] g1] eqn:E.
  - assert (g1 = g) as -> by (eapply generate_nodes_keeps; eassumption).
    destruct (mode =? "console")%string; [discriminate|].
    destruct (mode =? "file")%string eqn:Em; [|discriminate].
    apply String.eqb_eq in Em.
    destruct file_name as [f|]; [destruct (str_truthy f) eqn:Ef|];
      inversion H; subst; (split; [reflexivity|]); right; right; right;
      repeat split; eauto.
  - inversion H; subst. split; [reflexivity|].
    apply generate_nodes_fails_deeper in E.
    destruct E as [[->|[->| ->]] _]; auto.
Qed.

Lemma indented_raises_above {A B} (m : M A) (f : A -> B) g e g' :
  fails_deeper m ->
  (let* _ := indent_incr in
   let* a := m in
   let* _ := indent_decr in
   ret (f a)) g = (Raised e, g') ->
  (indent_level g < indent_level g')%Z.
Proof.
  intros Hm E. unfold bind, indent_incr, indent_decr, ret in E.
  destruct (m _) as [[a|e1] g1] eqn:E1; [discriminate|].
  inversion E; subst. apply Hm in E1. cbn in E1. lia.
Qed.

Lemma block_then_ret_raises_above {B} (body : list node) (f : string -> B)
  g e g' :
  (let* body_code := block_with _generate_node body in ret (f body_code)) g
  = (Raised e, g') ->
  (indent_level g < indent_level g')%Z.
Proof.
  intros E. unfold bind at 1 in E.
  destruct (block_with _ _ _) as [[a|e1] g1] eqn:E1; [discriminate|].
  inversion E; subst.
  eapply (indented_raises_above _ (fun code => code)); [|exact E1].
  apply generate_nodes_fails_deeper.
Qed.

(** X9.  Where a failed rendering leaves the generator. [indent_char] is
    never touched and [indent_level] is never below its value at the call.
    When the header of the statement is what raised, the generator is as it
    was; when the header rendered and the statement is one that only has an
    indented region below it, the exception came from inside the region and
    the decrement was skipped: the counter stays above its start. *)
Theorem failed_render_leaves_counter (nd : node) (g g' : CodeGenerator)
  (e : exn) :
  _generate_node nd g = (Raised e, g') ->
  indent_char g' = indent_char g
  /\ (indent_level g <= indent_level g')%Z
  /\ (forall e', header_text nd = Raised e' -> e' = e /\ g' = g)
  /\ (forall hs, header_text nd = Ok hs -> body_only nd = true ->
      (indent_level g < indent_level g')%Z).
Proof.
  intros H.
  destruct (generate_node_fails_deeper nd g e g' H) as (_ & Hc & Hl).
  split; [assumption|]. split; [assumption|]. split.
  - intros e' He'. rewrite generate_node_factored, He' in H.
    inversion H; auto.
  - intros hs Hh Hb. rewrite generate_node_factored, Hh in H.
    destruct nd; try discriminate Hb; cbn [render_below] in H;
      try (eapply block_then_ret_raises_above; exact H).
    eapply indented_raises_above; [|exact H].
    apply fails_map_M; [apply generate_node_keeps|].
    apply Forall_forall. intros; apply generate_node_fails_deeper.
Qed.

End RendererExtras.

Section ExpressionExtras.

Context {py : PyRuntime}.

Lemma generate_expr_none (e : node) :
  _generate_expr e = Ok None <-> bare_bool_operator e.
Proof.
  split.
  - destruct e; cbn [_generate_expr]; intros H;
      repeat match type of H with
             | context [result_bind ?r _] => destruct r; cbn [result_bind] in H
             | context [match ?v with _ => _ end] => destruct v
             end;
      try discriminate; unfold bare_bool_operator; auto.
  - intros [->|[->| ->]]; reflexivity.
Qed.

(** X10.  [_generate_expr] returns [None] instead of a text for exactly
    three nodes: the operator nodes [And], [Or] and [Not], whose rule
    returns a [__kw__] that their classes do not define. *)
Theorem generate_expr_none_iff (e : node) :
  _generate_expr e = Ok None <-> bare_bool_operator e.
Proof. apply generate_expr_none. Qed.

Lemma map_result_cons_ok {A B} (f : A -> result B) x xs ys :
  map_result f (x :: xs) = Ok ys ->
  exists y ys', f x = Ok y /\ map_result f xs = Ok ys' /\ ys = y :: ys'.
Proof.
  cbn. destruct (f x) as [y|]; [|discriminate]. cbn.
  destruct (map_result f xs) as [ys'|]; [|discriminate]. cbn.
  intros H; inversion H. eauto.
Qed.

Lemma all_str_none_iff (xs : list node) : forall strs,
  map_result _generate_expr xs = Ok strs ->
  (all_str strs = None <-> Exists bare_bool_operator xs).
Proof.
  induction xs as [|x xs IH]; intros strs H.
  - inversion H; subst. cbn. split; [discriminate|intros E; inversion E].
  - apply map_result_cons_ok in H. destruct H as (y & ys & Hx & Hxs & ->).
    specialize (IH ys Hxs). destruct y as [s|]; cbn.
    + destruct (all_str ys); cbn.
      * split; [discriminate|]. intros E. inversion E; subst.
        -- apply generate_expr_none in H0. congruence.
        -- apply IH in H0. discriminate.
      * split; [intros _; apply Exists_cons_tl; now apply IH|reflexivity].
    + split; [intros _|reflexivity].
      apply Exists_cons_hd. now apply generate_expr_none.
Qed.

(** X11.  Joining rendered items ([import] names, call arguments, base
    classes, assignment targets, ...) whose items all render raises
    [TypeError] exactly when one of the items is a bare [And], [Or] or
    [Not]. *)
Theorem join_exprs_type_error_iff (sep : string) (xs : list node)
  (strs : list str_or_none) :
  map_result _generate_expr xs = Ok strs ->
  (join_exprs sep xs = Raised TypeError <-> Exists bare_bool_operator xs)
  /\ (forall e, join_exprs sep xs = Raised e -> e = TypeError).
Proof.
  intros H. pose proof (all_str_none_iff xs strs H) as Hn.
  unfold join_exprs, str_join. rewrite H. cbn [result_bind].
  destruct (all_str strs); split.
  - split; [discriminate|]. intros E. apply Hn in E. discriminate.
  - discriminate.
  - split; [intros _; now apply Hn|reflexivity].
  - intros e E. now inversion E.
Qed.

Lemma compare_parts_firstn (gen : node -> result str_or_none)
  (comparators : list node) : forall ops,
  compare_parts_with gen comparators ops
  = compare_parts_with gen
      (firstn (Nat.min (List.length ops) (List.length comparators)) comparators)
      (firstn (Nat.min (List.length ops) (List.length comparators)) ops).
Proof.
  induction comparators as [|c cs IH]; intros [|o ops]; cbn; try reflexivity.
  now rewrite <- IH.
Qed.

(** X12.  A comparison pairs its operators with its comparators as [zip]
    does: the longer of the two lists is cut to the length of the shorter,
    and what is cut off is neither rendered nor looked at. *)
Theorem compare_zip_truncates (left_ : option node) (ops comparators : list node) :
  _generate_expr (Compare left_ ops comparators)
  = _generate_expr
      (Compare left_
         (firstn (Nat.min (List.length ops) (List.length comparators)) ops)
         (firstn (Nat.min (List.length ops) (List.length comparators))
            comparators)).
Proof.
  cbn [_generate_expr]. now rewrite <- compare_parts_firstn.
Qed.

(** X13.  An operator given as an operator node is printed by its [__kw__]:
    [is], [is not], [in] and [not in] have one, every other operator class
    prints as the text None, in a comparison, in a unary operation and in an
    augmented assignment alike. *)
Theorem operator_node_text (o : operator) (l r : node) (ls rs : string)
  (comment : option string) (g : CodeGenerator) :
  _generate_expr l = Ok (Some ls) ->
  _generate_expr r = Ok (Some rs) ->
  _generate_expr (Compare (Some l) [Operator o] [r])
  = Ok (Some (ls ++ " " ++ operator_text o ++ " " ++ rs))
  /\ _generate_expr (UnaryOp (Some (Operator o)) (Some r))
     = Ok (Some (operator_text o ++ " " ++ rs))
  /\ _generate_node (AugAssign (Some l) (Some (Operator o)) (Some r) comment) g
     = (Ok (str_mul (indent_char g) (indent_level g)
              ++ ls ++ " " ++ operator_text o ++ "= " ++ rs), g).
Proof.
  intros Hl Hr. repeat split.
  - cbn [_generate_expr safe_with compare_parts_with]. rewrite Hl, Hr.
    destruct o; reflexivity.
  - cbn [_generate_expr safe_with]. rewrite Hr. destruct o; reflexivity.
  - cbn [_generate_node]. unfold bind, current_indent, lift, ret,
      _safe_generate_expr, safe_with.
    rewrite Hl, Hr. destruct o; reflexivity.
Qed.

Lemma map_result_names (mk : string -> node) (names : list string) :
  (forall n, _generate_expr (mk n) = Ok (Some n)) ->
  map_result _generate_expr (map mk names) = Ok (map Some names).
Proof.
  intros H. induction names as [|n names IH]; [reflexivity|].
  cbn. rewrite H. cbn. now rewrite IH.
Qed.

Lemma all_str_somes (l : list string) : all_str (map Some l) = Some l.
Proof. induction l as [|s l IH]; [reflexivity|]. cbn. now rewrite IH. Qed.

Lemma str_join_somes (sep : string) (l : list string) :
  str_join sep (map Some l) = Ok (String.concat sep l).
Proof. unfold str_join. now rewrite all_str_somes. Qed.

(** X14.  The parameter list of a definition. Only the regular and the
    keyword-only parameters are printed, each as [_generate_expr] renders
    it: a parameter prints its name, followed by a colon and its annotation
    when it has one, and never its default. [*args], [**kwargs],
    [kw_defaults], [defaults] and positional-only parameters are never
    printed. The bare [*] that separates keyword-only parameters is printed
    only when there is no regular parameter; after regular parameters the
    keyword-only ones follow without it. *)
Theorem arguments_star_rule (args kwonlyargs : list node)
  (regular kwonly : list string) (vararg kwarg : option node)
  (kw_defaults : list (option node)) (defaults posonlyargs : list node) :
  map_result _generate_expr args = Ok (map Some regular) ->
  map_result _generate_expr kwonlyargs = Ok (map Some kwonly) ->
  _generate_arguments
    (Arguments args vararg kwonlyargs kw_defaults kwarg defaults posonlyargs)
  = Ok (String.concat ", "
          (regular
             +++ (if list_truthy kwonlyargs && negb (list_truthy regular)
                  then ["*"] else [])
             +++ kwonly))
  /\ (forall name default, _generate_expr (Arg name None default) = Ok (Some name))
  /\ (forall name annotation default text,
        _generate_expr annotation = Ok text ->
        _generate_expr (Arg name (Some annotation) default)
        = Ok (Some (name ++ ": " ++ fmt text))).
Proof.
  intros Hargs Hkw. split; [|split].
  - unfold _generate_arguments, arguments_with. rewrite Hargs.
    cbn [result_bind].
    destruct kwonlyargs as [|k ks]; cbn [list_truthy andb].
    + cbn [map_result] in Hkw. inversion Hkw as [Hk].
      destruct kwonly; [|discriminate].
      cbn [result_bind]. rewrite str_join_somes. now rewrite !app_nil_r.
    + rewrite Hkw. cbn [result_bind].
      destruct regular as [|r rs]; cbn [map list_truthy negb app].
      * change (Some "*" :: map Some kwonly) with (map Some ("*" :: kwonly)).
        now rewrite str_join_somes.
      * change (Some r :: map Some rs +++ map Some kwonly)
          with (map Some (r :: rs) +++ map Some kwonly).
        rewrite <- map_app. now rewrite str_join_somes.
  - reflexivity.
  - intros name annotation default text H. cbn [_generate_expr safe_with].
    now rewrite H.
Qed.

Lemma comprehension_returns (c : node) (s : string) :
  _generate_comprehension c = Ok s -> is_comprehension c.
Proof.
  unfold _generate_comprehension, comprehension_with.
  destruct c; try discriminate; intros H;
    try (unfold is_comprehension; now eauto);
    repeat match type of H with
           | context [result_bind ?r _] => destruct r; cbn [result_bind] in H
           end;
    discriminate.
Qed.

Lemma comprehensions_return (generators : list node) : forall strs,
  map_result _generate_comprehension generators = Ok strs ->
  Forall is_comprehension generators.
Proof.
  induction generators as [|c cs IH]; intros strs H; [constructor|].
  apply map_result_cons_ok in H. destruct H as (y & ys & Hc & Hcs & _).
  constructor; [eapply comprehension_returns|eapply IH]; eassumption.
Qed.

(** X15.  The clauses of a comprehension must be [Comprehension] nodes: a
    list, set, dictionary or generator comprehension renders only when every
    entry of its [generators] is one. Any other node there, a [For] loop
    included, makes the rendering raise. *)
Theorem comprehension_clauses_class (e : node) (generators : list node)
  (r : str_or_none) :
  (exists elt, e = ListComp elt generators \/ e = SetComp elt generators
               \/ e = GeneratorExp elt generators)
  \/ (exists key value, e = DictComp key value generators) ->
  _generate_expr e = Ok r ->
  Forall is_comprehension generators.
Proof.
  intros [[elt [->|[->| ->]]]|(key & value & ->)]; cbn [_generate_expr];
    intros H;
    repeat match type of H with
           | context [result_bind (safe_with ?g ?o) _] =>
               destruct (safe_with g o); cbn [result_bind] in H;
               [|discriminate]
           end;
    fold _generate_comprehension in H;
    destruct (map_result _generate_comprehension generators) as [strs|] eqn:E;
    try discriminate; eapply comprehensions_return; eassumption.
Qed.

End ExpressionExtras.

Section StatementExtras.

Context {py : PyRuntime}.

Lemma nodes_lines_truthy (gen : node -> M string) (xs : list node) :
  forall g l g',
    nodes_lines_with gen xs g = (Ok l, g') ->
    Forall (fun s => str_truthy s = true) l.
Proof.
  induction xs as [|x xs IH]; intros g l g' H; cbn in H.
  - inversion H. constructor.
  - unfold bind, ret in H.
    destruct (gen x g) as [[code|e] g1]; [|discriminate].
    destruct (nodes_lines_with gen xs g1) as [[lines|e] g2] eqn:E;
      [|discriminate].
    apply IH in E. inversion H; subst.
    destruct (str_truthy code) eqn:Ec; [constructor|]; assumption.
Qed.

Lemma nodes_lines_app (gen : node -> M string) (xs ys : list node) :
  forall g,
    nodes_lines_with gen (xs +++ ys) g
    = (let* l1 := nodes_lines_with gen xs in
       let* l2 := nodes_lines_with gen ys in
       ret (l1 +++ l2)) g.
Proof.
  induction xs as [|x xs IH]; intros g; cbn [app nodes_lines_with].
  - unfold bind, ret. now destruct (nodes_lines_with gen ys g) as [[l|e] g1].
  - unfold bind at 1 3 4. destruct (gen x g) as [[code|e] g1]; [|reflexivity].
    unfold bind at 1 3. rewrite IH. unfold bind, ret.
    destruct (nodes_lines_with gen xs g1) as [[l1|e] g2]; [|reflexivity].
    destruct (nodes_lines_with gen ys g2) as [[l2|e] g3]; [|reflexivity].
    now destruct (str_truthy code).
Qed.

Lemma concat_stacked (l1 l2 : list string) :
  Forall (fun s => str_truthy s = true) l1 ->
  Forall (fun s => str_truthy s = true) l2 ->
  String.concat nl (l1 +++ l2)
  = stacked (String.concat nl l1) (String.concat nl l2).
Proof.
  intros H1 H2. unfold stacked. destruct l1 as [|x l1]; [reflexivity|].
  rewrite (str_truthy_concat nl (x :: l1)) by (assumption || discriminate).
  destruct l2 as [|y l2]; [now rewrite app_nil_r|].
  rewrite (str_truthy_concat nl (y :: l2)) by (assumption || discriminate).
  apply concat_app_ne; discriminate.
Qed.

(** X16.  Rendering a sequence is compositional: when two sequences render,
    the one followed by the other renders to the two texts one under the
    other, a sequence that renders to nothing leaving no empty line. *)
Theorem generate_nodes_app (xs ys : list node) (g g1 g2 : CodeGenerator)
  (a b : string) :
  _generate_nodes xs g = (Ok a, g1) ->
  _generate_nodes ys g = (Ok b, g2) ->
  _generate_nodes (xs +++ ys) g = (Ok (stacked a b), g).
Proof.
  unfold _generate_nodes, generate_nodes_with. intros Hx Hy.
  unfold bind at 1 in Hx. unfold bind at 1 in Hy. unfold bind at 1.
  rewrite nodes_lines_app. unfold bind at 1.
  destruct (nodes_lines_with _generate_node xs g) as [[l1|e] g1'] eqn:E1;
    [|discriminate].
  assert (g1' = g) as ->.
  { eapply keeps_nodes_lines; [|exact E1].
    apply Forall_forall; intros; apply generate_node_keeps. }
  unfold bind at 1.
  destruct (nodes_lines_with _generate_node ys g) as [[l2|e] g2'] eqn:E2;
    [|discriminate].
  assert (g2' = g) as ->.
  { eapply keeps_nodes_lines; [|exact E2].
    apply Forall_forall; intros; apply generate_node_keeps. }
  unfold ret in *. inversion Hx; inversion Hy; subst.
  rewrite concat_stacked; [reflexivity| |];
    eapply nodes_lines_truthy; eassumption.
Qed.

(** X17.  What [generate] does to the outside. It prints at most once and
    writes at most once, and what it prints or writes is the text it
    returns; it does neither when it raises, nor in a mode that is neither
    [console] nor [file], where it just returns the text. *)
Theorem generate_effects (builder : Builder) (mode : string)
  (file_name : option string) (path : string) (g g' : CodeGenerator)
  (r : result string) (effects : list effect) :
  generate builder mode file_name path g = (r, g', effects) ->
  match effects with
  | [] => (exists e, r = Raised e) \/ (mode <> "console" /\ mode <> "file")
  | [Print text] => mode = "console" /\ r = Ok text
  | [WriteText p f text] =>
      mode = "file" /\ r = Ok text /\ p = path /\ file_name = Some f
      /\ str_truthy f = true
  | _ => False
  end.
Proof.
  unfold generate.
  destruct (_generate_nodes (root_nodes builder) g) as [[code|e] g1].
  - destruct (mode =? "console")%string eqn:Ec.
    { apply String.eqb_eq in Ec. intros H; inversion H; subst. auto. }
    destruct (mode =? "file")%string eqn:Ef.
    + apply String.eqb_eq in Ef.
      destruct file_name as [f|]; [destruct (str_truthy f) eqn:Et|];
        intros H; inversion H; subst; eauto 6.
    + apply String.eqb_neq in Ec, Ef. intros H; inversion H; subst. auto.
  - intros H; inversion H; subst. eauto.
Qed.

Lemma block_single (a : node) (g g1 : CodeGenerator) (ca : string) :
  _generate_node a (deeper g) = (Ok ca, g1) ->
  str_truthy ca = true ->
  block_with _generate_node [a] g = (Ok ca, g).
Proof.
  intros Ha Hc.
  assert (g1 = deeper g) as -> by (eapply generate_node_keeps; exact Ha).
  unfold block_with, generate_nodes_with. cbn [nodes_lines_with].
  unfold bind, indent_incr, indent_decr, ret. fold (deeper g).
  rewrite Ha, Hc. cbn. f_equal. apply incr_decr.
Qed.

(** X18.  The else block of a conditional and of a loop, from the builder to
    the text. [with if_: a] followed inside by [with else_: b] renders the
    statement of the else block right under the body of the conditional, at
    the depth of the [if] line and with no [else:] line; under [while_] the
    same block renders an [else:] line with the statement one level deeper. *)
Theorem else_block_rendering (test a b : node) (g ga gb gb' : CodeGenerator)
  (ts ca cb cb' : string) :
  _generate_expr test = Ok (Some ts) ->
  _generate_node a (deeper g) = (Ok ca, ga) -> str_truthy ca = true ->
  _generate_node b g = (Ok cb, gb) ->
  _generate_node b (deeper g) = (Ok cb', gb') -> str_truthy cb' = true ->
  let indent := str_mul (indent_char g) (indent_level g) in
  run (with_ (IfBuilder test) (AddNode a :: with_ ElseBuilder [AddNode b]))
    Builder_init
  = Done {| root_nodes := [If (Some test) [a] [b]]; _stack := [] |}
  /\ _generate_node (If (Some test) [a] [b]) g
     = (Ok (indent ++ "if " ++ ts ++ ":" ++ nl ++ ca ++ nl ++ cb), g)
  /\ run (with_ (WhileBuilder test) (AddNode a :: with_ ElseBuilder [AddNode b]))
       Builder_init
     = Done {| root_nodes := [While (Some test) [a] [b]]; _stack := [] |}
  /\ _generate_node (While (Some test) [a] [b]) g
     = (Ok (indent ++ "while " ++ ts ++ ":" ++ nl ++ ca ++ nl
              ++ indent ++ "else:" ++ nl ++ cb'), g).
Proof.
  intros Ht Ha Hca Hb Hb' Hcb' indent.
  assert (gb = g) as -> by (eapply generate_node_keeps; exact Hb).
  pose proof (block_single a g ga ca Ha Hca) as Hblock_a.
  pose proof (block_single b g gb' cb' Hb' Hcb') as Hblock_b.
  split; [reflexivity|]. split; [|split; [reflexivity|]].
  - cbn [_generate_node map_M]. unfold bind at 1. unfold current_indent.
    fold indent. unfold bind at 1. unfold lift, _safe_generate_expr, safe_with.
    rewrite Ht. unfold bind at 1. rewrite Hblock_a.
    unfold bind, ret. rewrite Hb. cbn [app String.concat fmt].
    now rewrite !string_app_assoc.
  - cbn [_generate_node]. unfold bind at 1. unfold current_indent.
    fold indent. unfold bind at 1. unfold lift, _safe_generate_expr, safe_with.
    rewrite Ht. unfold bind at 1. rewrite Hblock_a.
    unfold clause_with. cbn [list_truthy]. unfold bind at 1 2.
    rewrite Hblock_b. unfold ret. cbn [app String.concat fmt].
    now rewrite !string_app_assoc.
Qed.

End StatementExtras.

Section PlainExpressionProperties.

Context {py : PyRuntime}.

Lemma single_line_concat (sep : string) (l : list string) :
  single_line sep = true ->
  Forall (fun s => single_line s = true) l ->
  single_line (String.concat sep l) = true.
Proof.
  intros Hsep. induction 1 as [|x l Hx Hl IH]; [reflexivity|].
  destruct l as [|y l]; [assumption|].
  change (String.concat sep (x :: y :: l))
    with (x ++ sep ++ String.concat sep (y :: l)).
  now rewrite !single_line_app, Hx, Hsep, IH.
Qed.

Lemma single_line_uint (d : Decimal.uint) :
  single_line (NilEmpty.string_of_uint d) = true.
Proof. induction d; cbn; auto. Qed.

Lemma single_line_str_of_int (i : Z) : single_line (str_of_int i) = true.
Proof.
  unfold str_of_int, NilZero.string_of_int, NilZero.string_of_uint.
  destruct (Z.to_int i) as [d|d]; destruct d; cbn;
    auto using single_line_uint.
Qed.

Lemma single_line_kw (nd : node) : single_line (fmt (kw nd)) = true.
Proof. destruct nd; try reflexivity. destruct o; reflexivity. Qed.

Lemma single_line_comparison_op (op : node) :
  match op with Name id => single_line id = true | _ => True end ->
  single_line (fmt (_generate_comparison_op op)) = true.
Proof. destruct op; try reflexivity; [auto|]. destruct o; reflexivity. Qed.

Lemma plain_opt_renders (o : option node) :
  option_all node plain_carried o ->
  match o with Some v => plain_expr v | None => True end ->
  exists s, safe_with _generate_expr o = Ok (Some s) /\ single_line s = true.
Proof.
  destruct 1 as [v [Hv _]|]; intros H; [now apply Hv|].
  exists "". split; reflexivity.
Qed.

Lemma plain_list_renders (l : list node) :
  list_all node plain_carried l ->
  All plain_expr l ->
  exists strs,
    map_result _generate_expr l = Ok (map Some strs)
    /\ Forall (fun s => single_line s = true) strs.
Proof.
  induction 1 as [|x [Hx _] l _ IH]; intros Hp.
  - exists []. split; [reflexivity|constructor].
  - destruct Hp as [Hpx Hp]. destruct (Hx Hpx) as (s & Es & Hs).
    destruct (IH Hp) as (strs & E & Hstrs).
    exists (s :: strs). cbn. rewrite Es. cbn. rewrite E. cbn.
    split; [reflexivity|now constructor].
Qed.

Lemma plain_keywords_render (keywords : list node) :
  list_all node plain_carried keywords ->
  All (fun k =>
         match k with
         | Keyword arg value =>
             single_line (fmt arg) = true
             /\ match value with Some v => plain_expr v | None => True end
         | _ => True
         end) keywords ->
  exists strs,
    call_keywords_with _generate_expr keywords = Ok (map Some strs)
    /\ Forall (fun s => single_line s = true) strs.
Proof.
  induction 1 as [|k [_ Hk] ks _ IH]; intros Hp.
  - exists []. split; [reflexivity|constructor].
  - destruct Hp as [Hpk Hp]. destruct (IH Hp) as (strs & E & Hstrs).
    destruct k; try (exists strs; split; assumption).
    destruct Hpk as [Harg Hvalue].
    assert (exists s, safe_with _generate_expr value = Ok (Some s)
                      /\ single_line s = true) as (s & Es & Hs).
    { destruct value as [v|]; [now apply Hk|].
      exists "". split; reflexivity. }
    exists ((fmt arg ++ "=" ++ s) :: strs).
    cbn [call_keywords_with]. rewrite Es. cbn [result_bind]. rewrite E.
    cbn [result_bind].
    split; [reflexivity|]. constructor; [|assumption].
    now rewrite !single_line_app, Harg, Hs.
Qed.

Lemma plain_compare_parts_render (comparators : list node) :
  list_all node plain_carried comparators ->
  All plain_expr comparators ->
  forall ops,
    All (fun op =>
           match op with Name id => single_line id = true | _ => True end)
      ops ->
    exists strs,
      compare_parts_with _generate_expr comparators ops = Ok (map Some strs)
      /\ Forall (fun s => single_line s = true) strs.
Proof.
  induction 1 as [|c [Hc _] cs _ IH]; intros Hp ops Hops.
  - exists []. split; [reflexivity|constructor].
  - destruct ops as [|op ops]; [exists []; split; [reflexivity|constructor]|].
    destruct Hp as [Hpc Hp]. destruct Hops as [Hop Hops].
    destruct (Hc Hpc) as (s & Es & Hs).
    destruct (IH Hp ops Hops) as (strs & E & Hstrs).
    exists ((fmt (_generate_comparison_op op) ++ " " ++ s) :: strs).
    cbn [compare_parts_with]. rewrite Es. cbn [result_bind]. rewrite E.
    cbn [result_bind].
    split; [reflexivity|]. constructor; [|assumption].
    now rewrite !single_line_app, single_line_comparison_op, Hs.
Qed.

Ltac render_children :=
  repeat match goal with
         | Hv : match ?o with Some _ => _ | None => True end |- _ =>
             eapply plain_opt_renders in Hv; [|eassumption];
             destruct Hv as (? & -> & ?)
         | Hl : All plain_expr _ |- context [map_result _] =>
             eapply plain_list_renders in Hl; [|eassumption];
             destruct Hl as (? & -> & ?)
         | Hk : All _ ?keywords |- context [call_keywords_with _ ?keywords] =>
             eapply plain_keywords_render in Hk; [|eassumption];
             destruct Hk as (? & -> & ?)
         end;
  cbn [result_bind fmt].

Ltac one_line :=
  rewrite ?single_line_app;
  repeat match goal with
         | H : single_line _ = true |- _ => rewrite H
         end;
  try reflexivity.

Lemma plain_expr_carried (e : node) : plain_carried e.
Proof.
  induction e; (split; [|try exact I]); cbn [plain_expr]; try contradiction;
    unfold renders_to_line; cbn [_generate_expr].
  - (* Alias *)
    intros [Hn Ha]. destruct (opt_str_truthy asname); eexists;
      (split; [reflexivity|]); one_line.
  - (* Constant *)
    destruct value; intros H; eexists; (split; [reflexivity|]);
      try assumption; try reflexivity.
    + apply single_line_str_of_int.
    + destruct H as [Hs Hk]. rewrite single_line_app, Hs.
      destruct (opt_str_truthy kind); [now rewrite Hk|reflexivity].
    + now destruct b.
  - (* Name *)
    intros H. eexists; split; [reflexivity|assumption].
  - (* Attribute *)
    intros [Hv Ha]. render_children. eexists; split; [reflexivity|]. one_line.
  - (* Subscript *)
    intros [Hv Hsl]. render_children. eexists; split; [reflexivity|].
    one_line.
  - (* Await *)
    intros Hv. render_children. eexists; split; [reflexivity|]. one_line.
  - (* Call *)
    intros (Hf & Ha & Hk). render_children.
    rewrite <- map_app, str_join_somes. cbn [result_bind].
    eexists; split; [reflexivity|]. one_line.
    rewrite single_line_concat; [reflexivity|reflexivity|].
    apply Forall_app. now split.
  - (* Keyword *)
    match goal with
    | |- match ?value with Some _ => _ | None => True end =>
        destruct value as [v|]; [|exact I]
    end.
    match goal with
    | H : option_all _ _ (Some v) |- _ => inversion H as [? [Hv _]|]
    end.
    exact Hv.
  - (* UnaryOp *)
    intros Hv. render_children. eexists; split; [reflexivity|]. one_line.
    match goal with
    | |- context [getattr_kw ?op] =>
        destruct op; [cbn [getattr_kw]; now rewrite single_line_kw|reflexivity]
    end.
  - (* Compare *)
    intros (Hl & Ho & Hc). render_children.
    match goal with
    | Hall : list_all _ _ ?cs, Hcs : All plain_expr ?cs |- _ =>
        destruct (plain_compare_parts_render cs Hall Hcs _ Ho)
          as (sc & -> & Hsc)
    end.
    cbn [result_bind].
    match goal with
    | |- context [str_join _ (Some ?s :: map Some sc)] =>
        change (Some s :: map Some sc) with (map Some (s :: sc))
    end.
    rewrite str_join_somes. cbn [result_bind].
    eexists; split; [reflexivity|].
    apply single_line_concat; [reflexivity|now constructor].
  - (* Starred *)
    intros Hv. render_children. eexists; split; [reflexivity|]. one_line.
  - (* Arg *)
    intros [Ha Hv].
    match goal with
    | |- context [match ?annotation with Some _ => _ | None => Ok (Some _) end] =>
        destruct annotation as [v|]
    end.
    + match goal with
      | H : option_all _ _ (Some v) |- _ => inversion H as [? [Hr _]|]
      end.
      destruct (Hr Hv) as (s & Es & Hs). cbn [safe_with]. rewrite Es.
      cbn [result_bind fmt]. eexists; split; [reflexivity|]. one_line.
    + eexists; split; [reflexivity|assumption].
Qed.

(** X19.  The expression contract on a fragment. An expression built from
    names, constants, attribute access, subscripts, calls, comparisons,
    [await], starred and unary expressions over texts without line break
    always renders: [_generate_expr] neither raises nor returns [None], and
    the text it returns holds no line break. *)
Theorem plain_expr_renders (e : node) :
  plain_expr e ->
  exists s, _generate_expr e = Ok (Some s) /\ single_line s = true.
Proof. apply plain_expr_carried. Qed.

End PlainExpressionProperties.

Section EndToEnd.

Context {py : PyRuntime}.

Lemma generate_nodes_single (nd : node) (g g1 : CodeGenerator) (code : string) :
  _generate_node nd g = (Ok code, g1) ->
  _generate_nodes [nd] g = (Ok code, g).
Proof.
  intros H.
  assert (g1 = g) as -> by (eapply generate_node_keeps; exact H).
  unfold _generate_nodes, generate_nodes_with. cbn [nodes_lines_with].
  unfold bind, ret. rewrite H. now destruct code.
Qed.

Lemma join_aliases (names : list string) :
  join_exprs ", " (map (fun nm => Alias nm None) names)
  = Ok (String.concat ", " names).
Proof.
  unfold join_exprs. rewrite map_result_names by reflexivity.
  cbn [result_bind]. apply str_join_somes.
Qed.

(** X20.  The convenience helpers, from the call to the text. On a fresh
    builder [add_import] gives one [import] line with the module names
    separated by commas, [import_from] one [from ... import ...] line with
    [level] leading dots (none for a negative level), and [add_comment] one
    [#] line, or no line at all for an empty text. *)
Theorem convenience_helpers_render (modules names : list string)
  (module text : string) (level : Z) (g : CodeGenerator) :
  let indent := str_mul (indent_char g) (indent_level g) in
  (exists b, add_import modules Builder_init = Done b
             /\ _generate_nodes (root_nodes b) g
                = (Ok (indent ++ "import " ++ String.concat ", " modules), g))
  /\ (exists b, import_from module names level Builder_init = Done b
                /\ _generate_nodes (root_nodes b) g
                   = (Ok (indent ++ "from " ++ str_mul "." level ++ module
                            ++ " import " ++ String.concat ", " names), g))
  /\ (exists b, add_comment text Builder_init = Done b
                /\ _generate_nodes (root_nodes b) g
                   = (Ok (if str_truthy text then indent ++ "# " ++ text
                          else ""), g)).
Proof.
  intros indent. repeat split; eexists; (split; [reflexivity|]);
    cbn [root_nodes app]; apply (generate_nodes_single _ g g);
    cbn [_generate_node]; unfold bind, current_indent, lift, ret;
    rewrite ?join_aliases; try reflexivity.
  now destruct (str_truthy text).
Qed.

(** X21.  A function block, from the builder to its header line. The builder
    called without [args] and decorators gives a definition with an empty
    parameter list, whose body is the block's statements or the placeholder;
    a [returns] given as a text becomes a [Name], and the header carries the
    arrow exactly when that text is not empty. A [decorators_list] that is
    not a list raises [ValueError] before anything is pushed, whatever the
    block. *)
Theorem function_block_rendering (name s : string) (is_async : bool)
  (stmts : list node) (block : list op) (args : option node)
  (returns : option returns_arg) (type_params : list node) (b : Builder)
  (g : CodeGenerator) :
  let fn := (if is_async then AsyncFunctionDef else FunctionDef) name
              (Some (Arguments [] None [] [] None [] []))
              (auto_filled stmts)
              (if str_truthy s then Some (Name s) else None) [] [] in
  run (with_ (FunctionDefBuilder name None (Some (ReturnsStr s)) DecoratorsNone
                is_async [])
         (map AddNode stmts)) Builder_init
  = Done {| root_nodes := [fn]; _stack := [] |}
  /\ _generate_node fn g
     = (let* body_code := block_with _generate_node (auto_filled stmts) in
        ret (String.concat nl
               [str_mul (indent_char g) (indent_level g)
                  ++ (if is_async then "async def" else "def") ++ " " ++ name
                  ++ "()" ++ (if str_truthy s then " -> " ++ s else "") ++ ":";
                body_code])) g
  /\ run (with_ (FunctionDefBuilder name args returns DecoratorsNotAList
                   is_async type_params) block) b
     = Throws ValueError.
Proof.
  intros fn. subst fn. split; [|split; [|reflexivity]].
  - unfold Builder_init.
    erewrite run_with_add_nodes; [|reflexivity|now destruct is_async].
    destruct is_async, stmts; reflexivity.
  - destruct is_async, (str_truthy s); cbn [_generate_node];
      unfold bind at 1; unfold current_indent;
      unfold decorator_lines, def_line, _generate_arguments, arguments_with,
        _safe_generate_expr, safe_with;
      cbn [map_result result_bind list_truthy node_truthy _generate_expr
           str_join all_str String.concat lift bind app fmt];
      unfold bind, lift; cbn [app]; reflexivity.
Qed.

End EndToEnd.

Section EndToEndBlocks.

Context {py : PyRuntime}.

(** X22.  A protected block, from the builder to the text: [with try_: a],
    then inside it [with except_(T, n): b], [with else_: c] and [with
    finally_: d], gives one [Try] and renders as the four clauses in the
    order [try], [except], [else], [finally], each keyword line at the depth
    of the statement and each statement one level deeper. *)
Theorem try_block_rendering (a b c d exc_type : node) (name ts : string)
  (g ga gb gc gd : CodeGenerator) (ca cb cc cd : string) :
  _generate_expr exc_type = Ok (Some ts) ->
  str_truthy ts = true -> str_truthy name = true ->
  _generate_node a (deeper g) = (Ok ca, ga) -> str_truthy ca = true ->
  _generate_node b (deeper g) = (Ok cb, gb) -> str_truthy cb = true ->
  _generate_node c (deeper g) = (Ok cc, gc) -> str_truthy cc = true ->
  _generate_node d (deeper g) = (Ok cd, gd) -> str_truthy cd = true ->
  let indent := str_mul (indent_char g) (indent_level g) in
  let built_try :=
    Try [a] [ExceptHandler (Some exc_type) (Some name) [b]] [c] [d] in
  run (with_ TryBuilder
         (AddNode a
            :: with_ (ExceptBuilder (Some exc_type) (Some name)) [AddNode b]
            +++ with_ ElseBuilder [AddNode c]
            +++ with_ FinallyBuilder [AddNode d]))
    Builder_init
  = Done {| root_nodes := [built_try]; _stack := [] |}
  /\ _generate_node built_try g
     = (Ok (indent ++ "try:" ++ nl ++ ca ++ nl
              ++ indent ++ "except " ++ ts ++ " as " ++ name ++ ":" ++ nl
              ++ cb ++ nl
              ++ indent ++ "else:" ++ nl ++ cc ++ nl
              ++ indent ++ "finally:" ++ nl ++ cd), g).
Proof.
  intros Ht Hts Hn Ha Hca Hb Hcb Hc Hcc Hd Hcd indent built_try.
  pose proof (block_single a g ga ca Ha Hca) as Hblock_a.
  pose proof (block_single b g gb cb Hb Hcb) as Hblock_b.
  pose proof (block_single c g gc cc Hc Hcc) as Hblock_c.
  pose proof (block_single d g gd cd Hd Hcd) as Hblock_d.
  split; [reflexivity|]. subst built_try.
  cbn [_generate_node map_M]. unfold clause_with. cbn [list_truthy].
  unfold bind, current_indent, lift, ret, except_line, _safe_generate_expr,
    safe_with.
  fold indent.
  repeat (first [ rewrite Hblock_a | rewrite Hblock_b | rewrite Hblock_c
                | rewrite Hblock_d | rewrite Ht ];
          cbv beta iota; cbn [result_bind opt_str_truthy fmt]).
  rewrite Hn, (str_truthy_app_l ts _ Hts).
  cbn [app String.concat]. now rewrite !string_app_assoc.
Qed.

(** X23.  A match block, from the builder to the text: [with match_(s)]
    around [with case_(p, guard): a] gives one [Match] with one case and
    renders the [match] line at the depth of the statement, the [case] line
    one level deeper, with its guard when there is one, and the statement
    two levels deeper. *)
Theorem match_block_rendering (subject pattern a : node) (guard : option node)
  (g ga : CodeGenerator) (ss ps gs ca : string) :
  _generate_expr subject = Ok (Some ss) ->
  _generate_expr pattern = Ok (Some ps) ->
  (forall gd, guard = Some gd -> _generate_expr gd = Ok (Some gs)) ->
  _generate_node a (deeper (deeper g)) = (Ok ca, ga) -> str_truthy ca = true ->
  let built_match := Match (Some subject) [MatchCase (Some pattern) guard [a]] in
  run (with_ (MatchBuilder subject)
         (with_ (CaseBuilder pattern guard) [AddNode a]))
    Builder_init
  = Done {| root_nodes := [built_match]; _stack := [] |}
  /\ _generate_node built_match g
     = (Ok (str_mul (indent_char g) (indent_level g)
              ++ "match " ++ ss ++ ":" ++ nl
              ++ str_mul (indent_char g) (indent_level g + 1)
              ++ "case " ++ ps
              ++ (if node_truthy guard then " if " ++ gs else "") ++ ":" ++ nl
              ++ ca), g).
Proof.
  intros Hs Hp Hg Ha Hca built_match.
  pose proof (block_single a (deeper g) ga ca Ha Hca) as Hblock_a.
  split; [reflexivity|]. subst built_match.
  cbn [_generate_node map_M].
  unfold bind, current_indent, lift, ret, _safe_generate_expr, safe_with,
    indent_incr, indent_decr.
  fold (deeper g). rewrite Hs. cbv beta iota. rewrite Hp. cbv beta iota.
  assert ((if node_truthy guard
           then let? g0 := match guard with
                           | Some e => _generate_expr e
                           | None => Ok (Some "")
                           end in Ok (" if " ++ fmt g0)
           else Ok "")
          = Ok (if node_truthy guard then " if " ++ gs else "")) as ->.
  { destruct guard as [gd|]; [|reflexivity]. now rewrite (Hg gd eq_refl). }
  rewrite Hblock_a. cbn [indent_char indent_level deeper].
  rewrite incr_decr. cbn [app String.concat fmt].
  now rewrite !string_app_assoc.
Qed.

End EndToEndBlocks.

(** ** Closed instances *)

Example greet_rendered :
  generate (py := sample_runtime)
    {| root_nodes := [greet]; _stack := [] |} "text" None "."
    (CodeGenerator_init tab)
  = (Ok ("def greet(name):" ++ nl ++ tab ++ "return name"),
     CodeGenerator_init tab, []).
Proof. reflexivity. Qed.

(** The second scenario: a class with two bases and no body. *)
Example class_with_two_bases :
  run (with_ (ClassDefBuilder "C" (Some [Name "A"; Name "B"])) []) Builder_init
  = Done {| root_nodes := [ClassDef "C" [Name "A"; Name "B"] [] [Pass] []];
            _stack := [] |}
  /\ fst (_generate_node (py := sample_runtime)
            (ClassDef "C" [Name "A"; Name "B"] [] [Pass] [])
            (CodeGenerator_init tab))
     = Ok ("class C(A, B):" ++ nl ++ tab ++ "pass").
Proof. split; reflexivity. Qed.



(** C6 at the function [greet], one level deep under a tab. *)
Lemma C6_witness :
  well_formed (py := sample_runtime) greet
  /\ indented_at (py := sample_runtime) tab 1 greet.
Proof.
  assert (Hwf : well_formed (py := sample_runtime) greet).
  { cbn. repeat split; discriminate. }
  split; [exact Hwf|].
  apply (C6_indentation_invariant (py := sample_runtime) tab 1 greet).
  exact Hwf.
Defined.

(** C7 at [greet], written to a file twice. *)
Lemma C7_witness :
  generate (py := sample_runtime)
    {| root_nodes := [greet]; _stack := [] |} "file" (Some "greet.py") "out"
    (CodeGenerator_init tab)
  = (Ok ("def greet(name):" ++ nl ++ tab ++ "return name"),
     CodeGenerator_init tab,
     [WriteText "out" "greet.py"
        ("def greet(name):" ++ nl ++ tab ++ "return name")])
  /\ (CodeGenerator_init tab = CodeGenerator_init tab
      /\ generate (py := sample_runtime)
           {| root_nodes := [greet]; _stack := [] |} "file" (Some "greet.py")
           "out" (CodeGenerator_init tab)
         = (Ok ("def greet(name):" ++ nl ++ tab ++ "return name"),
            CodeGenerator_init tab,
            [WriteText "out" "greet.py"
               ("def greet(name):" ++ nl ++ tab ++ "return name")])).
Proof.
  split; [reflexivity|].
  apply (C7_generate_twice (py := sample_runtime)
           {| root_nodes := [greet]; _stack := [] |} "file" (Some "greet.py")
           "out" (CodeGenerator_init tab) (CodeGenerator_init tab)).
  reflexivity.
Defined.

(** C8 as the specification states it fails when the tree does not
    render: [generate] renders first and looks at the file name afterwards,
    so in file mode without a file name a tree that holds a lambda, or an
    [import] of a bare [And], raises the exception of the rendering and not
    the usage error. *)
Lemma C8_render_error_comes_first :
  generate (py := sample_runtime)
    {| root_nodes := [Expr (Some (Lambda None (Some (Name "x"))))];
       _stack := [] |}
    "file" None "." (CodeGenerator_init tab)
  = (Raised NameError, CodeGenerator_init tab, [])
  /\ generate (py := sample_runtime)
       {| root_nodes := [Import [Operator And]]; _stack := [] |}
       "file" None "." (CodeGenerator_init tab)
     = (Raised TypeError, CodeGenerator_init tab, [])
  /\ generate (py := sample_runtime)
       {| root_nodes := [Expr (Some (Lambda None (Some (Name "x"))))];
          _stack := [] |}
       "file" None "." (CodeGenerator_init tab)
     <> (Raised ValueError, CodeGenerator_init tab, []).
Proof. split; [reflexivity|]. split; [reflexivity|discriminate]. Qed.

(** C8 at [greet], without and with a file name. *)
Lemma C8_witness :
  _generate_nodes (py := sample_runtime) [greet] (CodeGenerator_init tab)
  = (Ok ("def greet(name):" ++ nl ++ tab ++ "return name"),
     CodeGenerator_init tab)
  /\ generate (py := sample_runtime)
       {| root_nodes := [greet]; _stack := [] |} "file" None "out"
       (CodeGenerator_init tab)
     = (Raised ValueError, CodeGenerator_init tab, [])
  /\ generate (py := sample_runtime)
       {| root_nodes := [greet]; _stack := [] |} "file" (Some "greet.py") "out"
       (CodeGenerator_init tab)
     = (Ok ("def greet(name):" ++ nl ++ tab ++ "return name"),
        CodeGenerator_init tab,
        [WriteText "out" "greet.py"
           ("def greet(name):" ++ nl ++ tab ++ "return name")]).
Proof.
  split; [reflexivity|]. split.
  - apply (proj1 (C8_generate_file_mode (py := sample_runtime)
                    {| root_nodes := [greet]; _stack := [] |} None "out" _
                    (CodeGenerator_init tab) (CodeGenerator_init tab) eq_refl)).
    reflexivity.
  - apply (proj2 (C8_generate_file_mode (py := sample_runtime)
                    {| root_nodes := [greet]; _stack := [] |}
                    (Some "greet.py") "out" _
                    (CodeGenerator_init tab) (CodeGenerator_init tab) eq_refl)
             "greet.py"); reflexivity.
Defined.

(** C9 at a [Name] used as a statement. *)
Lemma C9_witness :
  has_rule (Name "x") = false
  /\ _generate_node (py := sample_runtime) (Name "x")
       {| indent_char := tab; indent_level := 1 |}
     = (Ok (tab ++ "# Unknown node: Name"),
        {| indent_char := tab; indent_level := 1 |}).
Proof.
  split; [reflexivity|].
  exact (proj1 (C9_unknown_node_placeholder (py := sample_runtime) (Name "x")
                  {| indent_char := tab; indent_level := 1 |} eq_refl)).
Defined.

(** ** Closed instances of the further properties *)

(** A conditional opened and closed after one top-level statement. *)
Lemma root_nodes_append_only_witness :
  run (with_ (IfBuilder (Name "x")) [AddNode Break])
    {| root_nodes := [Pass]; _stack := [] |}
  = Done {| root_nodes := [Pass; If (Some (Name "x")) [Break] []];
            _stack := [] |}
  /\ exists added, [Pass; If (Some (Name "x")) [Break] []] = [Pass] +++ added.
Proof.
  split; [reflexivity|].
  apply (root_nodes_append_only
           (with_ (IfBuilder (Name "x")) [AddNode Break])
           {| root_nodes := [Pass]; _stack := [] |}
           {| root_nodes := [Pass; If (Some (Name "x")) [Break] []];
              _stack := [] |}).
  reflexivity.
Defined.

(** A conditional opened and not yet closed: one entry, one more on the
    stack. *)
Lemma stack_depth_accounting_witness :
  run [Enter (IfBuilder (Name "x")); AddNode Break] Builder_init
  = Done {| root_nodes := [];
            _stack := [FNode (If (Some (Name "x")) [Break] [])] |}
  /\ List.length [FNode (If (Some (Name "x")) [Break] [])]
     + count_exit [Enter (IfBuilder (Name "x")); AddNode Break]
     = List.length (_stack Builder_init)
       + count_enter [Enter (IfBuilder (Name "x")); AddNode Break].
Proof.
  split; [reflexivity|].
  apply (stack_depth_accounting
           [Enter (IfBuilder (Name "x")); AddNode Break] Builder_init
           {| root_nodes := [];
              _stack := [FNode (If (Some (Name "x")) [Break] [])] |}).
  reflexivity.
Defined.

(** An else block closed once more after its conditional is closed. *)
Lemma unbalanced_exit_raises_witness :
  run (with_ (IfBuilder (Name "x")) []) {| root_nodes := []; _stack := [] |}
  = Done {| root_nodes := [If (Some (Name "x")) [Pass] []]; _stack := [] |}
  /\ count_exit (with_ (IfBuilder (Name "x")) [])
     = count_enter (with_ (IfBuilder (Name "x")) [])
  /\ run (with_ (IfBuilder (Name "x")) [] +++ [Exit ElseBuilder])
       {| root_nodes := []; _stack := [] |}
     = Throws IndexError.
Proof.
  split; [reflexivity|]. split; [reflexivity|].
  apply (unbalanced_exit_raises (with_ (IfBuilder (Name "x")) []) ElseBuilder []
           {| root_nodes := [If (Some (Name "x")) [Pass] []]; _stack := [] |});
    reflexivity.
Defined.

(** The sample block on a fresh builder. *)
Lemma scoped_block_safe_witness :
  All constructible sample_block
  /\ Forall pushed_by_builder (_stack Builder_init)
  /\ exists b',
       run (block_ops sample_block) Builder_init = Done b'
       /\ List.length (_stack b') = List.length (_stack Builder_init)
       /\ tl (_stack b') = tl (_stack Builder_init)
       /\ Forall pushed_by_builder (_stack b')
       /\ exists added, root_nodes b' = root_nodes Builder_init +++ added.
Proof.
  assert (Hc : All constructible sample_block).
  { cbn. repeat split; eexists; reflexivity. }
  assert (Hs : Forall pushed_by_builder (_stack Builder_init)) by constructor.
  split; [exact Hc|]. split; [exact Hs|].
  exact (scoped_block_safe sample_block Builder_init Hc Hs).
Defined.

(** The sample class on a fresh builder. *)
Lemma plain_block_is_add_node_witness :
  plain_block sample_class
  /\ run (item_ops sample_class) Builder_init
     = add_node (built sample_class) Builder_init.
Proof.
  assert (Hp : plain_block sample_class) by (cbn; repeat split).
  split; [exact Hp|].
  exact (plain_block_is_add_node sample_class Builder_init Hp).
Defined.

(** A lambda used as a statement, printed to the console. *)
Lemma generate_raises_only_witness :
  generate (py := sample_runtime)
    {| root_nodes := [Expr (Some (Lambda None (Some (Name "x"))))];
       _stack := [] |}
    "console" None "." (CodeGenerator_init tab)
  = (Raised NameError, CodeGenerator_init tab, [])
  /\ (([] : list effect) = []
      /\ (NameError = TypeError \/ NameError = AttributeError
          \/ NameError = NameError
          \/ (NameError = ValueError /\ "console" = "file"
              /\ opt_str_truthy None = false
              /\ CodeGenerator_init tab = CodeGenerator_init tab
              /\ exists code,
                   _generate_nodes (py := sample_runtime)
                     (root_nodes
                        {| root_nodes :=
                             [Expr (Some (Lambda None (Some (Name "x"))))];
                           _stack := [] |})
                     (CodeGenerator_init tab)
                   = (Ok code, CodeGenerator_init tab)))).
Proof.
  split; [reflexivity|].
  apply (generate_raises_only (py := sample_runtime)
           {| root_nodes := [Expr (Some (Lambda None (Some (Name "x"))))];
              _stack := [] |}
           "console" None "." (CodeGenerator_init tab) (CodeGenerator_init tab)
           NameError []).
  reflexivity.
Defined.

(** A class whose body holds an [import] of a bare [And]. *)
Lemma failed_render_leaves_counter_witness :
  _generate_node (py := sample_runtime)
    (ClassDef "C" [] [] [Import [Operator And]] []) (CodeGenerator_init tab)
  = (Raised TypeError, {| indent_char := tab; indent_level := 1 |})
  /\ (indent_char {| indent_char := tab; indent_level := 1 |}
      = indent_char (CodeGenerator_init tab)
      /\ (indent_level (CodeGenerator_init tab)
          <= indent_level {| indent_char := tab; indent_level := 1 |})%Z
      /\ (forall e',
            header_text (py := sample_runtime)
              (ClassDef "C" [] [] [Import [Operator And]] [])
            = Raised e' ->
            e' = TypeError
            /\ {| indent_char := tab; indent_level := 1 |}
               = CodeGenerator_init tab)
      /\ (forall hs,
            header_text (py := sample_runtime)
              (ClassDef "C" [] [] [Import [Operator And]] [])
            = Ok hs ->
            body_only (ClassDef "C" [] [] [Import [Operator And]] []) = true ->
            (indent_level (CodeGenerator_init tab)
             < indent_level {| indent_char := tab; indent_level := 1 |})%Z)).
Proof.
  split; [reflexivity|].
  apply (failed_render_leaves_counter (py := sample_runtime)
           (ClassDef "C" [] [] [Import [Operator And]] [])
           (CodeGenerator_init tab) {| indent_char := tab; indent_level := 1 |}
           TypeError).
  reflexivity.
Defined.

(** A name and a bare [Not], joined. *)
Lemma join_exprs_type_error_iff_witness :
  map_result (_generate_expr (py := sample_runtime)) [Name "a"; Operator Not]
  = Ok [Some "a"; None]
  /\ ((join_exprs (py := sample_runtime) ", " [Name "a"; Operator Not]
       = Raised TypeError
       <-> Exists bare_bool_operator [Name "a"; Operator Not])
      /\ (forall e,
            join_exprs (py := sample_runtime) ", " [Name "a"; Operator Not]
            = Raised e ->
            e = TypeError)).
Proof.
  split; [reflexivity|].
  apply (join_exprs_type_error_iff (py := sample_runtime) ", "
           [Name "a"; Operator Not] [Some "a"; None]).
  reflexivity.
Defined.

(** [a == b] written with the operator node [Eq]. *)
Lemma operator_node_text_witness :
  _generate_expr (py := sample_runtime) (Name "a") = Ok (Some "a")
  /\ _generate_expr (py := sample_runtime) (Name "b") = Ok (Some "b")
  /\ (_generate_expr (py := sample_runtime)
        (Compare (Some (Name "a")) [Operator Eq] [Name "b"])
      = Ok (Some "a None b")
      /\ _generate_expr (py := sample_runtime)
           (UnaryOp (Some (Operator Eq)) (Some (Name "b")))
         = Ok (Some "None b")
      /\ _generate_node (py := sample_runtime)
           (AugAssign (Some (Name "a")) (Some (Operator Eq)) (Some (Name "b"))
              None)
           (CodeGenerator_init tab)
         = (Ok "a None= b", CodeGenerator_init tab)).
Proof.
  split; [reflexivity|]. split; [reflexivity|].
  apply (operator_node_text (py := sample_runtime) Eq (Name "a") (Name "b")
           "a" "b" None (CodeGenerator_init tab)); reflexivity.
Defined.

(** Two statements with an empty comment between them. *)
Lemma generate_nodes_app_witness :
  _generate_nodes (py := sample_runtime) [Pass; Comment EmptyString]
    (CodeGenerator_init tab)
  = (Ok "pass", CodeGenerator_init tab)
  /\ _generate_nodes (py := sample_runtime) [Break] (CodeGenerator_init tab)
     = (Ok "break", CodeGenerator_init tab)
  /\ _generate_nodes (py := sample_runtime)
       ([Pass; Comment EmptyString] +++ [Break]) (CodeGenerator_init tab)
     = (Ok (stacked "pass" "break"), CodeGenerator_init tab).
Proof.
  split; [reflexivity|]. split; [reflexivity|].
  apply (generate_nodes_app (py := sample_runtime)
           [Pass; Comment EmptyString] [Break] (CodeGenerator_init tab)
           (CodeGenerator_init tab) (CodeGenerator_init tab) "pass" "break");
    reflexivity.
Defined.

(** [greet] printed to the console. *)
Lemma generate_effects_witness :
  generate (py := sample_runtime)
    {| root_nodes := [greet]; _stack := [] |} "console" None "."
    (CodeGenerator_init tab)
  = (Ok ("def greet(name):" ++ nl ++ tab ++ "return name"),
     CodeGenerator_init tab,
     [Print ("def greet(name):" ++ nl ++ tab ++ "return name")])
  /\ ("console" = "console"
      /\ Ok ("def greet(name):" ++ nl ++ tab ++ "return name")
         = Ok ("def greet(name):" ++ nl ++ tab ++ "return name")).
Proof.
  split; [reflexivity|].
  apply (generate_effects (py := sample_runtime)
           {| root_nodes := [greet]; _stack := [] |} "console" None "."
           (CodeGenerator_init tab) (CodeGenerator_init tab)
           (Ok ("def greet(name):" ++ nl ++ tab ++ "return name"))
           [Print ("def greet(name):" ++ nl ++ tab ++ "return name")]).
  reflexivity.
Defined.

(** A call with a textual constant and a keyword argument. *)
Lemma plain_expr_renders_witness :
  plain_expr (py := sample_runtime)
    (Call (Some (Attribute (Some (Name "os")) "getenv"))
       [Constant (VStr "HOME") None]
       [Keyword (Some "default") (Some (Constant VNone None))])
  /\ exists s,
       _generate_expr (py := sample_runtime)
         (Call (Some (Attribute (Some (Name "os")) "getenv"))
            [Constant (VStr "HOME") None]
            [Keyword (Some "default") (Some (Constant VNone None))])
       = Ok (Some s)
       /\ single_line s = true.
Proof.
  assert (Hp : plain_expr (py := sample_runtime)
                 (Call (Some (Attribute (Some (Name "os")) "getenv"))
                    [Constant (VStr "HOME") None]
                    [Keyword (Some "default") (Some (Constant VNone None))])).
  { cbn. repeat split; discriminate. }
  split; [exact Hp|].
  exact (plain_expr_renders (py := sample_runtime) _ Hp).
Defined.

(** [if x: pass] and [while x: pass], each with an else block that holds
    [break]. *)
Lemma else_block_rendering_witness :
  _generate_expr (py := sample_runtime) (Name "x") = Ok (Some "x")
  /\ _generate_node (py := sample_runtime) Pass
       (deeper (CodeGenerator_init tab))
     = (Ok (tab ++ "pass"), deeper (CodeGenerator_init tab))
  /\ _generate_node (py := sample_runtime) Break (CodeGenerator_init tab)
     = (Ok "break", CodeGenerator_init tab)
  /\ _generate_node (py := sample_runtime) Break
       (deeper (CodeGenerator_init tab))
     = (Ok (tab ++ "break"), deeper (CodeGenerator_init tab))
  /\ (run (with_ (IfBuilder (Name "x"))
             (AddNode Pass :: with_ ElseBuilder [AddNode Break]))
        Builder_init
      = Done {| root_nodes := [If (Some (Name "x")) [Pass] [Break]];
                _stack := [] |}
      /\ _generate_node (py := sample_runtime)
           (If (Some (Name "x")) [Pass] [Break]) (CodeGenerator_init tab)
         = (Ok ("if x:" ++ nl ++ tab ++ "pass" ++ nl ++ "break"),
            CodeGenerator_init tab)
      /\ run (with_ (WhileBuilder (Name "x"))
                (AddNode Pass :: with_ ElseBuilder [AddNode Break]))
           Builder_init
         = Done {| root_nodes := [While (Some (Name "x")) [Pass] [Break]];
                   _stack := [] |}
      /\ _generate_node (py := sample_runtime)
           (While (Some (Name "x")) [Pass] [Break]) (CodeGenerator_init tab)
         = (Ok ("while x:" ++ nl ++ tab ++ "pass" ++ nl ++ "else:" ++ nl
                  ++ tab ++ "break"),
            CodeGenerator_init tab)).
Proof.
  split; [reflexivity|]. split; [reflexivity|]. split; [reflexivity|].
  split; [reflexivity|].
  apply (else_block_rendering (py := sample_runtime) (Name "x") Pass Break
           (CodeGenerator_init tab) (deeper (CodeGenerator_init tab))
           (CodeGenerator_init tab) (deeper (CodeGenerator_init tab))
           "x" (tab ++ "pass") "break" (tab ++ "break")); reflexivity.
Defined.

(** A protected block with one statement in each clause. *)
Lemma try_block_rendering_witness :
  _generate_expr (py := sample_runtime) (Name "E") = Ok (Some "E")
  /\ _generate_node (py := sample_runtime) Pass
       (deeper (CodeGenerator_init tab))
     = (Ok (tab ++ "pass"), deeper (CodeGenerator_init tab))
  /\ _generate_node (py := sample_runtime) Break
       (deeper (CodeGenerator_init tab))
     = (Ok (tab ++ "break"), deeper (CodeGenerator_init tab))
  /\ _generate_node (py := sample_runtime) Continue
       (deeper (CodeGenerator_init tab))
     = (Ok (tab ++ "continue"), deeper (CodeGenerator_init tab))
  /\ _generate_node (py := sample_runtime) (Return None)
       (deeper (CodeGenerator_init tab))
     = (Ok (tab ++ "return"), deeper (CodeGenerator_init tab))
  /\ (run (with_ TryBuilder
             (AddNode Pass
                :: with_ (ExceptBuilder (Some (Name "E")) (Some "e"))
                     [AddNode Break]
                +++ with_ ElseBuilder [AddNode Continue]
                +++ with_ FinallyBuilder [AddNode (Return None)]))
        Builder_init
      = Done {| root_nodes :=
                  [Try [Pass] [ExceptHandler (Some (Name "E")) (Some "e") [Break]]
                     [Continue] [Return None]];
                _stack := [] |}
      /\ _generate_node (py := sample_runtime)
           (Try [Pass] [ExceptHandler (Some (Name "E")) (Some "e") [Break]]
              [Continue] [Return None])
           (CodeGenerator_init tab)
         = (Ok ("try:" ++ nl ++ tab ++ "pass" ++ nl
                  ++ "except E as e:" ++ nl ++ tab ++ "break" ++ nl
                  ++ "else:" ++ nl ++ tab ++ "continue" ++ nl
                  ++ "finally:" ++ nl ++ tab ++ "return"),
            CodeGenerator_init tab)).
Proof.
  do 5 (split; [reflexivity|]).
  apply (try_block_rendering (py := sample_runtime) Pass Break Continue
           (Return None) (Name "E") "e" "E" (CodeGenerator_init tab)
           (deeper (CodeGenerator_init tab)) (deeper (CodeGenerator_init tab))
           (deeper (CodeGenerator_init tab)) (deeper (CodeGenerator_init tab))
           (tab ++ "pass") (tab ++ "break") (tab ++ "continue")
           (tab ++ "return")); reflexivity.
Defined.

(** A match on [x] with the one case [1]. *)
Lemma match_block_rendering_witness :
  _generate_expr (py := sample_runtime) (Name "x") = Ok (Some "x")
  /\ _generate_expr (py := sample_runtime) (Constant (VInt 1) None)
     = Ok (Some "1")
  /\ _generate_node (py := sample_runtime) Pass
       (deeper (deeper (CodeGenerator_init tab)))
     = (Ok (tab ++ tab ++ "pass"), deeper (deeper (CodeGenerator_init tab)))
  /\ (run (with_ (MatchBuilder (Name "x"))
             (with_ (CaseBuilder (Constant (VInt 1) None) None) [AddNode Pass]))
        Builder_init
      = Done {| root_nodes :=
                  [Match (Some (Name "x"))
                     [MatchCase (Some (Constant (VInt 1) None)) None [Pass]]];
                _stack := [] |}
      /\ _generate_node (py := sample_runtime)
           (Match (Some (Name "x"))
              [MatchCase (Some (Constant (VInt 1) None)) None [Pass]])
           (CodeGenerator_init tab)
         = (Ok ("match x:" ++ nl ++ tab ++ "case 1:" ++ nl
                  ++ tab ++ tab ++ "pass"),
            CodeGenerator_init tab)).
Proof.
  do 3 (split; [reflexivity|]).
  apply (match_block_rendering (py := sample_runtime) (Name "x")
           (Constant (VInt 1) None) Pass None (CodeGenerator_init tab)
           (deeper (deeper (CodeGenerator_init tab))) "x" "1" EmptyString
           (tab ++ tab ++ "pass")); try reflexivity.
  discriminate.
Defined.

(** The parameters of [def f(a: int, *, k=1)], as they are printed. *)
Lemma arguments_star_rule_witness :
  map_result (_generate_expr (py := sample_runtime))
    [Arg "a" (Some (Name "int")) None]
  = Ok (map Some ["a: int"])
  /\ map_result (_generate_expr (py := sample_runtime))
       [Arg "k" None (Some (Constant (VInt 1) None))]
     = Ok (map Some ["k"])
  /\ (_generate_arguments (py := sample_runtime)
        (Arguments [Arg "a" (Some (Name "int")) None] None
           [Arg "k" None (Some (Constant (VInt 1) None))] [] None [] [])
      = Ok "a: int, k"
      /\ (forall name default,
            _generate_expr (py := sample_runtime) (Arg name None default)
            = Ok (Some name))
      /\ (forall name annotation default text,
            _generate_expr (py := sample_runtime) annotation = Ok text ->
            _generate_expr (py := sample_runtime)
              (Arg name (Some annotation) default)
            = Ok (Some (name ++ ": " ++ fmt text)))).
Proof.
  split; [reflexivity|]. split; [reflexivity|].
  apply (arguments_star_rule (py := sample_runtime)
           [Arg "a" (Some (Name "int")) None]
           [Arg "k" None (Some (Constant (VInt 1) None))] ["a: int"] ["k"]
           None None [] [] []); reflexivity.
Defined.

(** The list comprehension [[x for x in xs]]. *)
Lemma comprehension_clauses_class_witness :
  _generate_expr (py := sample_runtime)
    (ListComp (Some (Name "x"))
       [Comprehension (Some (Name "x")) (Some (Name "xs")) [] 0])
  = Ok (Some "[x for x in xs]")
  /\ Forall is_comprehension
       [Comprehension (Some (Name "x")) (Some (Name "xs")) [] 0].
Proof.
  split; [reflexivity|].
  apply (comprehension_clauses_class (py := sample_runtime)
           (ListComp (Some (Name "x"))
              [Comprehension (Some (Name "x")) (Some (Name "xs")) [] 0])
           [Comprehension (Some (Name "x")) (Some (Name "xs")) [] 0]
           (Some "[x for x in xs]")).
  - left. exists (Some (Name "x")). now left.
  - reflexivity.
Defined.
